(** * HouseAI: task orchestration, reference resolution, result aggregation
      and hybrid retrieval

    A shallow embedding of the parts of the HouseAI multi-agent chat service
    that decide how a request is scheduled and answered:

    - [services/enhanced_multi_agent_service.py]: [AgentTask], [TaskParser],
      [EnhancedMultiAgentOrchestrator] (scheduling loop, [check_dependencies],
      [_combine_results], the search-history temp file);
    - [services/agents/utils.py]: [extract_location_from_query],
      [resolve_references];
    - [services/agents/search_agent.py]: [get_embedding], [search_properties],
      [hybrid_search] (reciprocal rank fusion).

    Conventions.  A Python [str] is a sequence of Unicode code points
    ([ustring]); literals are written in UTF-8 and decoded by [u].  A Python
    [float] is a binary64 value ([PrimFloat.float], specified by
    [FloatAxioms]).  An exception that a function lets through is a result
    of its own ([ValueError], or [None] of an [option]).  Calls that leave
    the process (language model, embedding service, document store,
    capability providers) are arguments of the functions that make them. *)

From Stdlib Require Import String Ascii List ZArith NArith Lia Bool.
From Stdlib Require Import Sorting.Sorted Sorting.Permutation.
From Stdlib Require Import DecimalString DecimalNat.
From Stdlib Require Import Floats.
From Stdlib Require Uint63.
From stdpp Require Import gmap strings.
Import ListNotations.

Local Open Scope string_scope.
Local Open Scope list_scope.

(* ===================================================================== *)
(** * Text: code points and the regular expressions of [utils.py]        *)
(* ===================================================================== *)

Module Text.

(** A Python [str]: a list of code points. *)
Definition ustring := list N.

(** UTF-8 decoding, used only to write literals. *)
Fixpoint utf8 (bs : list N) : ustring :=
  match bs with
  | [] => []
  | b :: t =>
    if (b <? 0x80)%N then b :: utf8 t
    else match t with
      | [] => [b]
      | b1 :: t1 =>
        if (b <? 0xE0)%N then
          N.lor (N.shiftl (N.land b 0x1F) 6) (N.land b1 0x3F) :: utf8 t1
        else match t1 with
          | [] => [b]
          | b2 :: t2 =>
            if (b <? 0xF0)%N then
              N.lor (N.shiftl (N.land b 0x0F) 12)
                (N.lor (N.shiftl (N.land b1 0x3F) 6) (N.land b2 0x3F)) :: utf8 t2
            else match t2 with
              | [] => [b]
              | b3 :: t3 =>
                N.lor (N.shiftl (N.land b 0x07) 18)
                  (N.lor (N.shiftl (N.land b1 0x3F) 12)
                    (N.lor (N.shiftl (N.land b2 0x3F) 6) (N.land b3 0x3F))) :: utf8 t3
              end
          end
      end
  end.

Definition u (s : string) : ustring :=
  utf8 (List.map (fun a => N_of_ascii a) (list_ascii_of_string s)).

(** [a == b] on strings. *)
Fixpoint ustring_eqb (a b : ustring) : bool :=
  match a, b with
  | [], [] => true
  | x :: a', y :: b' => (x =? y)%N && ustring_eqb a' b'
  | _, _ => false
  end.

Definition opt_ustring_eqb (a b : option ustring) : bool :=
  match a, b with
  | Some x, Some y => ustring_eqb x y
  | None, None => true
  | _, _ => false
  end.

(** [[가-힣]]: a precomposed Hangul syllable. *)
Definition is_hangul (c : N) : bool := ((0xAC00 <=? c) && (c <=? 0xD7A3))%N.

(** [[0-9]]: an ASCII digit. *)
Definition is_digit (c : N) : bool := ((48 <=? c) && (c <=? 57))%N.

(** [\s] on a [str] pattern: the characters for which [str.isspace] holds. *)
Definition is_space (c : N) : bool :=
  (((9 <=? c) && (c <=? 13)) || ((28 <=? c) && (c <=? 32)) || (c =? 0x85)
   || (c =? 0xA0) || (c =? 0x1680) || ((0x2000 <=? c) && (c <=? 0x200A))
   || (c =? 0x2028) || (c =? 0x2029) || (c =? 0x202F) || (c =? 0x205F)
   || (c =? 0x3000))%N.

Definition ch_dong : N := 0xB3D9.  (* 동 *)
Definition ch_yeok : N := 0xC5ED.  (* 역 *)
Definition ch_gu : N := 0xAD6C.    (* 구 *)
Definition ch_beon : N := 0xBC88.  (* 번 *)

(** [(?:동|역|구)] *)
Definition is_loc_suffix (c : N) : bool :=
  ((c =? ch_dong) || (c =? ch_yeok) || (c =? ch_gu))%N.

(** The longest prefix whose characters satisfy [p], and what follows it
    (a greedy [p*]). *)
Fixpoint span (p : N -> bool) (s : ustring) : ustring * ustring :=
  match s with
  | c :: s' =>
    if p c then let (a, b) := span p s' in (c :: a, b) else ([], s)
  | [] => ([], [])
  end.

(** The ways [[가-힣]+(?:동|역|구)] matches a prefix of [s], in the order a
    backtracking matcher tries them: [[가-힣]+] is greedy, so the longest
    first.  [pre] holds, reversed, the syllables [[가-힣]+] has taken so far;
    each way is (matched text, remainder). *)
Fixpoint loc_splits (pre : ustring) (s : ustring) : list (ustring * ustring) :=
  match s with
  | c :: s' =>
    if is_hangul c then
      let longer := loc_splits (c :: pre) s' in
      match pre with
      | [] => longer
      | _ :: _ =>
        if is_loc_suffix c then longer ++ [(rev (c :: pre), s')] else longer
      end
    else []
  | [] => []
  end.

Definition loc_candidates (s : ustring) : list (ustring * ustring) :=
  loc_splits [] s.

(** [[가-힣]+(?:동|역|구)] at the start of [s]. *)
Definition match_loc (s : ustring) : option (ustring * ustring) :=
  hd_error (loc_candidates s).

(** One [\s*[0-9]+번]: (matched text, remainder). *)
Definition num_item (s : ustring) : option (ustring * ustring) :=
  let (ws, s1) := span is_space s in
  let (ds, s2) := span is_digit s1 in
  match ds, s2 with
  | _ :: _, c :: s3 =>
    if (c =? ch_beon)%N then Some (ws ++ ds ++ [ch_beon], s3) else None
  | _, _ => None
  end.

(** [(?:\s*[0-9]+번)*], greedy: (matched text, remainder).  Every item takes
    at least two characters, so [length s] iterations always suffice. *)
Fixpoint num_items (fuel : nat) (s : ustring) : ustring * ustring :=
  match fuel with
  | O => ([], s)
  | S f =>
    match num_item s with
    | Some (m, s') => let (m', s'') := num_items f s' in (m ++ m', s'')
    | None => ([], s)
    end
  end.

(** [(?:\s*[0-9]+번)+] at the start of [s]. *)
Definition num_group (s : ustring) : option (ustring * ustring) :=
  match num_item s with
  | Some (m, s') => let (m', s'') := num_items (length s') s' in Some (m ++ m', s'')
  | None => None
  end.

(** [([가-힣]+(?:동|역|구))((?:\s*[0-9]+번)+)] at the start of [s]: the first
    way of matching the location that is followed by a number group. *)
Fixpoint first_with_nums (cands : list (ustring * ustring))
  : option (ustring * ustring * ustring) :=
  match cands with
  | [] => None
  | (loc, rest) :: cands' =>
    match num_group rest with
    | Some (nums, rest') => Some (loc, nums, rest')
    | None => first_with_nums cands'
    end
  end.

Definition match_loc_nums (s : ustring) : option (ustring * ustring * ustring) :=
  first_with_nums (loc_candidates s).

(** [re.findall(r'([가-힣]+(?:동|역|구))', s)]: leftmost matches, each search
    resuming where the previous match ended ([skip] characters of the current
    match are still to be passed). *)
Fixpoint findall_loc_from (skip : nat) (s : ustring) : list ustring :=
  match s with
  | [] => []
  | _ :: s' =>
    match skip with
    | S k => findall_loc_from k s'
    | O =>
      match match_loc s with
      | Some (m, _) => m :: findall_loc_from (length m - 1) s'
      | None => findall_loc_from 0 s'
      end
    end
  end.

Definition findall_loc (s : ustring) : list ustring := findall_loc_from 0 s.

(** [re.findall(r'([가-힣]+(?:동|역|구))((?:\s*[0-9]+번)+)', s)]. *)
Fixpoint findall_loc_nums_from (skip : nat) (s : ustring)
  : list (ustring * ustring) :=
  match s with
  | [] => []
  | _ :: s' =>
    match skip with
    | S k => findall_loc_nums_from k s'
    | O =>
      match match_loc_nums s with
      | Some (loc, nums, _) =>
        (loc, nums) :: findall_loc_nums_from (length loc + length nums - 1) s'
      | None => findall_loc_nums_from 0 s'
      end
    end
  end.

Definition findall_loc_nums (s : ustring) : list (ustring * ustring) :=
  findall_loc_nums_from 0 s.

(** [[0-9]+번] at the start of [s]: the digits. *)
Definition match_num (s : ustring) : option ustring :=
  let (ds, s1) := span is_digit s in
  match ds, s1 with
  | _ :: _, c :: _ => if (c =? ch_beon)%N then Some ds else None
  | _, _ => None
  end.

Definition prev_is_hangul (prev : option N) : bool :=
  match prev with Some c => is_hangul c | None => false end.

(** [re.findall] of [([0-9]+)번], with the lookbehind [(?<![가-힣])] in front
    when [lookbehind] is set; [prev] is the character before the current
    position. *)
Fixpoint findall_num_from (lookbehind : bool) (skip : nat) (prev : option N)
  (s : ustring) : list ustring :=
  match s with
  | [] => []
  | c :: s' =>
    match skip with
    | S k => findall_num_from lookbehind k (Some c) s'
    | O =>
      if lookbehind && prev_is_hangul prev
      then findall_num_from lookbehind 0 (Some c) s'
      else match match_num s with
           | Some ds => ds :: findall_num_from lookbehind (length ds) (Some c) s'
           | None => findall_num_from lookbehind 0 (Some c) s'
           end
    end
  end.

(** [re.findall(r'(?<![가-힣])([0-9]+)번', s)] *)
Definition findall_num (s : ustring) : list ustring :=
  findall_num_from true 0 None s.

(** [re.findall(r'([0-9]+)번', s)] *)
Definition findall_num_plain (s : ustring) : list ustring :=
  findall_num_from false 0 None s.

(** What an expression yields that may raise [ValueError]. *)
Inductive Try (A : Type) :=
| Done (a : A)
| ValueError.
Arguments Done {A} a.
Arguments ValueError {A}.

Definition try_bind {A B : Type} (x : Try A) (f : A -> Try B) : Try B :=
  match x with
  | Done a => f a
  | ValueError => ValueError
  end.

Notation "'try!' x := e 'in' k" := (try_bind e (fun x => k))
  (at level 10, x name, e at level 100, k at level 200).

(** A loop that extends a list by what [f] yields for each element, left
    at the first element for which [f] raises. *)
Fixpoint try_flat_map {A B : Type} (f : A -> Try (list B)) (l : list A)
  : Try (list B) :=
  match l with
  | [] => Done []
  | x :: l' =>
    try! r := f x in
    try! rs := try_flat_map f l' in
    Done (r ++ rs)
  end.

(** The number a string of ASCII digits denotes. *)
Definition decimal_value (ds : ustring) : Z :=
  fold_left (fun acc c => (10 * acc + (Z.of_N c - 48))%Z) ds 0%Z.

(** [sys.get_int_max_str_digits()]: the default of CPython 3.11 and later
    (and of the security releases of 3.7 to 3.10), which the program does
    not change. *)
Definition INT_MAX_STR_DIGITS : nat := 4300.

(** [int(num)] for a string of ASCII digits: [ValueError] when the string
    has more digits (leading zeros included) than the limit. *)
Definition int_of_digits (ds : ustring) : Try Z :=
  if (INT_MAX_STR_DIGITS <? length ds)%nat then ValueError
  else Done (decimal_value ds).

(** [needle in s] for strings. *)
Fixpoint is_prefix (p s : ustring) : bool :=
  match p, s with
  | [], _ => true
  | a :: p', b :: s' => (a =? b)%N && is_prefix p' s'
  | _ :: _, [] => false
  end.

Fixpoint contains (needle s : ustring) : bool :=
  is_prefix needle s ||
  match s with
  | [] => false
  | _ :: s' => contains needle s'
  end.

(** [re.search(r'([가-힣]+(동|역|구))', query)]: the first match, if any. *)
Definition search_loc (s : ustring) : option ustring :=
  hd_error (findall_loc s).

End Text.
Export Text.

(* ===================================================================== *)
(** * Data model                                                         *)
(* ===================================================================== *)

Module Model.

(** A listing record as the agents pass it around: the metadata of a stored
    document together with its [_id] and, once ranked, its [rank]. *)
Record PropertyItem := mkItem {
  item_id : string;                          (* "_id" *)
  item_rank : option nat;                    (* "rank" *)
  item_aptNm : ustring;                      (* "aptNm" *)
  item_nearest_station : option ustring;     (* "nearest_station" *)
  item_distance_to_station : option float    (* "distance_to_station" *)
}.

(** [{"results": [...], "total_count": n, "message": ...}] *)
Record ResultSet := mkResultSet {
  results : list PropertyItem;
  total_count : option nat;
  message : option ustring;
  requires_location : bool
}.

(** [class TaskType(Enum)] *)
Inductive TaskType :=
| SEARCH | SIMILARITY_SEARCH | ANALYSIS | RECOMMENDATION | COMPARISON
| WISHLIST | CHAT.

(** [class Priority(Enum)]: HIGH = 1, MEDIUM = 2, LOW = 3. *)
Inductive Priority := HIGH | MEDIUM | LOW.

Definition priority_value (p : Priority) : nat :=
  match p with HIGH => 1 | MEDIUM => 2 | LOW => 3 end.

(** [AgentTask.status]: the four strings the code writes. *)
Inductive Status := Pending | Running | Completed | Failed.

Definition status_eqb (a b : Status) : bool :=
  match a, b with
  | Pending, Pending | Running, Running | Completed, Completed
  | Failed, Failed => true
  | _, _ => false
  end.

(** A value of [AgentTask.data]. *)
Inductive DataValue :=
| DNone
| DStr (s : ustring)
| DInt (z : Z)
| DItems (l : list PropertyItem).

(** [AgentTask.result], a dict: each key absent ([None]) or present.  The
    keys are those [_combine_results] reads, ["error"], and
    ["compared_properties"], under which the COMPARISON branch stores the
    records it compared.  ["comparison_data"] is read by [_combine_results]
    and written by no branch.  ["save_history_path"] and
    ["save_history_msg"], which the SEARCH branch writes beside
    ["search_results"] and ["response"] and nothing reads, are left out. *)
Record TaskResult := mkResult {
  r_response : option ustring;                 (* "response" *)
  r_search_results : option ResultSet;         (* "search_results" *)
  r_recommendation_response : option ustring;  (* "recommendation_response" *)
  r_recommendation_data : option ResultSet;    (* "recommendation_data" *)
  r_comparison_response : option ustring;      (* "comparison_response" *)
  r_comparison_data : option ResultSet;        (* "comparison_data" *)
  r_compared_properties : option (list PropertyItem);  (* "compared_properties" *)
  r_analysis_response : option ustring;        (* "analysis_response" *)
  r_analyzed_data : option ResultSet;          (* "analyzed_data" *)
  r_wishlist_data : option ResultSet;          (* "wishlist_data" *)
  r_error : option ustring                     (* "error" *)
}.

(** [@dataclass class AgentTask] *)
Record AgentTask := mkTask {
  task_id : string;
  task_type : TaskType;
  description : ustring;
  data : list (string * DataValue);
  priority : Priority;
  dependencies : list string;
  status : Status;
  result : option TaskResult;
  error : option ustring
}.

(** One line of the search-history file as the loaders read it:
    [{"query", "location", "result": {"results", "total_count"}}]. *)
Record HistoryEntry := mkEntry {
  h_query : ustring;
  h_location : option ustring;
  h_results : list PropertyItem
}.

Definition set_status (t : AgentTask) (s : Status) : AgentTask :=
  mkTask (task_id t) (task_type t) (description t) (data t) (priority t)
         (dependencies t) s (result t) (error t).

Definition set_outcome (t : AgentTask) (s : Status) (r : option TaskResult)
  (e : option ustring) : AgentTask :=
  mkTask (task_id t) (task_type t) (description t) (data t) (priority t)
         (dependencies t) s r e.

Definition set_data (t : AgentTask) (d : list (string * DataValue)) : AgentTask :=
  mkTask (task_id t) (task_type t) (description t) d (priority t)
         (dependencies t) (status t) (result t) (error t).

(** [key in d] and [d.get(key)] on a dict kept as an association list. *)
Fixpoint dict_get {V : Type} (k : string) (d : list (string * V)) : option V :=
  match d with
  | [] => None
  | (k', v) :: d' => if String.eqb k k' then Some v else dict_get k d'
  end.

(** [d[k] = v]: an existing key keeps its place, a new one goes last. *)
Fixpoint dict_set {V : Type} (k : string) (v : V) (d : list (string * V))
  : list (string * V) :=
  match d with
  | [] => [(k, v)]
  | (k', v') :: d' =>
    if String.eqb k k' then (k, v) :: d' else (k', v') :: dict_set k v d'
  end.

(** [d.pop(k, None)] *)
Fixpoint dict_pop {V : Type} (k : string) (d : list (string * V))
  : list (string * V) :=
  match d with
  | [] => []
  | (k', v') :: d' =>
    if String.eqb k k' then d' else (k', v') :: dict_pop k d'
  end.

Definition dict_keys {V : Type} (d : list (string * V)) : list string :=
  List.map fst d.

Definition dict_values {V : Type} (d : list (string * V)) : list V :=
  List.map snd d.

(** [list.sort(key=...)] and [sorted(..., key=...)]: stable, ascending. *)
Fixpoint insert_by {A : Type} (key : A -> nat) (x : A) (l : list A) : list A :=
  match l with
  | [] => [x]
  | y :: l' => if (key x <=? key y)%nat then x :: l else y :: insert_by key x l'
  end.

Definition sort_by {A : Type} (key : A -> nat) (l : list A) : list A :=
  fold_right (insert_by key) [] l.

End Model.
Export Model.

(* ===================================================================== *)
(** * Reference resolution ([services/agents/utils.py])                  *)
(* ===================================================================== *)

Module References.

(** [extract_location_from_query] *)
Definition extract_location_from_query (query : ustring) : option ustring :=
  search_loc query.

(** [if 0 <= idx < len(props): references.append(props[idx])]: what the
    guarded statement appends. *)
Definition item_at (props : list PropertyItem) (idx : Z) : list PropertyItem :=
  if ((0 <=? idx) && (idx <? Z.of_nat (length props)))%Z
  then match nth_error props (Z.to_nat idx) with
       | Some p => [p]
       | None => []
       end
  else [].

(** [idx = int(num) - 1] followed by the guarded append. *)
Definition pick (props : list PropertyItem) (num : ustring)
  : Try (list PropertyItem) :=
  try! n := int_of_digits num in
  Done (item_at props (n - 1)).

(** [for entry in reversed(history): if entry.get("location") == loc: ...; break]
    over a history already reversed: the first entry with that location alone
    is consulted, and [int(num)] is evaluated only when there is one. *)
Fixpoint pick_in_location (rev_history : list HistoryEntry) (loc num : ustring)
  : Try (list PropertyItem) :=
  match rev_history with
  | [] => Done []
  | entry :: older =>
    if opt_ustring_eqb (h_location entry) (Some loc)
    then pick (h_results entry) num
    else pick_in_location older loc num
  end.

(** [idx = int(num) - 1; if history: props = history[-1]["result"].get("results", []); ...]:
    [int(num)] is evaluated before the history is looked at. *)
Definition pick_latest (history : list HistoryEntry) (num : ustring)
  : Try (list PropertyItem) :=
  try! n := int_of_digits num in
  Done (match rev history with
        | [] => []
        | latest :: _ => item_at (h_results latest) (n - 1)
        end).

(** [any(num == x[1] for x in used_nums)] *)
Definition num_used (used_nums : list (ustring * ustring)) (num : ustring) : bool :=
  existsb (fun x => ustring_eqb num (snd x)) used_nums.

(** The pairs [(loc, num)] and the references of the first branch's loop
    over [loc_nums_pattern]. *)
Definition group_pairs (loc_nums_pattern : list (ustring * ustring))
  : list (ustring * ustring) :=
  flat_map (fun g => List.map (fun num => (fst g, num)) (findall_num_plain (snd g)))
           loc_nums_pattern.

(** [resolve_references(query, history)]; [Done None] is Python's [None],
    returned when no branch applies, and [ValueError] the exception of an
    [int(num)], which nothing in the function catches. *)
Definition resolve_references (query : ustring) (history : list HistoryEntry)
  : Try (option (list PropertyItem)) :=
  let loc_nums_pattern := findall_loc_nums query in
  let loc_list := findall_loc query in
  let num_list := findall_num query in
  match loc_nums_pattern with
  | _ :: _ =>
    let used_nums := group_pairs loc_nums_pattern in
    try! grouped :=
      try_flat_map (fun p => pick_in_location (rev history) (fst p) (snd p))
                   used_nums in
    try! bare :=
      try_flat_map (fun num => if num_used used_nums num then Done []
                               else pick_latest history num) num_list in
    Done (Some (grouped ++ bare))
  | [] =>
    match loc_list, num_list with
    | _ :: _, _ :: _ =>
      if (length loc_list =? length num_list)%nat then
        try! references :=
          try_flat_map (fun p => pick_in_location (rev history) (fst p) (snd p))
                       (combine loc_list num_list) in
        Done (Some references)
      else if ((length num_list =? 1) && (1 <? length loc_list))%nat then
        match num_list with
        | num :: _ =>
          try! references :=
            try_flat_map (fun loc => pick_in_location (rev history) loc num)
                         loc_list in
          Done (Some references)
        | [] => Done None
        end
      else Done None
    | [], _ :: _ =>
      try! references := try_flat_map (pick_latest history) num_list in
      Done (Some references)
    | _, [] => Done None
    end
  end.

End References.
Export References.

(* ===================================================================== *)
(** * Scheduling ([EnhancedMultiAgentOrchestrator.process_user_message]) *)
(* ===================================================================== *)

Module Scheduler.

(** What awaiting [_execute_task_internal(task)] under [asyncio.wait_for]
    can do: return (the provider's result dict, possibly none), raise, or
    exceed the timeout. *)
Inductive Outcome :=
| Returns (r : option TaskResult)
| Raises (msg : ustring)
| TimesOut.

(** [timeout_config], as [str(float)] prints the value. *)
Definition timeout_text (ty : TaskType) : ustring :=
  match ty with
  | SEARCH => u "15.0"
  | SIMILARITY_SEARCH => u "20.0"
  | ANALYSIS => u "10.0"
  | RECOMMENDATION => u "12.0"
  | COMPARISON => u "12.0"
  | WISHLIST => u "5.0"
  | CHAT => u "8.0"
  end.

Definition error_result (err response : ustring) : TaskResult :=
  mkResult (Some response) None None None None None None None None None (Some err).

(** [execute_task]: the task comes back [completed], or [failed] with the
    error recorded; no exception leaves it. *)
Definition execute_task (provider : AgentTask -> Outcome) (task : AgentTask)
  : AgentTask :=
  match provider (set_status task Running) with
  | Returns r => set_outcome task Completed r (error task)
  | TimesOut =>
    let err := u "작업 타임아웃 (" ++ timeout_text (task_type task) ++ u "초 초과)" in
    set_outcome task Failed
      (Some (error_result err
         (u "작업 실행 중 타임아웃이 발생했습니다 (" ++ timeout_text (task_type task)
            ++ u "초 초과)")))
      (Some err)
  | Raises msg =>
    set_outcome task Failed
      (Some (error_result msg (u "작업 실행 중 오류가 발생했습니다: " ++ msg)))
      (Some msg)
  end.

(** [check_dependencies]: every dependency id is a key of
    [self.completed_tasks] and the task stored there is [completed]. *)
Definition check_dependencies (completed_tasks : gmap string AgentTask)
  (task : AgentTask) : bool :=
  forallb (fun dep_id =>
             match completed_tasks !! dep_id with
             | None => false
             | Some t => status_eqb (status t) Completed
             end)
          (dependencies task).

(** The variables of the scheduling loop: the orchestrator's
    [self.completed_tasks], and the run's [pending_tasks] and
    [completed_results]. *)
Record Loop := mkLoop {
  completed_tasks : gmap string AgentTask;
  pending_tasks : list (string * AgentTask);
  completed_results : list AgentTask
}.

(** [self.completed_tasks[t.task_id] = t; completed_results.append(t);
    pending_tasks.pop(t.task_id, None)] *)
Definition record_result (st : Loop) (t : AgentTask) : Loop :=
  mkLoop (<[task_id t := t]> (completed_tasks st))
         (dict_pop (task_id t) (pending_tasks st))
         (completed_results st ++ [t]).

Definition has_dependencies (t : AgentTask) : bool :=
  match dependencies t with [] => false | _ :: _ => true end.

(** The batch awaited with [asyncio.gather]: every task of it is executed,
    and the results are recorded in the order of the batch. *)
Definition run_parallel (provider : AgentTask -> Outcome)
  (parallel_tasks : list AgentTask) (st : Loop) : Loop :=
  fold_left record_result (List.map (execute_task provider) parallel_tasks) st.

(** [for task in sequential_tasks: if self.check_dependencies(task): ...] *)
Definition run_sequential (provider : AgentTask -> Outcome)
  (sequential_tasks : list AgentTask) (st : Loop) : Loop :=
  fold_left (fun st task =>
               if check_dependencies (completed_tasks st) task
               then record_result st (execute_task provider task)
               else st)
            sequential_tasks st.

Definition ready_tasks (st : Loop) : list AgentTask :=
  List.filter (check_dependencies (completed_tasks st))
              (dict_values (pending_tasks st)).

(** One pass of the body of [while pending_tasks] once [ready] is known to
    be non-empty. *)
Definition iteration (provider : AgentTask -> Outcome) (st : Loop) : Loop :=
  let ready := sort_by (fun t => priority_value (priority t)) (ready_tasks st) in
  let parallel_tasks := List.filter (fun t => negb (has_dependencies t)) ready in
  let sequential_tasks := List.filter has_dependencies ready in
  run_sequential provider sequential_tasks
    (run_parallel provider parallel_tasks st).

(** [while pending_tasks: ...]; [None] only when [fuel] passes are not
    enough to leave the loop. *)
Fixpoint run_loop (fuel : nat) (provider : AgentTask -> Outcome) (st : Loop)
  : option Loop :=
  match pending_tasks st with
  | [] => Some st
  | _ :: _ =>
    match ready_tasks st with
    | [] => Some st                                  (* warning; break *)
    | _ :: _ =>
      match fuel with
      | O => None
      | S fuel' => run_loop fuel' provider (iteration provider st)
      end
    end
  end.

(** [pending_tasks = {task.task_id: task for task in tasks}] *)
Definition pending_of (tasks : list AgentTask) : list (string * AgentTask) :=
  fold_left (fun d t => dict_set (task_id t) t d) tasks [].

(** [if "user_id" not in task.data: task.data["user_id"] = user_id] *)
Definition add_user_id (user_id : option Z) (t : AgentTask) : AgentTask :=
  match dict_get "user_id" (data t) with
  | Some _ => t
  | None =>
    set_data t (dict_set "user_id"
                  (match user_id with Some n => DInt n | None => DNone end)
                  (data t))
  end.

(** Steps 1-3 of [process_user_message] after the parser has produced
    [tasks]: the loop is entered with the orchestrator's [completed_tasks]
    as they stand. *)
Definition schedule (fuel : nat) (provider : AgentTask -> Outcome)
  (completed : gmap string AgentTask) (user_id : option Z)
  (tasks : list AgentTask) : option Loop :=
  run_loop fuel provider
    (mkLoop completed (pending_of (List.map (add_user_id user_id) tasks)) []).

End Scheduler.
Export Scheduler.

(* ===================================================================== *)
(** * The search-history temp file                                       *)
(* ===================================================================== *)

Module History.

(** A line of [search_history.json]: an entry [SaveSearchHistoryAgent.save]
    wrote (of which the readers use ["query"] and ["results"]), or a line
    the readers reject ([json.loads] or a field access raises). *)
Inductive FileLine :=
| Entry (query : ustring) (results : list PropertyItem)
| Garbage.

(** The file at [tempfile.gettempdir()/search_history.json]: its lines, or
    [None] when it does not exist. *)
Definition TempFile := option (list FileLine).

(** The block of [EnhancedMultiAgentOrchestrator.__init__] that resets the
    file.  [remove_raises] says whether [os.remove] raises; the exception is
    caught and logged, and construction goes on. *)
Definition init_search_history (remove_raises : bool) (file : TempFile) : TempFile :=
  match file with
  | Some lines => if remove_raises then Some lines else None
  | None => None
  end.

(** [SaveSearchHistoryAgent.save]: appends one entry (creating the file).
    [not_written] says that an exception ([json.dumps], [open] or the write
    raising) kept the line out of the file, which is then as it was.  An
    exception raised by [os.fsync] once the line is written is caught by the
    same handler and leaves the line in the file: for the file, that is
    the case [not_written = false].  The message [save] returns is not
    modelled. *)
Definition save (not_written : bool) (user_query : ustring)
  (search_results : list PropertyItem) (file : TempFile) : TempFile :=
  if not_written then file
  else match file with
       | Some lines => Some (lines ++ [Entry user_query search_results])
       | None => Some [Entry user_query search_results]
       end.

Definition entry_of_line (l : FileLine) : option HistoryEntry :=
  match l with
  | Entry q rs => Some (mkEntry q (extract_location_from_query q) rs)
  | Garbage => None
  end.

(** [lines = f.readlines()] under [if os.path.exists(storage_path)] *)
Definition read_lines (file : TempFile) : list FileLine :=
  match file with Some lines => lines | None => [] end.

(** [load_search_history_from_tempfile]: a rejected line is skipped. *)
Definition load_search_history_from_tempfile (file : TempFile)
  : list HistoryEntry :=
  flat_map (fun l => match entry_of_line l with Some e => [e] | None => [] end)
           (read_lines file).

(** The loader at the head of [_create_simple_task_from_llm]: the [try]
    surrounds the whole loop, so loading stops at the first rejected line. *)
Fixpoint load_until_error (lines : list FileLine) : list HistoryEntry :=
  match lines with
  | [] => []
  | l :: rest =>
    match entry_of_line l with
    | Some e => e :: load_until_error rest
    | None => []
    end
  end.

Definition load_search_history_simple (file : TempFile) : list HistoryEntry :=
  load_until_error (read_lines file).

(** [os.path.exists(storage_path) and os.path.getsize(storage_path) > 0] *)
Definition has_existing_results (file : TempFile) : bool :=
  match file with
  | Some (_ :: _) => true
  | _ => false
  end.

(** The keyword rules' check: [entry = json.loads(lines[-1].strip());
    results = entry.get("results", [])], empty when there is no usable last
    line. *)
Definition latest_results (file : TempFile) : list PropertyItem :=
  match rev (read_lines file) with
  | Entry _ rs :: _ => rs
  | _ => []
  end.

End History.
Export History.

(* ===================================================================== *)
(** * Regular expressions as backtracking matchers                       *)
(* ===================================================================== *)

Module Regex.

(** A pattern applied at the start of a string: the remainders of all the
    ways it can match, in the order a backtracking matcher tries them. *)
Definition matcher := ustring -> list ustring.

Definition lit (w : ustring) : matcher :=
  fun s => if is_prefix w s then [skipn (length w) s] else [].

(** [[class]*], greedy: the longest run first, the empty match last. *)
Fixpoint class_star (p : N -> bool) (s : ustring) : list ustring :=
  match s with
  | c :: s' => if p c then class_star p s' ++ [s] else [s]
  | [] => [[]]
  end.

(** [[class]+] *)
Definition class_plus (p : N -> bool) : matcher :=
  fun s => match s with
           | c :: s' => if p c then class_star p s' else []
           | [] => []
           end.

Definition seq (a b : matcher) : matcher := fun s => flat_map b (a s).

(** [(...)?], greedy. *)
Definition opt (a : matcher) : matcher := fun s => a s ++ [s].

(** [$]: the end of the string, or just before a newline that ends it. *)
Definition at_end : matcher :=
  fun s => match s with
           | [] => [[]]
           | [c] => if (c =? 10)%N then [s] else []
           | _ => []
           end.

(** [re.match(pattern, s)] is not [None]. *)
Definition matches (m : matcher) (s : ustring) : bool :=
  match m s with [] => false | _ :: _ => true end.

Fixpoint first_some {A B : Type} (f : A -> option B) (l : list A) : option B :=
  match l with
  | [] => None
  | a :: l' => match f a with Some b => Some b | None => first_some f l' end
  end.

(** [\d] on a [str] pattern: the decimal digits of Unicode (category Nd),
    as first and last code point of each block. *)
Definition decimal_digit_blocks : list (N * N) :=
  [(0x30, 0x39); (0x660, 0x669); (0x6F0, 0x6F9); (0x7C0, 0x7C9); (0x966, 0x96F);
   (0x9E6, 0x9EF); (0xA66, 0xA6F); (0xAE6, 0xAEF); (0xB66, 0xB6F); (0xBE6, 0xBEF);
   (0xC66, 0xC6F); (0xCE6, 0xCEF); (0xD66, 0xD6F); (0xDE6, 0xDEF); (0xE50, 0xE59);
   (0xED0, 0xED9); (0xF20, 0xF29); (0x1040, 0x1049); (0x1090, 0x1099);
   (0x17E0, 0x17E9); (0x1810, 0x1819); (0x1946, 0x194F); (0x19D0, 0x19D9);
   (0x1A80, 0x1A89); (0x1A90, 0x1A99); (0x1B50, 0x1B59); (0x1BB0, 0x1BB9);
   (0x1C40, 0x1C49); (0x1C50, 0x1C59); (0xA620, 0xA629); (0xA8D0, 0xA8D9);
   (0xA900, 0xA909); (0xA9D0, 0xA9D9); (0xA9F0, 0xA9F9); (0xAA50, 0xAA59);
   (0xABF0, 0xABF9); (0xFF10, 0xFF19); (0x104A0, 0x104A9); (0x10D30, 0x10D39);
   (0x11066, 0x1106F); (0x110F0, 0x110F9); (0x11136, 0x1113F); (0x111D0, 0x111D9);
   (0x112F0, 0x112F9); (0x11450, 0x11459); (0x114D0, 0x114D9); (0x11650, 0x11659);
   (0x116C0, 0x116C9); (0x11730, 0x11739); (0x118E0, 0x118E9); (0x11950, 0x11959);
   (0x11C50, 0x11C59); (0x11D50, 0x11D59); (0x11DA0, 0x11DA9); (0x16A60, 0x16A69);
   (0x16AC0, 0x16AC9); (0x16B50, 0x16B59); (0x1D7CE, 0x1D7FF); (0x1E140, 0x1E149);
   (0x1E2F0, 0x1E2F9); (0x1E950, 0x1E959); (0x1FBF0, 0x1FBF9)]%N.

Definition is_decimal_digit (c : N) : bool :=
  existsb (fun b => ((fst b <=? c) && (c <=? snd b))%N) decimal_digit_blocks.

(** [s.replace(old, new)] for a non-empty [old]. *)
Fixpoint replace_from (skip : nat) (old new s : ustring) : ustring :=
  match s with
  | [] => []
  | c :: s' =>
    match skip with
    | S k => replace_from k old new s'
    | O =>
      if is_prefix old s then new ++ replace_from (length old - 1) old new s'
      else c :: replace_from 0 old new s'
    end
  end.

Definition replace (old new s : ustring) : ustring := replace_from 0 old new s.

Fixpoint lstrip (s : ustring) : ustring :=
  match s with
  | c :: s' => if is_space c then lstrip s' else s
  | [] => []
  end.

(** [s.strip()] *)
Definition strip (s : ustring) : ustring := rev (lstrip (rev (lstrip s))).

(** [sep.join(parts)] *)
Fixpoint join (sep : ustring) (parts : list ustring) : ustring :=
  match parts with
  | [] => []
  | [p] => p
  | p :: rest => p ++ sep ++ join sep rest
  end.

End Regex.
Export Regex.

(* ===================================================================== *)
(** * Intent decomposition ([TaskParser])                                *)
(* ===================================================================== *)

Module Decomposer.

(** The JSON object the intent-analysis prompt asks the language model for. *)
Record IntentData := mkIntent {
  primary_intent : string;
  secondary_intents : list string;
  requires_existing_data : bool;
  is_complex_request : bool;
  needs_location_context : bool;
  reasoning : ustring
}.

(** One element of ["tasks"] in the answer to the complex-task prompt. *)
Record ComplexTask := mkComplex {
  ct_task_type : string;
  ct_description : ustring;
  ct_priority : string;
  ct_dependencies : list string
}.

(** [AgentTask(...)] with the dataclass defaults for the fields left out. *)
Definition new_task (id : string) (ty : TaskType) (desc : ustring)
  (d : list (string * DataValue)) (p : Priority) (deps : list string) : AgentTask :=
  mkTask id ty desc d p deps Pending None None.

Definition lower_ascii (a : ascii) : ascii :=
  let n := nat_of_ascii a in
  if ((65 <=? n) && (n <=? 90))%nat then ascii_of_nat (n + 32) else a.

(** [s.lower()] *)
Fixpoint lower (s : string) : string :=
  match s with
  | EmptyString => EmptyString
  | String a s' => String (lower_ascii a) (lower s')
  end.

(** [task_type_map.get(name, TaskType.CHAT)] *)
Definition task_type_of (name : string) : TaskType :=
  if String.eqb name "SEARCH" then SEARCH
  else if String.eqb name "SIMILARITY_SEARCH" then SIMILARITY_SEARCH
  else if String.eqb name "ANALYSIS" then ANALYSIS
  else if String.eqb name "RECOMMENDATION" then RECOMMENDATION
  else if String.eqb name "COMPARISON" then COMPARISON
  else if String.eqb name "WISHLIST" then WISHLIST
  else CHAT.

(** [priority_map.get(name, Priority.MEDIUM)] *)
Definition priority_of (name : string) : Priority :=
  if String.eqb name "HIGH" then HIGH
  else if String.eqb name "LOW" then LOW
  else MEDIUM.

(** [location_only_patterns] *)
Definition location_only_patterns : list matcher :=
  [ seq (class_plus is_hangul) (seq (lit (u "구")) (seq (opt (lit (u "야"))) at_end));
    seq (class_plus is_hangul) (seq (lit (u "동")) (seq (opt (lit (u "야"))) at_end));
    seq (class_plus is_hangul) (seq (lit (u "역")) (seq (class_star is_space)
      (seq (opt (lit (u "근처"))) (seq (opt (lit (u "야"))) at_end))));
    seq (class_plus is_hangul) (seq (lit (u "구")) (seq (class_star is_space)
      (seq (lit (u "에서")) (seq (class_star is_space)
        (seq (lit (u "찾아")) (seq (opt (lit (u "줘"))) at_end))))));
    seq (class_plus is_hangul) (seq (lit (u "동")) (seq (class_star is_space)
      (seq (lit (u "에서")) (seq (class_star is_space)
        (seq (lit (u "찾아")) (seq (opt (lit (u "줘"))) at_end)))))) ].

Definition is_location_only (user_query : ustring) : bool :=
  existsb (fun m => matches m (strip user_query)) location_only_patterns.

Definition search_conditions : list ustring :=
  [u "월세"; u "전세"; u "매매"; u "오피스텔"; u "아파트"; u "빌라"; u "원룸";
   u "투룸"; u "쓰리룸"].

Definition mem_ustring (x : ustring) (l : list ustring) : bool :=
  existsb (ustring_eqb x) l.

(** The body of [for history_item in reversed(search_history[-5:])]. *)
Definition add_conditions (history_query : ustring)
  (previous_conditions : list ustring) : list ustring :=
  let pc :=
    fold_left (fun pc condition =>
                 if contains condition history_query && negb (mem_ustring condition pc)
                 then pc ++ [condition] else pc)
              search_conditions previous_conditions in
  if (contains (u "집") history_query || contains (u "매물") history_query)
     && negb (mem_ustring (u "매물") pc)
  then pc ++ [u "매물"] else pc.

(** The loop itself, left at the first item that yields a condition. *)
Fixpoint scan_history (items : list HistoryEntry)
  (previous_conditions : list ustring) : list ustring :=
  match items with
  | [] => previous_conditions
  | item :: rest =>
    match add_conditions (h_query item) previous_conditions with
    | [] => scan_history rest []
    | c :: pc => c :: pc
    end
  end.

(** [l[-n:]] *)
Definition last_n {A : Type} (n : nat) (l : list A) : list A :=
  skipn (length l - n) l.

Definition nonempty {A : Type} (l : list A) : bool :=
  match l with [] => false | _ :: _ => true end.

Definition is_none {A : Type} (o : option A) : bool :=
  match o with None => true | Some _ => false end.

(** The context-derived completion of the query at the head of
    [_create_simple_task_from_llm]: [enhanced_query]. *)
Definition enhance_query (primary : string) (user_query : ustring)
  (search_history : list HistoryEntry) : ustring :=
  let current_location := extract_location_from_query user_query in
  if is_location_only user_query && nonempty search_history then
    match scan_history (rev (last_n 5 search_history)) [] with
    | [] => user_query
    | c :: pc =>
      let clean_location :=
        strip (replace (u "에서") [] (replace (u "에서 찾아줘") []
                 (replace (u "야") [] user_query))) in
      clean_location ++ u " " ++ join (u " ") (c :: pc)
    end
  else if String.eqb primary "SEARCH" && is_none current_location
          && nonempty search_history then
    let latest_query :=
      match rev search_history with e :: _ => h_query e | [] => [] end in
    let rent :=
      if contains (u "월세") latest_query then [u "월세"]
      else if contains (u "전세") latest_query then [u "전세"] else [] in
    let previous_conditions :=
      if contains (u "매물") latest_query || contains (u "집") latest_query
      then rent ++ [u "매물"] else rent in
    match previous_conditions with
    | [] => user_query
    | _ :: _ => user_query ++ u " " ++ join (u " ") previous_conditions
    end
  else user_query.

(** The task that asks the user for a location. *)
Definition location_request (user_query : ustring) : AgentTask :=
  new_task "location_request" CHAT (u "위치 정보 재질문")
    [("query", DStr user_query);
     ("response", DStr (u "어느 지역의 매물을 찾으시나요? 예를 들어 '서초구', '방배동', '강남역 근처' 등으로 말씀해 주세요."))]
    HIGH [].

Definition chat_no_results (user_query : ustring) : AgentTask :=
  new_task "chat_no_results" CHAT (u "기존 결과 없음 - 일반 대화")
    [("query", DStr user_query)] LOW [].

(** [[가-힣]+동 \d+번] *)
Definition dong_ordinal : matcher :=
  seq (class_plus is_hangul) (seq (lit (u "동")) (seq (lit (u " "))
    (seq (class_plus is_decimal_digit) (lit (u "번"))))).

(** [re.match(r'([가-힣]+동 \d+번)\s+([가-힣]+동 \d+번)', s)]: the two groups
    and what follows the match. *)
Definition match_two_ordinals (s : ustring) : option (ustring * ustring * ustring) :=
  first_some (fun a =>
    first_some (fun b =>
      match dong_ordinal b with
      | c :: _ => Some (firstn (length s - length a) s,
                        firstn (length b - length c) b, c)
      | [] => None
      end) (class_plus is_space a)) (dong_ordinal s).

Definition opt_text (o : option ustring) : ustring :=
  match o with Some s => s | None => u "None" end.

Definition opt_value (o : option ustring) : DataValue :=
  match o with Some s => DStr s | None => DNone end.

(** [_create_simple_task_from_llm]; the [ValueError] of
    [resolve_references] is not caught here. *)
Definition create_simple_task_from_llm (file : TempFile) (user_query : ustring)
  (intent_data : IntentData) : Try (list AgentTask) :=
  let primary := primary_intent intent_data in
  let search_history := load_search_history_simple file in
  let current_location := extract_location_from_query user_query in
  let enhanced_query := enhance_query primary user_query search_history in
  if String.eqb primary "SEARCH"
     && is_none (extract_location_from_query enhanced_query)
  then Done [location_request user_query]
  else
    let final_query := enhanced_query in
    let general :=
      [new_task ("llm_" ++ lower primary ++ "_001") (task_type_of primary)
         (u "LLM 분석 기반 " ++ u primary ++ u " 작업")
         [("query", DStr final_query);
          ("original_query", DStr user_query);
          ("source", DStr (if requires_existing_data intent_data
                           then u "existing" else u "new"));
          ("llm_reasoning", DStr (reasoning intent_data))]
         HIGH []] in
    if requires_existing_data intent_data then
      if String.eqb primary "COMPARISON" then
        let norm_query :=
          match match_two_ordinals user_query with
          | Some (g1, g2, rest) => g1 ++ u ", " ++ g2 ++ rest
          | None => user_query
          end in
        try! refs := resolve_references norm_query search_history in
        match refs with
        | Some (r1 :: r2 :: refs) =>
          Done [new_task ("llm_" ++ lower primary ++ "_001") COMPARISON
                  (u "LLM 분석 기반 " ++ u primary ++ u " 작업")
                  [("query", DStr user_query);
                   ("source", DStr (u "existing"));
                   ("llm_reasoning", DStr (reasoning intent_data));
                   ("properties", DItems (r1 :: r2 :: refs))]
                  HIGH []]
        | _ => Done [chat_no_results user_query]
        end
      else if String.eqb primary "RECOMMENDATION" then
        let region_results :=
          match current_location, search_history with
          | Some loc, _ :: _ =>
            first_some (fun item =>
                          if opt_ustring_eqb (h_location item) (Some loc)
                          then match h_results item with
                               | [] => None
                               | r :: rs => Some (r :: rs)
                               end
                          else None)
                       (rev search_history)
          | None, _ :: _ =>
            match rev search_history with
            | latest :: _ =>
              match h_results latest with
              | [] => None
              | r :: rs => Some (r :: rs)
              end
            | [] => None
            end
          | _, [] => None
          end in
        Done match region_results with
        | Some rs =>
          [new_task "llm_recommendation_existing_region" RECOMMENDATION
             (match current_location with Some loc => loc | None => u "최신" end
              ++ u " 기존 검색 결과로 추천")
             [("query", DStr user_query);
              ("source", DStr (u "existing"));
              ("region", opt_value current_location);
              ("properties", DItems rs);
              ("llm_reasoning", DStr (reasoning intent_data))]
             HIGH []]
        | None =>
          [new_task "search_for_recommendation" SEARCH
             (opt_text current_location ++ u " 매물 검색")
             [("query", DStr user_query); ("region", opt_value current_location)]
             HIGH [];
           new_task "recommendation_after_search" RECOMMENDATION
             (opt_text current_location ++ u " 검색 결과로 추천")
             [("query", DStr user_query);
              ("source", DStr (u "search"));
              ("region", opt_value current_location);
              ("llm_reasoning", DStr (reasoning intent_data))]
             MEDIUM ["search_for_recommendation"]]
        end
      else
        let has_existing :=
          match rev search_history with
          | last_result :: _ => nonempty (h_results last_result)
          | [] => false
          end in
        Done (if has_existing then general else [chat_no_results user_query])
    else Done general.

(** [f"{n:03d}"] *)
Definition pad3 (n : nat) : string :=
  let d := NilEmpty.string_of_uint (Nat.to_uint n) in
  match String.length d with
  | 1 => "00" ++ d
  | 2 => "0" ++ d
  | _ => d
  end.

(** [f"llm_complex_{i+1:03d}"] *)
Definition complex_id (i : nat) : string := "llm_complex_" ++ pad3 (i + 1).

(** [type_to_id]: each task type maps to the id of the last task of that
    type. *)
Fixpoint type_to_id_from (i : nat) (specs : list ComplexTask)
  (d : list (string * string)) : list (string * string) :=
  match specs with
  | [] => d
  | spec :: rest =>
    type_to_id_from (S i) rest (dict_set (ct_task_type spec) (complex_id i) d)
  end.

(** [[type_to_id.get(dep) for dep in dep_types if dep in type_to_id]] *)
Definition dep_ids_of (type_to_id : list (string * string)) (dep_types : list string)
  : list string :=
  flat_map (fun dep => match dict_get dep type_to_id with
                       | Some id => [id]
                       | None => []
                       end) dep_types.

Definition uses_previous_results (ty : TaskType) : bool :=
  match ty with
  | RECOMMENDATION | COMPARISON | ANALYSIS => true
  | _ => false
  end.

Fixpoint complex_tasks_from (i : nat) (type_to_id : list (string * string))
  (user_query : ustring) (intent_data : IntentData) (specs : list ComplexTask)
  : list AgentTask :=
  match specs with
  | [] => []
  | spec :: rest =>
    let ty := task_type_of (ct_task_type spec) in
    let dep_ids := dep_ids_of type_to_id (ct_dependencies spec) in
    let task_data_dict :=
      [("query", DStr user_query);
       ("source", DStr (u "complex"));
       ("llm_reasoning", DStr (reasoning intent_data))] in
    let task_data_dict :=
      if uses_previous_results ty && nonempty dep_ids
      then dict_set "source" (DStr (u "existing")) task_data_dict
      else task_data_dict in
    new_task (complex_id i) ty (ct_description spec) task_data_dict
             (priority_of (ct_priority spec)) dep_ids
    :: complex_tasks_from (S i) type_to_id user_query intent_data rest
  end.

(** [_create_complex_tasks_from_llm]; [llm_complex] is the parsed answer to
    the complex-task prompt, [None] when the call or the parsing raises, in
    which case the simple path is taken from the [except] block. *)
Definition create_complex_tasks_from_llm (file : TempFile)
  (llm_complex : option (list ComplexTask)) (user_query : ustring)
  (intent_data : IntentData) : Try (list AgentTask) :=
  match llm_complex with
  | Some specs =>
    Done (complex_tasks_from 0 (type_to_id_from 0 specs []) user_query intent_data
                             specs)
  | None => create_simple_task_from_llm file user_query intent_data
  end.

(** [_analyze_intent_with_llm]; [llm_intent] is the parsed answer to the
    intent prompt, [None] when the call or the parsing fails.  The outer
    [except Exception] turns an exception of the task creation into
    [None]. *)
Definition analyze_intent_with_llm (file : TempFile)
  (llm_intent : option IntentData) (llm_complex : option (list ComplexTask))
  (user_query : ustring) : option (list AgentTask) :=
  match llm_intent with
  | None => None
  | Some intent_data =>
    match (if nonempty (secondary_intents intent_data)
              || is_complex_request intent_data
           then create_complex_tasks_from_llm file llm_complex user_query intent_data
           else create_simple_task_from_llm file user_query intent_data)
    with
    | Done tasks => Some tasks
    | ValueError => None
    end
  end.

(** [parse_user_request].  [keyword_tasks] is what
    [_analyze_intent_with_keywords] returns for the query ([None] when it
    raises). *)
Definition parse_user_request (file : TempFile)
  (llm_intent : option IntentData) (llm_complex : option (list ComplexTask))
  (keyword_tasks : option (list AgentTask)) (user_query : ustring)
  : list AgentTask :=
  match analyze_intent_with_llm file llm_intent llm_complex user_query with
  | Some (t :: ts) => t :: ts
  | _ =>
    match keyword_tasks with
    | Some ts => ts
    | None =>
      [new_task "chat_001" CHAT (u "일반 대화 처리 (오류 대체)")
         [("query", DStr user_query)] LOW []]
    end
  end.

End Decomposer.
Export Decomposer.

(* ===================================================================== *)
(** * Hybrid retrieval ([services/agents/search_agent.py])               *)
(* ===================================================================== *)

Module Retrieval.

Definition VECTOR_LIMIT : nat := 60.
Definition TEXT_LIMIT : nat := 60.
(** [VECTOR_WEIGHT = 0.3] and [TEXT_WEIGHT = 0.7]: the binary64 values
    nearest to 0.3 and 0.7, which are what the Python literals denote. *)
Definition VECTOR_WEIGHT : float := 0x1.3333333333333p-2%float.
Definition TEXT_WEIGHT : float := 0x1.6666666666666p-1%float.
Definition RANK_CONSTANT : nat := 60.

(** What [parse_query] returns (from the language model, or from the regex
    fallback when that call fails). *)
Record SearchParams := mkParams {
  p_gu : option ustring;
  p_dong : option ustring;
  p_dep_max : option Z;
  p_mon_max : option Z;
  p_require_rent : option ustring;
  p_require_subway : bool;
  p_max_dist : Z;
  p_station_name : option ustring
}.

(** One condition of [text_filter["$and"]]. *)
Inductive Clause :=
| Equals (field : string) (value : ustring)
| AtMost (field : string) (bound : Z).

(** A stored document: [_id] and the metadata the search reads. *)
Record Document := mkDoc {
  doc_id : string;
  doc_aptNm : ustring;
  doc_nearest_station : option ustring;
  doc_distance_to_station : option float
}.

(** The listing collection as the search uses it.  A query that raises is
    [None]. *)
Record Store := mkStore {
  (* collection.aggregate([{"$match": text_filter}]), or aggregate([]) *)
  aggregate_text : list Clause -> option (list Document);
  (* collection.aggregate([{"$vectorSearch": ...}, {"$limit": VECTOR_LIMIT}]) *)
  aggregate_vector : list float -> list Clause -> option (list Document);
  (* collection.find({"_id": {"$in": ids}}) *)
  find_by_ids : list string -> option (list Document)
}.

(** Truth value of an optional string: [None] and [""] are false. *)
Definition truthy (o : option ustring) : bool :=
  match o with Some (_ :: _) => true | _ => false end.

Definition text_of (o : option ustring) : ustring :=
  match o with Some s => s | None => [] end.

(** [np.zeros(1536, dtype=np.float64)] *)
Definition zero_vector : list float := repeat 0%float 1536.

(** [get_embedding]: [embed i] is what attempt [i] of the embedding call
    gives, [None] when it raises. *)
Fixpoint get_embedding_from (i retries : nat) (embed : nat -> option (list float))
  : list float :=
  match retries with
  | O => zero_vector
  | S n =>
    match embed i with
    | Some v => v
    | None => get_embedding_from (S i) n embed
    end
  end.

Definition get_embedding (embed : nat -> option (list float)) : list float :=
  get_embedding_from 0 3 embed.

(** [text_filter["$and"]] *)
Definition text_filter (params : SearchParams) : list Clause :=
  (if truthy (p_gu params) then [Equals "metadata.gu" (text_of (p_gu params))] else [])
  ++ (if truthy (p_dong params)
      then [Equals "metadata.dong" (text_of (p_dong params))] else [])
  ++ (if truthy (p_require_rent params)
      then [Equals "metadata.rent_type" (text_of (p_require_rent params))] else [])
  ++ (match p_dep_max params with
      | Some d => [AtMost "metadata.deposit" d] | None => [] end)
  ++ (match p_mon_max params with
      | Some m => [AtMost "metadata.monthlyRent" m] | None => [] end)
  ++ (if p_require_subway params && truthy (p_station_name params)
      then [Equals "metadata.nearest_station" (text_of (p_station_name params));
            AtMost "metadata.distance_to_station" (p_max_dist params)]
      else []).

(** A pass whose query raises contributes no document. *)
Definition text_results (store : Store) (params : SearchParams) : list Document :=
  match aggregate_text store (text_filter params) with
  | Some docs => docs
  | None => []
  end.

Definition vector_results (store : Store) (embed : nat -> option (list float))
  (params : SearchParams) : list Document :=
  match aggregate_vector store (get_embedding embed) (text_filter params) with
  | Some docs => docs
  | None => []
  end.

(** [ranked_results[id] += x] on a [defaultdict(float)]: binary64
    addition, to [0.0] for a new key. *)
Fixpoint add_score (id : string) (x : float) (d : list (string * float))
  : list (string * float) :=
  match d with
  | [] => [(id, (0 + x)%float)]
  | (k, v) :: d' =>
    if String.eqb id k then (k, (v + x)%float) :: d' else (k, v) :: add_score id x d'
  end.

(** [float(n)] for a Python [int] below 2^63, rounded to nearest even. *)
Definition float_of_nat (n : nat) : float :=
  of_uint63 (Uint63.of_Z (Z.of_nat n)).

(** [weight * (1 / (RANK_CONSTANT + rank))] in binary64.  The quotient of
    the two [int]s is the correctly rounded one; so is the binary64 quotient
    of their conversions as long as the conversions are exact, which they
    are below 2^53, a length no Python list reaches. *)
Definition rrf_term (weight : float) (rank : nat) : float :=
  (weight * (1 / float_of_nat (RANK_CONSTANT + rank)))%float.

(** [for i, doc in enumerate(docs): rank = i + 1; ranked_results[...] += ...],
    with the enumeration standing at [i]. *)
Fixpoint fuse_pass (weight : float) (i : nat) (docs : list Document)
  (ranked : list (string * float)) : list (string * float) :=
  match docs with
  | [] => ranked
  | doc :: rest =>
    fuse_pass weight (S i) rest (add_score (doc_id doc) (rrf_term weight (i + 1)) ranked)
  end.

Definition ranked_results (text vector : list Document) : list (string * float) :=
  fuse_pass VECTOR_WEIGHT 0 vector (fuse_pass TEXT_WEIGHT 0 text []).

(** [ranked_results[id]] *)
Definition score_of (ranked : list (string * float)) (id : string) : float :=
  match dict_get id ranked with Some x => x | None => 0%float end.

(** [sorted(ids, key=score, reverse=True)]: descending by the binary64
    comparison, ids of equal score in the order of the input. *)
Fixpoint insert_desc (score : string -> float) (x : string) (l : list string)
  : list string :=
  match l with
  | [] => [x]
  | y :: l' =>
    if (score y <=? score x)%float then x :: l else y :: insert_desc score x l'
  end.

Definition sort_desc (score : string -> float) (l : list string) : list string :=
  fold_right (insert_desc score) [] l.

(** [ids.index(id)] *)
Fixpoint index_of (id : string) (ids : list string) : option nat :=
  match ids with
  | [] => None
  | k :: ids' =>
    if String.eqb id k then Some 0
    else match index_of id ids' with Some i => Some (S i) | None => None end
  end.

Definition index_or_zero (ids : list string) (id : string) : nat :=
  match index_of id ids with Some i => i | None => 0 end.

(** [meta] of a document, as the final list carries it. *)
Definition item_of_doc (doc : Document) : PropertyItem :=
  mkItem (doc_id doc) None (doc_aptNm doc) (doc_nearest_station doc)
         (doc_distance_to_station doc).

(** [{"rank": i + 1, **meta}] for [i, meta in enumerate(...)], from [i]. *)
Fixpoint with_rank (i : nat) (items : list PropertyItem) : list PropertyItem :=
  match items with
  | [] => []
  | it :: rest =>
    mkItem (item_id it) (Some (i + 1)) (item_aptNm it) (item_nearest_station it)
           (item_distance_to_station it)
    :: with_rank (S i) rest
  end.

(** [float(z)] for a Python [int] of absolute value below 2^63. *)
Definition float_of_Z (z : Z) : float :=
  if (z <? 0)%Z then (- of_uint63 (Uint63.of_Z (- z)))%float
  else of_uint63 (Uint63.of_Z z).

(** The final exact filter on station and distance:
    [meta.get("nearest_station") == params["station_name"] and
     meta.get("distance_to_station", float('inf')) <= params["max_dist"]].
    The stored distance is a float and a missing one counts as infinite.
    Python compares the float with the [int] exactly; for an [int] of at
    most 53 bits, as a distance in metres is, that is the binary64
    comparison with its conversion. *)
Definition near_station (params : SearchParams) (it : PropertyItem) : bool :=
  opt_ustring_eqb (item_nearest_station it) (p_station_name params)
  && match item_distance_to_station it with
     | Some d => (d <=? float_of_Z (p_max_dist params))%float
     | None => false
     end.

Definition decimal (n : nat) : ustring := u (NilEmpty.string_of_uint (Nat.to_uint n)).

Definition no_match : ResultSet :=
  mkResultSet [] None (Some (u "조건에 맞는 매물을 찾지 못했습니다.")) false.

(** [hybrid_search(query, top_k)], with [params] what its call of
    [parse_query] returns.  [None]: an exception leaves the function (the
    [find] raises, or returns a document that was not asked for). *)
Definition hybrid_search (params : SearchParams) (embed : nat -> option (list float))
  (store : Store) (top_k : nat) : option ResultSet :=
  let ranked :=
    ranked_results (text_results store params) (vector_results store embed params) in
  match ranked with
  | [] => Some no_match
  | _ :: _ =>
    let sorted_ids := sort_desc (score_of ranked) (dict_keys ranked) in
    let top_k_ids := firstn top_k sorted_ids in
    match find_by_ids store top_k_ids with
    | None => None
    | Some final_results =>
      if forallb (fun doc => match index_of (doc_id doc) top_k_ids with
                             | Some _ => true | None => false end) final_results
      then
        let final_results :=
          sort_by (fun doc => index_or_zero top_k_ids (doc_id doc)) final_results in
        let with_meta := List.map item_of_doc final_results in
        let with_meta :=
          if p_require_subway params && truthy (p_station_name params)
          then List.filter (near_station params) with_meta
          else with_meta in
        match with_meta with
        | [] => Some no_match
        | _ :: _ =>
          Some (mkResultSet (with_rank 0 with_meta) None
                  (Some (u "총 " ++ decimal (length with_meta)
                         ++ u "개의 매물을 찾았습니다."))
                  false)
        end
      else None
    end
  end.

Definition has_location (params : SearchParams) : bool :=
  truthy (p_gu params) || truthy (p_dong params) || truthy (p_station_name params).

Definition location_needed : ResultSet :=
  mkResultSet [] None
    (Some (u "어느 지역의 매물을 찾으시나요? 예를 들어 '서초구', '방배동', '강남역 근처' 등으로 말씀해 주세요."))
    true.

(** [search_properties(query, top_k)]: [params] is what its own call of
    [parse_query] returns, [engine_params] what the call made inside
    [hybrid_search] returns. *)
Definition search_properties (params engine_params : SearchParams)
  (embed : nat -> option (list float)) (store : Store) (top_k : nat)
  : option ResultSet :=
  if has_location params
  then hybrid_search engine_params embed store top_k
  else Some location_needed.

End Retrieval.
Export Retrieval.

(* ===================================================================== *)
(** * Result aggregation ([_combine_results])                            *)
(* ===================================================================== *)

Module Aggregator.

(** [task_order] *)
Definition task_order (ty : TaskType) : nat :=
  match ty with
  | SEARCH => 1
  | SIMILARITY_SEARCH => 2
  | RECOMMENDATION => 3
  | COMPARISON => 4
  | ANALYSIS => 5
  | WISHLIST => 6
  | CHAT => 7
  end.

(** [result_type]: ["chat"] or ["search_result"]. *)
Inductive ResultType := TypeChat | TypeSearchResult.

(** The variables of the loop over the sorted tasks. *)
Record Combined := mkCombined {
  combined_response : list ustring;
  final_search_results : option ResultSet;        (* [{}] is [None] *)
  result_type : ResultType;
  search_results_set : bool
}.

(** [d.get("results")] of a dict that may be missing ([{}]). *)
Definition records (d : option ResultSet) : list PropertyItem :=
  match d with Some s => results s | None => [] end.

(** Truth value of [task.result]: a dict with at least one key. *)
Definition result_dict (r : option TaskResult) : option TaskResult :=
  match r with
  | Some r =>
    match r_response r, r_search_results r, r_recommendation_response r,
          r_recommendation_data r, r_comparison_response r, r_comparison_data r,
          r_compared_properties r, r_analysis_response r, r_analyzed_data r,
          r_wishlist_data r, r_error r with
    | None, None, None, None, None, None, None, None, None, None, None => None
    | _, _, _, _, _, _, _, _, _, _, _ => Some r
    end
  | None => None
  end.

Definition nl2 : ustring := [10; 10]%N.

Definition append_section (acc : Combined) (s : ustring) : Combined :=
  mkCombined (combined_response acc ++ [s]) (final_search_results acc)
             (result_type acc) (search_results_set acc).

Definition mark_search_result (acc : Combined) : Combined :=
  mkCombined (combined_response acc) (final_search_results acc)
             TypeSearchResult (search_results_set acc).

(** [if not search_results_set and d.get("results"): final_search_results = d;
    search_results_set = True] *)
Definition set_payload (acc : Combined) (d : option ResultSet) : Combined :=
  if negb (search_results_set acc) && nonempty (records d)
  then mkCombined (combined_response acc) d (result_type acc) true
  else acc.

(** The same with [result_type = "search_result"] in the guarded block. *)
Definition set_payload_and_type (acc : Combined) (d : option ResultSet) : Combined :=
  if negb (search_results_set acc) && nonempty (records d)
  then mkCombined (combined_response acc) d TypeSearchResult true
  else acc.

(** The two search branches, which differ in their texts only. *)
Definition combine_search (title done_text none_text : ustring) (acc : Combined)
  (r : TaskResult) : Combined :=
  let search_results := r_search_results r in
  let response := text_of (r_response r) in
  let acc := set_payload acc search_results in
  if nonempty (records search_results) || nonempty response then
    append_section (mark_search_result acc)
      (if nonempty response then title ++ nl2 ++ response
       else title ++ nl2 ++ done_text)
  else append_section acc (title ++ nl2 ++ none_text).

Definition type_value (ty : TaskType) : ustring :=
  match ty with
  | SEARCH => u "search"
  | SIMILARITY_SEARCH => u "similarity_search"
  | ANALYSIS => u "analysis"
  | RECOMMENDATION => u "recommendation"
  | COMPARISON => u "comparison"
  | WISHLIST => u "wishlist"
  | CHAT => u "chat"
  end.

(** The body of [for task in completed_tasks]. *)
Definition combine_task (acc : Combined) (task : AgentTask) : Combined :=
  match status_eqb (status task) Completed, result_dict (result task) with
  | true, Some r =>
    match task_type task with
    | SEARCH =>
      combine_search (u "🔍 **매물 검색 결과**") (u "검색이 완료되었습니다.")
                     (u "검색 결과가 없습니다.") acc r
    | SIMILARITY_SEARCH =>
      combine_search (u "🔍 **유사 매물 검색 결과**") (u "유사 매물 검색이 완료되었습니다.")
                     (u "유사한 매물을 찾을 수 없습니다.") acc r
    | RECOMMENDATION =>
      append_section (set_payload_and_type acc (r_recommendation_data r))
        (u "💡 **매물 추천 결과**" ++ nl2 ++ text_of (r_recommendation_response r))
    | COMPARISON =>
      append_section (set_payload_and_type acc (r_comparison_data r))
        (u "⚖️ **매물 비교 결과**" ++ nl2 ++ text_of (r_comparison_response r))
    | ANALYSIS =>
      append_section (set_payload_and_type acc (r_analyzed_data r))
        (u "📊 **매물 분석 결과**" ++ nl2 ++ text_of (r_analysis_response r))
    | WISHLIST =>
      let acc :=
        if nonempty (records (r_wishlist_data r))
        then set_payload_and_type acc (r_wishlist_data r)
        else set_payload_and_type acc (r_search_results r) in
      append_section acc (u "❤️ **찜 목록**" ++ nl2 ++ text_of (r_response r))
    | CHAT => append_section acc (text_of (r_response r))
    end
  | _, _ =>
    if status_eqb (status task) Failed then
      append_section acc
        (u "⚠️ " ++ type_value (task_type task) ++ u " 작업 중 오류가 발생했습니다: "
           ++ opt_text (error task))
    else acc
  end.

(** What [_combine_results] returns (without [agents_used], whose order is
    that of a Python [set], and the constant [langchain_enabled]). *)
Record Response := mkResponse {
  reply : ustring;
  out_search_results : option ResultSet;    (* "search_results" *)
  out_results : list PropertyItem;          (* "results" *)
  out_type : ResultType;                    (* "type" *)
  tasks_completed : nat
}.

Definition initial : Combined := mkCombined [] None TypeChat false.

(** The state of the loop after all tasks, in precedence order. *)
Definition combine_all (completed_tasks : list AgentTask) : Combined :=
  fold_left combine_task (sort_by (fun t => task_order (task_type t)) completed_tasks)
            initial.

(** [_combine_results(completed_tasks, user_query)].  [normalize] is the
    per-record normalisation of the final block followed by
    [add_rent_type_info]; both map the records one by one, in order. *)
Definition combine_results (normalize : PropertyItem -> PropertyItem)
  (completed_tasks : list AgentTask) : Response :=
  let acc := combine_all completed_tasks in
  let final_response :=
    join nl2 (List.filter nonempty (combined_response acc)) in
  let final_response :=
    match final_response with
    | [] => u "요청을 처리하지 못했습니다."
    | _ :: _ => final_response
    end in
  mkResponse final_response (final_search_results acc)
             (List.map normalize (records (final_search_results acc)))
             (result_type acc) (length completed_tasks).

(** The data dict [_combine_results] reads from a completed task for the
    payload: the value under the key it looks up for the task's type. *)
Definition offered_records (task : AgentTask) : option ResultSet :=
  match status_eqb (status task) Completed, result_dict (result task) with
  | true, Some r =>
    match task_type task with
    | SEARCH | SIMILARITY_SEARCH => r_search_results r
    | RECOMMENDATION => r_recommendation_data r
    | COMPARISON => r_comparison_data r
    | ANALYSIS => r_analyzed_data r
    | WISHLIST =>
      if nonempty (records (r_wishlist_data r)) then r_wishlist_data r
      else r_search_results r
    | CHAT => None
    end
  | _, _ => None
  end.

(** A completed search task whose result carries a response text. *)
Definition search_with_text (task : AgentTask) : bool :=
  match status_eqb (status task) Completed, result_dict (result task) with
  | true, Some r =>
    match task_type task with
    | SEARCH | SIMILARITY_SEARCH => nonempty (text_of (r_response r))
    | _ => false
    end
  | _, _ => false
  end.

(** The data dict of the first task of [tasks] that offers a non-empty
    record list. *)
Definition first_producer (tasks : list AgentTask) : option ResultSet :=
  first_some (fun t => if nonempty (records (offered_records t))
                       then offered_records t else None) tasks.

Definition is_search_result (ty : ResultType) : bool :=
  match ty with TypeSearchResult => true | TypeChat => false end.

End Aggregator.
Export Aggregator.

(* ===================================================================== *)
(** * The providers ([_execute_task_internal])                           *)
(* ===================================================================== *)

Module Providers.

(** [item.get("rank", "")] as [str.format] prints it. *)
Definition rank_text (it : PropertyItem) : ustring :=
  match item_rank it with Some n => decimal n | None => [] end.

(** [SearchAgent.format_response] on the dict [search_properties] returns. *)
Definition format_response (search_results : ResultSet) : ustring :=
  match results search_results with
  | [] => u "조건에 맞는 매물이 없습니다."
  | it :: items =>
    join [10%N] (List.map (fun it => rank_text it ++ u ". " ++ item_aptNm it)
                          (it :: items))
    ++ nl2 ++ u "총 " ++ decimal (length (it :: items)) ++ u "개의 매물을 찾았습니다."
  end.

(** The SEARCH branch for the default [search_type]: [search] is what
    [search_properties(query)] returns, or the text of the exception it
    raises.  The result dict, and the history file after
    [save_search_history_tool] ([not_written] as for [save]). *)
Definition execute_search (search : ResultSet + ustring) (not_written : bool)
  (query : ustring) (file : TempFile) : TaskResult * TempFile :=
  let search_results :=
    match search with
    | inl rs => rs
    | inr _ => mkResultSet [] (Some 0) None false
    end in
  let response :=
    match search with
    | inl rs => format_response rs
    | inr e => u "검색 중 오류가 발생했습니다: " ++ e
    end in
  (mkResult (Some response) (Some search_results) None None None None None None
            None None None,
   save not_written query (results search_results) file).

(** What [get_wishlist] returns: ["result"] is ["success"] or ["fail"],
    ["data"] the listings; the dict has no ["results"] key. *)
Record WishReply := mkWish {
  w_success : bool;
  w_message : option ustring;
  w_data : list PropertyItem
}.

(** The calls that leave the orchestrator.  An agent call gives its text,
    or the text of the exception it raises. *)
Record Agents := mkAgents {
  recommend : list PropertyItem -> ustring -> ustring + ustring;
  compare : list PropertyItem -> ustring -> ustring + ustring;
  analyze : list PropertyItem -> ustring -> ustring + ustring;
  (* [ChatAgent.chat_response], which catches what its calls raise *)
  chat_response : ustring -> list (ustring * ustring) -> ustring;
  (* [next(get_db())]: [Some e] when it raises *)
  get_db : option ustring;
  get_wishlist : DataValue -> WishReply + ustring;
  (* [str(e)] for the [ValueError] of [int] *)
  value_error_text : ustring
}.

(** [task.data.get("query", "")]; the parser stores a string there. *)
Definition query_of (task : AgentTask) : ustring :=
  match dict_get "query" (data task) with
  | Some (DStr s) => s
  | _ => []
  end.

(** [task.data.get("source", default) == name] *)
Definition source_is (default name : ustring) (task : AgentTask) : bool :=
  match dict_get "source" (data task) with
  | Some (DStr s) => ustring_eqb s name
  | Some _ => false
  | None => ustring_eqb default name
  end.

(** Truth value of [task.data.get("user_id")]. *)
Definition user_id_of (task : AgentTask) : option DataValue :=
  match dict_get "user_id" (data task) with
  | Some (DInt 0) | Some DNone | Some (DStr []) | Some (DItems []) | None => None
  | Some v => Some v
  end.

(** [task.data.get("properties")] when it is a list. *)
Definition properties_of (task : AgentTask) : list PropertyItem :=
  match dict_get "properties" (data task) with
  | Some (DItems l) => l
  | _ => []
  end.

(** [search_history[-1]["result"]["results"]], [[]] for an empty history. *)
Definition last_results (search_history : list HistoryEntry) : list PropertyItem :=
  match rev search_history with
  | last_result :: _ => h_results last_result
  | [] => []
  end.

(** [{"results": l, "total_count": len(l)}] *)
Definition data_dict (l : list PropertyItem) : ResultSet :=
  mkResultSet l (Some (length l)) None false.

(** The wish-list dict where a data dict is expected: it has no
    ["results"]. *)
Definition wish_dict (w : WishReply) : ResultSet :=
  mkResultSet [] None (w_message w) false.

(** What the wish list contributes to a branch: [inl e] when an exception
    reaches the outer handler, else the dict [get_wishlist] returned, if it
    was called and returned. *)
Definition from_wishlist (agents : Agents) (task : AgentTask)
  : ustring + option WishReply :=
  match user_id_of task with
  | None => inr None
  | Some user_id =>
    match get_db agents with
    | Some e => inl e
    | None =>
      match get_wishlist agents user_id with
      | inl w => inr (Some w)
      | inr _ => inr None
      end
    end
  end.

Definition recommendation_result (response : ustring) (l : list PropertyItem)
  : TaskResult :=
  mkResult None None (Some response) (Some (data_dict l)) None None None None None
           None None.

(** The RECOMMENDATION branch. *)
Definition execute_recommendation (agents : Agents) (file : TempFile)
  (task : AgentTask) : TaskResult :=
  let query := query_of task in
  let selected : ustring + list PropertyItem :=
    if source_is (u "search") (u "wishlist") task then
      match from_wishlist agents task with
      | inl e => inl e
      | inr _ => inr []
      end
    else if source_is (u "search") (u "existing") task then
      match properties_of task with
      | [] => inr (last_results (load_search_history_from_tempfile file))
      | p :: ps => inr (p :: ps)
      end
    else inr (last_results (load_search_history_from_tempfile file)) in
  match selected with
  | inl e => recommendation_result (u "매물 추천 중 오류가 발생했습니다: " ++ e) []
  | inr properties =>
    let response :=
      match properties with
      | [] => u "추천할 매물이 없습니다. 먼저 매물을 검색해주세요."
      | _ :: _ =>
        match recommend agents properties query with
        | inl text => text
        | inr e => u "매물 추천 중 오류가 발생했습니다: " ++ e
        end
      end in
    recommendation_result response properties
  end.

(** The result of the COMPARISON branch: the records compared go under
    ["compared_properties"]; ["comparison_data"] is not set. *)
Definition comparison_result (response : ustring)
  (properties_to_compare : list PropertyItem) : TaskResult :=
  mkResult None None None None (Some response) None (Some properties_to_compare)
           None None None None.

(** [len(l) >= 2] *)
Definition at_least_two {A : Type} (l : list A) : bool :=
  match l with _ :: _ :: _ => true | _ => false end.

(** The COMPARISON branch. *)
Definition execute_comparison (agents : Agents) (file : TempFile)
  (task : AgentTask) : TaskResult :=
  let query := query_of task in
  let selected : ustring + list PropertyItem :=
    if at_least_two (properties_of task) then inr (properties_of task)
    else if source_is (u "search") (u "wishlist") task then
      match from_wishlist agents task with
      | inl e => inl e
      | inr _ => inr []
      end
    else
      let search_history := load_search_history_from_tempfile file in
      match resolve_references query search_history with
      | ValueError => inl (value_error_text agents)
      | Done (Some (r1 :: r2 :: refs)) => inr (r1 :: r2 :: refs)
      | Done _ => inr (last_results search_history)
      end in
  match selected with
  | inl e => comparison_result (u "매물 비교 중 오류가 발생했습니다: " ++ e) []
  | inr properties_to_compare =>
    comparison_result
      (if at_least_two properties_to_compare then
         match compare agents properties_to_compare query with
         | inl text => text
         | inr e => u "매물 비교 중 오류가 발생했습니다: " ++ e
         end
       else u "비교할 매물이 2개 이상 필요합니다. 각각의 검색 결과에서 1개 이상 매물이 필요합니다.")
      properties_to_compare
  end.

Definition analysis_result (response : ustring) (d : ResultSet) : TaskResult :=
  mkResult None None None None None None None (Some response) (Some d) None None.

(** The ANALYSIS branch. *)
Definition execute_analysis (agents : Agents) (file : TempFile)
  (task : AgentTask) : TaskResult :=
  let query := query_of task in
  let selected : ustring + ResultSet :=
    match properties_of task with
    | p :: ps => inr (data_dict (p :: ps))
    | [] =>
      if source_is (u "search") (u "wishlist") task then
        match from_wishlist agents task with
        | inl e => inl e
        | inr (Some w) => inr (wish_dict w)
        | inr None => inr (data_dict [])
        end
      else
        let search_history := load_search_history_from_tempfile file in
        if source_is (u "search") (u "existing") task then
          match resolve_references query search_history with
          | ValueError => inl (value_error_text agents)
          | Done (Some (r :: refs)) => inr (data_dict (r :: refs))
          | Done _ => inr (data_dict (last_results search_history))
          end
        else inr (data_dict (last_results search_history))
    end in
  match selected with
  | inl e =>
    analysis_result (u "매물 분석 중 오류가 발생했습니다: " ++ e) (data_dict [])
  | inr analysis_data =>
    let response :=
      match results analysis_data with
      | [] => u "분석할 매물이 없습니다. 먼저 매물을 검색하거나 찜 목록을 불러와주세요."
      | p :: ps =>
        match analyze agents (p :: ps) query with
        | inl text => text
        | inr e => u "매물 분석 중 오류가 발생했습니다: " ++ e
        end
      end in
    analysis_result response analysis_data
  end.

(** The CHAT branch: the result and [self.session_history] afterwards.  The
    history holds the [{"role", "content"}] pairs this branch appends. *)
Definition execute_chat (agents : Agents) (session_history : list (ustring * ustring))
  (task : AgentTask) : TaskResult * list (ustring * ustring) :=
  let query := query_of task in
  let response :=
    match dict_get "response" (data task) with
    | Some (DStr (c :: predefined)) => c :: predefined
    | _ => chat_response agents query session_history
    end in
  (mkResult (Some response) None None None None None None None None None None,
   session_history ++ [(u "user", query); (u "assistant", response)]).

End Providers.
Export Providers.

(* ===================================================================== *)
(** * Prices in Korean units ([utils.py], [wishlist_LAM.py])             *)
(* ===================================================================== *)

Module Prices.

(** The decimal digits of a natural number. *)
Definition digits (n : N) : ustring := u (NilEmpty.string_of_uint (N.to_uint n)).

Definition sign_of (z : Z) : ustring := if (z <? 0)%Z then u "-" else [].

(** [str(z)] for an [int]. *)
Definition str_int (z : Z) : ustring := sign_of z ++ digits (Z.abs_N z).

(** A comma after every third digit, on the digits in reverse. *)
Fixpoint group3 (r : ustring) : ustring :=
  match r with
  | a :: b :: c :: ((_ :: _) as rest) => a :: b :: c :: 44%N :: group3 rest
  | _ => r
  end.

(** [f"{z:,}"] for an [int]. *)
Definition with_commas (z : Z) : ustring :=
  sign_of z ++ rev (group3 (rev (digits (Z.abs_N z)))).

(** [format_korean_price(amount)] of [utils.py]. *)
Definition format_korean_price (amount : Z) : ustring :=
  if (amount =? 0)%Z then u "0원"
  else
    let eok := (amount / 10000)%Z in
    let man := (amount mod 10000)%Z in
    if (0 <? eok)%Z then
      if (0 <? man)%Z then str_int eok ++ u "억 " ++ with_commas man ++ u "만원"
      else str_int eok ++ u "억"
    else with_commas amount ++ u "만원".

(** [format_money(amount)] of [wishlist_LAM.py] on an [int], for which
    [int(amount)] is the amount itself and nothing raises. *)
Definition format_money (amount : Z) : ustring :=
  if (10000 <=? amount)%Z then
    let eok := (amount / 10000)%Z in
    let man := (amount mod 10000)%Z in
    if (man =? 0)%Z then str_int eok ++ u "억"
    else str_int eok ++ u "억 " ++ with_commas man ++ u "만원"
  else with_commas amount ++ u "만원".

End Prices.
Export Prices.

(* ===================================================================== *)
(** * Facts about the stable sort                                        *)
(* ===================================================================== *)

Section SortBy.
Context {A : Type} (key : A -> nat).

Lemma insert_by_perm (x : A) (l : list A) :
  Permutation (x :: l) (insert_by key x l).
Proof.
  induction l as [|y l IH]; simpl; [reflexivity|].
  destruct (key x <=? key y)%nat; [reflexivity|].
  rewrite perm_swap. now constructor.
Qed.

Lemma sort_by_perm (l : list A) : Permutation l (sort_by key l).
Proof.
  induction l as [|x l IH]; simpl; [constructor|].
  etransitivity; [|apply insert_by_perm]. now constructor.
Qed.

Lemma sort_by_In (l : list A) (x : A) : In x (sort_by key l) <-> In x l.
Proof.
  split; apply Permutation_in; [symmetry|]; apply sort_by_perm.
Qed.

Lemma sort_by_length (l : list A) : length (sort_by key l) = length l.
Proof. symmetry. apply Permutation_length, sort_by_perm. Qed.

Definition key_le (a b : A) : Prop := (key a <= key b)%nat.

Lemma insert_by_sorted (x : A) (l : list A) :
  StronglySorted key_le l -> StronglySorted key_le (insert_by key x l).
Proof.
  induction 1 as [|y l Hs IH Hall]; simpl.
  - repeat constructor.
  - destruct (Nat.leb_spec (key x) (key y)) as [Hle|Hlt].
    + constructor; [now constructor|].
      constructor; [exact Hle|].
      rewrite List.Forall_forall in *. intros z Hz.
      specialize (Hall z Hz). unfold key_le in *. lia.
    + constructor; [exact IH|].
      apply List.Forall_forall. intros z Hz.
      apply (Permutation_in _ (Permutation_sym (insert_by_perm x l))) in Hz.
      destruct Hz as [<-|Hz]; [unfold key_le; lia|].
      rewrite List.Forall_forall in Hall. now apply Hall.
Qed.

Lemma sort_by_sorted (l : list A) : StronglySorted key_le (sort_by key l).
Proof.
  induction l as [|x l IH]; simpl; [constructor|].
  now apply insert_by_sorted.
Qed.

End SortBy.

(* ===================================================================== *)
(** * Result aggregation: one step of the loop                           *)
(* ===================================================================== *)

(** Case analysis on everything [combine_task] branches on. *)
Ltac combine_cases acc t :=
  unfold combine_task, offered_records, search_with_text, combine_search,
    set_payload, set_payload_and_type, append_section, mark_search_result;
  destruct (status_eqb (status t) Completed);
  destruct (result_dict (result t)) as [?r|];
  destruct (status_eqb (status t) Failed);
  destruct (task_type t);
  destruct (search_results_set acc) eqn:?;
  repeat match goal with
         | |- context [nonempty (records (?f ?r))] =>
           destruct (nonempty (records (f r))) eqn:?
         | |- context [nonempty (text_of (?f ?r))] =>
           destruct (nonempty (text_of (f r))) eqn:?
         end;
  simpl in *; try reflexivity; try congruence.

Lemma combine_task_set (acc : Combined) (t : AgentTask) :
  search_results_set (combine_task acc t) =
  search_results_set acc || nonempty (records (offered_records t)).
Proof. combine_cases acc t. Qed.

Lemma combine_task_payload (acc : Combined) (t : AgentTask) :
  final_search_results (combine_task acc t) =
  if search_results_set acc then final_search_results acc
  else if nonempty (records (offered_records t)) then offered_records t
       else final_search_results acc.
Proof. combine_cases acc t. Qed.

Lemma combine_task_type (acc : Combined) (t : AgentTask) :
  (search_results_set acc = true -> result_type acc = TypeSearchResult) ->
  is_search_result (result_type (combine_task acc t)) =
  is_search_result (result_type acc)
  || (negb (search_results_set acc) && nonempty (records (offered_records t)))
  || search_with_text t.
Proof.
  intros Hinv.
  combine_cases acc t;
    rewrite ?orb_false_r, ?orb_true_r; try reflexivity;
    try (rewrite (Hinv eq_refl); reflexivity).
Qed.

(** The loop keeps [result_type] at ["search_result"] once a payload is
    set. *)
Lemma combine_task_set_type (acc : Combined) (t : AgentTask) :
  (search_results_set acc = true -> result_type acc = TypeSearchResult) ->
  search_results_set (combine_task acc t) = true ->
  result_type (combine_task acc t) = TypeSearchResult.
Proof.
  intros Hinv.
  combine_cases acc t; intros; auto.
Qed.

(* ===================================================================== *)
(** * Result aggregation: the whole loop                                 *)
(* ===================================================================== *)

Definition produces (t : AgentTask) : bool := nonempty (records (offered_records t)).

Lemma first_producer_cons (t : AgentTask) (l : list AgentTask) :
  first_producer (t :: l) =
  if produces t then offered_records t else first_producer l.
Proof.
  unfold first_producer, produces. simpl.
  destruct (nonempty (records (offered_records t))) eqn:Hne; [|reflexivity].
  destruct (offered_records t); [reflexivity|discriminate].
Qed.

Lemma fold_combine_payload (l : list AgentTask) (acc : Combined) :
  final_search_results (fold_left combine_task l acc) =
  if search_results_set acc then final_search_results acc
  else match first_producer l with
       | Some d => Some d
       | None => final_search_results acc
       end.
Proof.
  revert acc. induction l as [|t l IH]; intros acc; simpl.
  - now destruct (search_results_set acc).
  - rewrite IH, combine_task_set, combine_task_payload, first_producer_cons.
    unfold produces.
    destruct (search_results_set acc); simpl; [reflexivity|].
    destruct (nonempty (records (offered_records t))) eqn:Hne; [|reflexivity].
    destruct (offered_records t); [reflexivity|discriminate].
Qed.

Lemma fold_combine_set (l : list AgentTask) (acc : Combined) :
  search_results_set (fold_left combine_task l acc) =
  search_results_set acc || existsb produces l.
Proof.
  revert acc. induction l as [|t l IH]; intros acc; simpl.
  - now rewrite orb_false_r.
  - rewrite IH, combine_task_set. unfold produces. now rewrite orb_assoc.
Qed.

Lemma fold_combine_type (l : list AgentTask) (acc : Combined) :
  (search_results_set acc = true -> result_type acc = TypeSearchResult) ->
  is_search_result (result_type (fold_left combine_task l acc)) =
  is_search_result (result_type acc)
  || (negb (search_results_set acc) && existsb produces l)
  || existsb search_with_text l.
Proof.
  revert acc. induction l as [|t l IH]; intros acc Hinv; simpl.
  - now rewrite andb_false_r, !orb_false_r.
  - rewrite IH by (now apply combine_task_set_type).
    rewrite combine_task_type by exact Hinv.
    rewrite combine_task_set. unfold produces.
    destruct (is_search_result (result_type acc)),
      (search_results_set acc), (nonempty (records (offered_records t))),
      (search_with_text t), (existsb _ l), (existsb search_with_text l);
      reflexivity.
Qed.

Lemma existsb_perm {A : Type} (f : A -> bool) (l l' : list A) :
  Permutation l l' -> existsb f l = existsb f l'.
Proof.
  induction 1; simpl; try congruence.
  now destruct (f x), (f y).
Qed.

Lemma existsb_In {A : Type} (f : A -> bool) (l : list A) :
  existsb f l = true <-> exists x, In x l /\ f x = true.
Proof. apply existsb_exists. Qed.

(** Stability: the sort keeps tasks of one key in their order. *)
Lemma insert_by_filter {A : Type} (key : A -> nat) (k : nat) (x : A) (l : list A) :
  List.filter (fun y => (key y =? k)%nat) (insert_by key x l) =
  List.filter (fun y => (key y =? k)%nat) (x :: l).
Proof.
  induction l as [|y l IH]; simpl; [reflexivity|].
  destruct (Nat.leb_spec (key x) (key y)) as [Hle|Hlt]; simpl; [reflexivity|].
  rewrite IH. simpl.
  destruct (Nat.eqb_spec (key x) k), (Nat.eqb_spec (key y) k); try reflexivity.
  lia.
Qed.

Lemma sort_by_stable {A : Type} (key : A -> nat) (k : nat) (l : list A) :
  List.filter (fun y => (key y =? k)%nat) (sort_by key l) =
  List.filter (fun y => (key y =? k)%nat) l.
Proof.
  induction l as [|x l IH]; simpl; [reflexivity|].
  rewrite insert_by_filter. simpl. now rewrite IH.
Qed.

Definition precedence (t : AgentTask) : nat := task_order (task_type t).

(** Records A and B of the example, and the two completed tasks. *)
Definition record_A : PropertyItem := mkItem "A" (Some 1) (u "A") None None.
Definition record_B : PropertyItem := mkItem "B" (Some 2) (u "B") None None.
Definition rec_C : PropertyItem := mkItem "C" (Some 3) (u "C") None None.

Definition retrieval_AB : AgentTask :=
  mkTask "search_rec_001" SEARCH (u "매물 검색 수행") [] HIGH [] Completed
    (Some (mkResult (Some (u "1. A")) (Some (mkResultSet [record_A; record_B] None None false))
                    None None None None None None None None None))
    None.

Definition recommendation_A : AgentTask :=
  mkTask "recommendation_002" RECOMMENDATION (u "검색된 매물 추천") [] MEDIUM
    ["search_rec_001"] Completed
    (Some (mkResult None None (Some (u "A")) (Some (mkResultSet [record_A] (Some 1) None false))
                    None None None None None None None))
    None.

(** The history file after a search that returned A, B and C. *)
Definition searched_before : TempFile :=
  Some [Entry (u "서초구 전세") [record_A; record_B; rec_C]].

(** Agents that answer, without a database. *)
Definition plain_agents : Agents :=
  mkAgents (fun _ _ => inl (u "추천 결과")) (fun _ _ => inl (u "비교 결과"))
           (fun _ _ => inl (u "분석 결과")) (fun _ _ => u "안녕하세요")
           (Some (u "no database")) (fun _ => inr (u "no database"))
           (u "Exceeds the limit (4300 digits) for integer string conversion").

(** [_execute_task_internal] for the branches that read the history. *)
Definition history_branches (agents : Agents) (file : TempFile)
  : AgentTask -> Outcome :=
  fun task =>
    match task_type task with
    | RECOMMENDATION => Returns (Some (execute_recommendation agents file task))
    | COMPARISON => Returns (Some (execute_comparison agents file task))
    | ANALYSIS => Returns (Some (execute_analysis agents file task))
    | _ => Returns None
    end.

(** "Compare 1 and 2": what the simple path makes of it after the search,
    and the task once executed. *)
Definition compare_intent : IntentData :=
  mkIntent "COMPARISON" [] true false false (u "기존 매물 비교").

Definition comparison_AB : AgentTask :=
  execute_task (history_branches plain_agents searched_before)
    (nth 0 (parse_user_request searched_before (Some compare_intent) None None
              (u "1번 2번 비교해줘"))
         (new_task "" CHAT [] [] LOW [])).

(** "Compare 1 and 2 and analyse": the language model's answers, and the
    run on an orchestrator without earlier run. *)
Definition compare_and_analyse : ustring := u "1번 2번 비교하고 분석해줘".

Definition compare_and_analyse_intent : IntentData :=
  mkIntent "COMPARISON" ["ANALYSIS"] true true false (u "비교 후 분석").

Definition compare_and_analyse_tasks : list ComplexTask :=
  [mkComplex "COMPARISON" (u "매물 비교") "HIGH" [];
   mkComplex "ANALYSIS" (u "매물 분석") "MEDIUM" []].

Definition compare_and_analyse_run : list AgentTask :=
  let tasks :=
    parse_user_request searched_before (Some compare_and_analyse_intent)
      (Some compare_and_analyse_tasks) None compare_and_analyse in
  match schedule (length tasks) (history_branches plain_agents searched_before)
                 ∅ None tasks with
  | Some st => completed_results st
  | None => []
  end.

(** The records the COMPARISON branch stored in a task's result. *)
Definition compared (task : AgentTask) : list PropertyItem :=
  match result task with
  | Some r => match r_compared_properties r with Some l => l | None => [] end
  | None => []
  end.

(** C7 at the failing input.  A completed Comparison task carries the
    records it compared, [A, B], under ["compared_properties"], while
    [_combine_results] looks for ["comparison_data"], which no branch
    writes.  So the records of a Comparison task never become the payload:
    alone, the task yields no records and the kind ["chat"]; followed in
    precedence order by an Analysis task carrying [A, B, C], it lets the
    later task's list through, and the payload is [A, B, C], not
    [A, B]. *)
Lemma C7_compared_records_are_not_read :
  (task_type comparison_AB, status comparison_AB) = (COMPARISON, Completed)
  /\ compared comparison_AB = [record_A; record_B]
  /\ out_results (combine_results (fun it => it) [comparison_AB]) = []
  /\ out_type (combine_results (fun it => it) [comparison_AB]) = TypeChat
  /\ List.map (fun t => (task_type t, status t)) compare_and_analyse_run
     = [(COMPARISON, Completed); (ANALYSIS, Completed)]
  /\ List.map compared compare_and_analyse_run = [[record_A; record_B]; []]
  /\ List.map (fun t => records (offered_records t)) compare_and_analyse_run
     = [[]; [record_A; record_B; rec_C]]
  /\ out_results (combine_results (fun it => it) compare_and_analyse_run)
     = [record_A; record_B; rec_C].
Proof. vm_compute. repeat split; reflexivity. Qed.

(** X14.  The payload of [_combine_results].  The tasks are sorted by the fixed
    precedence (Search, Similarity-Search, Recommendation, Comparison,
    Analysis, Wishlist, Chat), tasks of one type keeping their order, and
    the payload is the data dict of the first task in that order that is
    completed and holds a non-empty record list under the key
    [_combine_results] reads for its type; later lists neither replace nor
    extend it.  Completed Retrieval [A, B] and Recommendation [A], in
    either input order, give [A, B]. *)
Theorem X14_first_offered_payload_wins :
  (forall (normalize : PropertyItem -> PropertyItem) (tasks : list AgentTask),
     let sorted := sort_by precedence tasks in
     Permutation tasks sorted
     /\ StronglySorted (fun a b => (precedence a <= precedence b)%nat) sorted
     /\ (forall ty, List.filter (fun t => (precedence t =? task_order ty)%nat) sorted
                    = List.filter (fun t => (precedence t =? task_order ty)%nat) tasks)
     /\ out_search_results (combine_results normalize tasks) = first_producer sorted
     /\ out_results (combine_results normalize tasks)
        = List.map normalize (records (first_producer sorted)))
  /\ (forall normalize : PropertyItem -> PropertyItem,
        out_results (combine_results normalize [recommendation_A; retrieval_AB])
        = [normalize record_A; normalize record_B]
        /\ out_results (combine_results normalize [retrieval_AB; recommendation_A])
           = [normalize record_A; normalize record_B]).
Proof.
  split.
  - intros normalize tasks sorted.
    assert (Hpay : final_search_results (combine_all tasks) = first_producer sorted).
    { unfold combine_all. rewrite fold_combine_payload. simpl.
      fold precedence. fold sorted. now destruct (first_producer sorted). }
    split; [apply sort_by_perm|].
    split; [apply (sort_by_sorted precedence)|].
    split; [intros ty; apply sort_by_stable|].
    unfold combine_results; simpl. rewrite Hpay. split; reflexivity.
  - intros normalize. split; reflexivity.
Qed.

(** A search that finds nothing: the task [execute_task] hands to the
    aggregator when [search_properties] returns its no-match dict. *)
Definition search_without_match : AgentTask :=
  execute_task
    (fun _ => Returns (Some (fst (execute_search (inl no_match) false (u "서초구 전세 1억 이하") None))))
    (new_task "search_002" SEARCH (u "매물 검색") [("query", DStr (u "서초구 전세 1억 이하"))]
              HIGH []).

(** C8, as stated, fails: a completed search that found no record sets no
    payload, yet its response text makes the result kind ["search_result"]. *)
Lemma C8_counterexample_search_without_records :
  out_type (combine_results (fun it => it) [search_without_match]) = TypeSearchResult
  /\ search_results_set (combine_all [search_without_match]) = false
  /\ out_search_results (combine_results (fun it => it) [search_without_match]) = None
  /\ out_results (combine_results (fun it => it) [search_without_match]) = [].
Proof. vm_compute. repeat split; reflexivity. Qed.

(** C8, amended.  A payload is set exactly when some task offers a
    non-empty record list, and the result kind is ["search_result"] exactly
    when a payload was set or some completed Search or Similarity-Search
    task carries a response text; in every other case it is ["chat"]. *)
Theorem C8_result_kind (normalize : PropertyItem -> PropertyItem)
  (tasks : list AgentTask) :
  (search_results_set (combine_all tasks) = true
   <-> exists t, In t tasks /\ produces t = true)
  /\ (out_type (combine_results normalize tasks) = TypeSearchResult
      <-> search_results_set (combine_all tasks) = true
          \/ exists t, In t tasks /\ search_with_text t = true)
  /\ (out_type (combine_results normalize tasks) = TypeChat
      <-> search_results_set (combine_all tasks) = false
          /\ forall t, In t tasks -> search_with_text t = false).
Proof.
  pose proof (sort_by_perm precedence tasks) as Hperm.
  assert (Hset : search_results_set (combine_all tasks) = existsb produces tasks).
  { unfold combine_all. rewrite fold_combine_set. simpl.
    symmetry. now apply existsb_perm. }
  assert (Hty : is_search_result (out_type (combine_results normalize tasks))
                = existsb produces tasks || existsb search_with_text tasks).
  { unfold combine_results, combine_all; simpl.
    rewrite fold_combine_type by (simpl; discriminate). simpl.
    fold precedence.
    now rewrite <- (existsb_perm produces _ _ Hperm),
                <- (existsb_perm search_with_text _ _ Hperm). }
  split; [rewrite Hset; apply existsb_In|].
  split.
  - rewrite Hset, <- (existsb_In search_with_text), <- orb_true_iff, <- Hty.
    destruct (out_type _); simpl; split; congruence.
  - rewrite Hset.
    assert (Hall : (forall t, In t tasks -> search_with_text t = false)
                   <-> existsb search_with_text tasks = false).
    { split.
      - intros H. apply not_true_is_false. intros He.
        apply existsb_In in He. destruct He as (t & Hin & Ht).
        rewrite (H t Hin) in Ht. discriminate.
      - intros H t Hin. apply not_true_is_false. intros Ht.
        assert (existsb search_with_text tasks = true)
          by (apply existsb_In; eauto).
        congruence. }
    rewrite Hall, <- orb_false_iff, <- Hty.
    destruct (out_type _); simpl; split; congruence.
Qed.

(* ===================================================================== *)
(** * Dicts kept as association lists                                    *)
(* ===================================================================== *)

Section Dict.
Context {V : Type}.
Implicit Types (d : list (string * V)) (k : string) (v : V).

Lemma dict_set_In d k v k' v' :
  In (k', v') (dict_set k v d) -> (k' = k /\ v' = v) \/ In (k', v') d.
Proof.
  induction d as [|[k0 v0] d IH]; simpl.
  - intros [[= <- <-]|[]]. now left.
  - destruct (String.eqb_spec k k0) as [->|Hne]; simpl.
    + intros [[= <- <-]|H]; [now left|now right; right].
    + intros [H|H]; [now right; left|].
      destruct (IH H) as [?|?]; [now left|now right; right].
Qed.

Lemma dict_set_keys d k v k' :
  In k' (dict_keys (dict_set k v d)) <-> k' = k \/ In k' (dict_keys d).
Proof.
  unfold dict_keys. induction d as [|[k0 v0] d IH]; simpl.
  - intuition.
  - destruct (String.eqb_spec k k0) as [->|Hne]; simpl; [intuition|].
    rewrite IH. intuition.
Qed.

Lemma dict_set_nodup d k v :
  List.NoDup (dict_keys d) -> List.NoDup (dict_keys (dict_set k v d)).
Proof.
  unfold dict_keys. induction d as [|[k0 v0] d IH]; simpl; intros Hnd.
  - constructor; [intros []|constructor].
  - inversion Hnd as [|? ? Hnin Hnd']; subst.
    destruct (String.eqb_spec k k0) as [->|Hne]; simpl.
    + now constructor.
    + constructor; [|now apply IH].
      intros Hin. apply (dict_set_keys d k v k0) in Hin.
      destruct Hin as [->|Hin]; [now apply Hne|now apply Hnin].
Qed.

Lemma dict_set_has_key d k v : In k (dict_keys (dict_set k v d)).
Proof. apply dict_set_keys. now left. Qed.

Lemma dict_pop_In d k k' v' :
  In (k', v') (dict_pop k d) -> In (k', v') d.
Proof.
  induction d as [|[k0 v0] d IH]; simpl; [easy|].
  destruct (String.eqb_spec k k0) as [->|Hne]; simpl; [now right|].
  intros [H|H]; [now left|right; now apply IH].
Qed.

Lemma dict_pop_keys d k k' :
  In k' (dict_keys (dict_pop k d)) -> In k' (dict_keys d).
Proof.
  unfold dict_keys. intros H. apply in_map_iff in H.
  destruct H as ([k0 v0] & <- & Hin). apply dict_pop_In in Hin.
  apply in_map_iff. now exists (k0, v0).
Qed.

Lemma dict_pop_other d k k' v' :
  In (k', v') d -> k' <> k -> In (k', v') (dict_pop k d).
Proof.
  induction d as [|[k0 v0] d IH]; simpl; [easy|].
  intros [[= -> ->]|Hin] Hne.
  - destruct (String.eqb_spec k k') as [->|_]; [now elim Hne|now left].
  - destruct (String.eqb_spec k k0) as [->|_]; [exact Hin|right; now apply IH].
Qed.

Lemma dict_pop_gone d k :
  List.NoDup (dict_keys d) -> ~ In k (dict_keys (dict_pop k d)).
Proof.
  unfold dict_keys. induction d as [|[k0 v0] d IH]; simpl; intros Hnd; [easy|].
  inversion Hnd as [|? ? Hnin Hnd']; subst.
  destruct (String.eqb_spec k k0) as [->|Hne]; simpl; [exact Hnin|].
  intros [->|Hin]; [now apply Hne|now apply IH].
Qed.

Lemma dict_pop_nodup d k :
  List.NoDup (dict_keys d) -> List.NoDup (dict_keys (dict_pop k d)).
Proof.
  unfold dict_keys. induction d as [|[k0 v0] d IH]; simpl; intros Hnd; [constructor|].
  inversion Hnd as [|? ? Hnin Hnd']; subst.
  destruct (String.eqb_spec k k0) as [->|Hne]; simpl; [exact Hnd'|].
  constructor; [|now apply IH].
  intros Hin. apply Hnin. now apply (dict_pop_keys d k).
Qed.



Lemma dict_get_In d k v :
  dict_get k d = Some v -> In (k, v) d.
Proof.
  induction d as [|[k0 v0] d IH]; simpl; [discriminate|].
  destruct (String.eqb_spec k k0) as [->|Hne].
  - intros [= ->]. now left.
  - intros H. right. now apply IH.
Qed.

Lemma dict_get_None d k :
  dict_get k d = None <-> ~ In k (dict_keys d).
Proof.
  unfold dict_keys. induction d as [|[k0 v0] d IH]; simpl; [intuition|].
  destruct (String.eqb_spec k k0) as [->|Hne].
  - split; [discriminate|]. intros H. elim H. now left.
  - rewrite IH. intuition.
Qed.

Lemma dict_values_In d v :
  In v (dict_values d) <-> exists k, In (k, v) d.
Proof.
  unfold dict_values. rewrite in_map_iff. split.
  - intros ([k v0] & <- & Hin). now exists k.
  - intros (k & Hin). now exists (k, v).
Qed.

Lemma dict_keys_In d k :
  In k (dict_keys d) <-> exists v, In (k, v) d.
Proof.
  unfold dict_keys. rewrite in_map_iff. split.
  - intros ([k0 v] & <- & Hin). now exists v.
  - intros (v & Hin). now exists (k, v).
Qed.

Lemma dict_In_unique d k v v' :
  List.NoDup (dict_keys d) -> In (k, v) d -> In (k, v') d -> v = v'.
Proof.
  unfold dict_keys. induction d as [|[k0 v0] d IH]; simpl; intros Hnd H1 H2; [easy|].
  inversion Hnd as [|? ? Hnin Hnd']; subst.
  destruct H1 as [E1|H1], H2 as [E2|H2].
  - congruence.
  - injection E1 as -> ->. elim Hnin. apply in_map_iff. now exists (k, v').
  - injection E2 as -> ->. elim Hnin. apply in_map_iff. now exists (k, v).
  - now apply IH.
Qed.

End Dict.

(* ===================================================================== *)
(** * The scheduling loop: invariants                                    *)
(* ===================================================================== *)

(** A pending dict is keyed by the ids of its tasks. *)
Definition wf_pending (d : list (string * AgentTask)) : Prop :=
  List.NoDup (dict_keys d) /\ forall k t, In (k, t) d -> task_id t = k.

Lemma pending_of_acc (tasks : list AgentTask) (acc : list (string * AgentTask)) :
  wf_pending acc ->
  let d := fold_left (fun d t => dict_set (task_id t) t d) tasks acc in
  wf_pending d
  /\ (forall k t, In (k, t) d -> In (k, t) acc \/ In t tasks)
  /\ (forall k, In k (dict_keys d) <-> In k (dict_keys acc) \/ In k (List.map task_id tasks))
  /\ (length d <= length acc + length tasks)%nat.
Proof.
  revert acc. induction tasks as [|t tasks IH]; intros acc Hwf; simpl.
  - split; [exact Hwf|]. split; [intros; now left|].
    split; [intros k; simpl; tauto|lia].
  - assert (Hwf' : wf_pending (dict_set (task_id t) t acc)).
    { destruct Hwf as [Hnd Hid]. split; [now apply dict_set_nodup|].
      intros k t' Hin. apply dict_set_In in Hin.
      destruct Hin as [[-> ->]|Hin]; [reflexivity|now apply Hid]. }
    destruct (IH _ Hwf') as (H1 & H2 & H3 & H4).
    split; [exact H1|]. split; [|split].
    + intros k t' Hin. destruct (H2 k t' Hin) as [Hin'|Hin']; [|now right; right].
      apply dict_set_In in Hin'. destruct Hin' as [[-> ->]|Hin']; [right; now left|now left].
    + intros k. rewrite H3, dict_set_keys. intuition.
    + assert (length (dict_set (task_id t) t acc) <= S (length acc))%nat.
      { clear. induction acc as [|[k0 v0] acc IHa]; simpl; [lia|].
        destruct (String.eqb _ k0); simpl; lia. }
      lia.
Qed.

Lemma pending_of_wf (tasks : list AgentTask) : wf_pending (pending_of tasks).
Proof.
  apply (pending_of_acc tasks []). split; [constructor|intros ? ? []].
Qed.


Lemma pending_of_keys (tasks : list AgentTask) k :
  In k (dict_keys (pending_of tasks)) <-> In k (List.map task_id tasks).
Proof.
  destruct (pending_of_acc tasks []) as (_ & _ & H & _);
    [split; [constructor|intros ? ? []]|].
  unfold pending_of. rewrite H. simpl. tauto.
Qed.


Lemma NoDup_snoc {A : Type} (l : list A) (x : A) :
  List.NoDup l -> ~ In x l -> List.NoDup (l ++ [x]).
Proof.
  induction l as [|y l IH]; simpl; intros Hnd Hnin.
  - constructor; [intros []|constructor].
  - inversion Hnd as [|? ? Hy Hnd']; subst.
    constructor; [|apply IH; auto].
    rewrite in_app_iff. intros [H|[->|[]]]; [now apply Hy|apply Hnin; now left].
Qed.

Section Run.
Variable provider : AgentTask -> Outcome.

Lemma execute_task_id t : task_id (execute_task provider t) = task_id t.
Proof. unfold execute_task. now destruct (provider _). Qed.




(** One dispatch: the task is executed and its outcome recorded. *)
Definition dispatch (st : Loop) (t : AgentTask) : Loop :=
  record_result st (execute_task provider t).

(** Dispatching the tasks of a list in turn, each under a guard. *)
Definition dispatch_all (guard : Loop -> AgentTask -> bool)
  (l : list AgentTask) (st : Loop) : Loop :=
  fold_left (fun st t => if guard st t then dispatch st t else st) l st.

Lemma run_parallel_dispatch l st :
  run_parallel provider l st = dispatch_all (fun _ _ => true) l st.
Proof.
  unfold run_parallel, dispatch_all. revert st.
  induction l as [|t l IH]; intros st; simpl; [reflexivity|apply IH].
Qed.

Lemma run_sequential_dispatch l st :
  run_sequential provider l st =
  dispatch_all (fun st t => check_dependencies (completed_tasks st) t) l st.
Proof. reflexivity. Qed.

(** What holds of the loop variables during a run that started with the
    pending dict [d0], whatever [self.completed_tasks] held before. *)
Record Inv (d0 : list (string * AgentTask)) (st : Loop) : Prop := mkInv {
  inv_wf : wf_pending (pending_tasks st);
  inv_sub : forall k t, In (k, t) (pending_tasks st) -> In (k, t) d0;
  inv_disjoint : forall t, In t (completed_results st) ->
                           ~ In (task_id t) (dict_keys (pending_tasks st));
  inv_nodup : List.NoDup (List.map task_id (completed_results st));
  inv_recorded : forall t, In t (completed_results st) ->
                           completed_tasks st !! task_id t = Some t;
  inv_cover : forall k t, In (k, t) d0 ->
                          In (k, t) (pending_tasks st)
                          \/ In (execute_task provider t) (completed_results st);
  inv_from : forall r, In r (completed_results st) ->
                       exists t, In (task_id t, t) d0 /\ r = execute_task provider t
}.

Lemma Inv_init d0 completed :
  wf_pending d0 -> Inv d0 (mkLoop completed d0 []).
Proof.
  intros Hwf. constructor; simpl; auto; try easy. constructor.
Qed.

Lemma dispatch_Inv d0 st t :
  Inv d0 st -> In (task_id t, t) (pending_tasks st) -> Inv d0 (dispatch st t).
Proof.
  intros [[Hnd Hid] Hsub Hdis Hnd' Hrec Hcov Hfrom] Hin.
  assert (Hfresh : ~ In (task_id t) (List.map task_id (completed_results st))).
  { intros H. apply in_map_iff in H. destruct H as (r & Hr & Hinr).
    apply (Hdis r Hinr). rewrite Hr. apply dict_keys_In. now exists t. }
  unfold dispatch, record_result.
  constructor; simpl; rewrite ?execute_task_id.
  - split; [now apply dict_pop_nodup|].
    intros k t' H. apply dict_pop_In in H. now apply Hid.
  - intros k t' H. apply dict_pop_In in H. now apply Hsub.
  - intros r Hr Hk. apply in_app_iff in Hr. destruct Hr as [Hr|[<-|[]]].
    + apply (Hdis r Hr). now apply dict_pop_keys in Hk.
    + rewrite execute_task_id in Hk. exact (dict_pop_gone _ _ Hnd Hk).
  - rewrite map_app. simpl. rewrite execute_task_id.
    now apply NoDup_snoc.
  - intros r Hr. apply in_app_iff in Hr. destruct Hr as [Hr|[<-|[]]].
    + rewrite lookup_insert_ne; [now apply Hrec|].
      intros Heq. apply Hfresh. rewrite Heq. now apply in_map.
    + rewrite execute_task_id. apply lookup_insert_eq.
  - intros k t' H0. destruct (Hcov k t' H0) as [Hp|Hr].
    + destruct (String.eqb_spec k (task_id t)) as [->|Hne].
      * right. apply in_app_iff. right. left.
        now rewrite (dict_In_unique _ _ _ _ Hnd Hp Hin).
      * left. now apply dict_pop_other.
    + right. apply in_app_iff. now left.
  - intros r Hr. apply in_app_iff in Hr. destruct Hr as [Hr|[<-|[]]].
    + now apply Hfrom.
    + exists t. split; [now apply Hsub|reflexivity].
Qed.

Lemma dispatch_pending_other st t k t' :
  In (k, t') (pending_tasks st) -> k <> task_id t ->
  In (k, t') (pending_tasks (dispatch st t)).
Proof.
  intros Hin Hne. unfold dispatch, record_result; simpl.
  rewrite execute_task_id. now apply dict_pop_other.
Qed.

Lemma dispatch_all_Inv d0 guard l st :
  Inv d0 st ->
  List.NoDup (List.map task_id l) ->
  (forall t, In t l -> In (task_id t, t) (pending_tasks st)) ->
  Inv d0 (dispatch_all guard l st).
Proof.
  revert st. induction l as [|t l IH]; intros st HI Hnd Hin; simpl; [exact HI|].
  inversion Hnd as [|? ? Hnin Hnd']; subst.
  destruct (guard st t).
  - apply IH; [apply dispatch_Inv; auto; apply Hin; now left|exact Hnd'|].
    intros t' Ht'. apply dispatch_pending_other; [apply Hin; now right|].
    intros Heq. apply Hnin. rewrite <- Heq. now apply in_map.
  - apply IH; auto. intros t' Ht'. apply Hin. now right.
Qed.



End Run.

(* ===================================================================== *)
(** * The scheduling loop: one pass, and termination                     *)
(* ===================================================================== *)

Lemma NoDup_map_inj {A B : Type} (f : A -> B) (l : list A) (x y : A) :
  List.NoDup (List.map f l) -> In x l -> In y l -> f x = f y -> x = y.
Proof.
  induction l as [|a l IH]; simpl; intros Hnd Hx Hy Heq; [easy|].
  inversion Hnd as [|? ? Hnin Hnd']; subst.
  destruct Hx as [->|Hx], Hy as [->|Hy]; auto.
  - elim Hnin. rewrite Heq. now apply in_map.
  - elim Hnin. rewrite <- Heq. now apply in_map.
Qed.

Lemma NoDup_map_filter {A B : Type} (f : A -> B) (p : A -> bool) (l : list A) :
  List.NoDup (List.map f l) -> List.NoDup (List.map f (List.filter p l)).
Proof.
  induction l as [|a l IH]; simpl; intros Hnd; [constructor|].
  inversion Hnd as [|? ? Hnin Hnd']; subst.
  destruct (p a); simpl; [|now apply IH].
  constructor; [|now apply IH].
  intros Hin. apply Hnin. apply in_map_iff in Hin.
  destruct Hin as (x & <- & Hx). apply filter_In in Hx. now apply in_map.
Qed.

Lemma wf_values_ids (d : list (string * AgentTask)) :
  wf_pending d -> List.map task_id (dict_values d) = dict_keys d.
Proof.
  intros [_ Hid]. unfold dict_values, dict_keys. rewrite map_map.
  apply map_ext_in. intros [k t] Hin. simpl. now apply Hid.
Qed.


Section Pass.
Variable provider : AgentTask -> Outcome.

Definition by_priority (t : AgentTask) : nat := priority_value (priority t).

(** The three lists of one pass. *)
Definition ready_sorted (st : Loop) : list AgentTask :=
  sort_by by_priority (ready_tasks st).

Definition parallel_of (st : Loop) : list AgentTask :=
  List.filter (fun t => negb (has_dependencies t)) (ready_sorted st).

Definition sequential_of (st : Loop) : list AgentTask :=
  List.filter has_dependencies (ready_sorted st).

Lemma iteration_unfold st :
  iteration provider st =
  dispatch_all provider
    (fun st t => check_dependencies (completed_tasks st) t) (sequential_of st)
    (dispatch_all provider (fun _ _ => true) (parallel_of st) st).
Proof.
  unfold iteration. now rewrite run_parallel_dispatch, run_sequential_dispatch.
Qed.

Lemma ready_In st t :
  wf_pending (pending_tasks st) ->
  In t (ready_tasks st) ->
  In (task_id t, t) (pending_tasks st)
  /\ check_dependencies (completed_tasks st) t = true.
Proof.
  intros [_ Hid] Hin. unfold ready_tasks in Hin. apply filter_In in Hin.
  destruct Hin as [Hin Hc]. split; [|exact Hc].
  apply dict_values_In in Hin. destruct Hin as (k & Hin).
  now rewrite (Hid _ _ Hin).
Qed.

Lemma ready_sorted_In st t : In t (ready_sorted st) <-> In t (ready_tasks st).
Proof. apply sort_by_In. Qed.

Lemma ready_sorted_nodup st :
  wf_pending (pending_tasks st) ->
  List.NoDup (List.map task_id (ready_sorted st)).
Proof.
  intros Hwf. unfold ready_sorted.
  eapply Permutation_NoDup.
  - apply Permutation_map, sort_by_perm.
  - unfold ready_tasks. apply NoDup_map_filter.
    rewrite wf_values_ids by exact Hwf. apply Hwf.
Qed.


Lemma dispatch_all_pending_other guard l st k t :
  In (k, t) (pending_tasks st) -> ~ In k (List.map task_id l) ->
  In (k, t) (pending_tasks (dispatch_all provider guard l st)).
Proof.
  revert st. induction l as [|a l IH]; intros st Hin Hnin; simpl; [exact Hin|].
  simpl in Hnin. destruct (guard st a).
  - apply IH; [|tauto]. apply dispatch_pending_other; [exact Hin|].
    intros ->. tauto.
  - apply IH; tauto.
Qed.

Lemma sequential_after_parallel st t :
  wf_pending (pending_tasks st) ->
  In t (sequential_of st) ->
  In (task_id t, t)
     (pending_tasks (dispatch_all provider (fun _ _ => true) (parallel_of st) st)).
Proof.
  intros Hwf Hin. unfold sequential_of in Hin. apply filter_In in Hin.
  destruct Hin as [Hin Hdep].
  apply dispatch_all_pending_other.
  - apply ready_In; [exact Hwf|]. now apply ready_sorted_In.
  - intros H. apply in_map_iff in H. destruct H as (p & Hid & Hp).
    unfold parallel_of in Hp. apply filter_In in Hp. destruct Hp as [Hp Hnd].
    assert (p = t).
    { eapply NoDup_map_inj; eauto using ready_sorted_nodup. }
    subst p. rewrite Hdep in Hnd. discriminate.
Qed.

Lemma iteration_Inv d0 st : Inv provider d0 st -> Inv provider d0 (iteration provider st).
Proof.
  intros HI. pose proof (inv_wf _ _ _ HI) as Hwf.
  rewrite iteration_unfold.
  apply dispatch_all_Inv.
  - apply dispatch_all_Inv; [exact HI| |].
    + apply NoDup_map_filter. now apply ready_sorted_nodup.
    + intros t Ht. unfold parallel_of in Ht. apply filter_In in Ht.
      apply ready_In; [exact Hwf|]. now apply ready_sorted_In.
  - apply NoDup_map_filter. now apply ready_sorted_nodup.
  - intros t Ht. now apply sequential_after_parallel.
Qed.



End Pass.

(* ===================================================================== *)
(** * The scheduling loop on an orchestrator with no earlier run         *)
(* ===================================================================== *)


Section FreshRun.
Variable provider : AgentTask -> Outcome.






(** What a finished loop satisfies, for any bound on the passes. *)
Lemma run_loop_sound (J : Loop -> Prop) d0 :
  (forall st, Inv provider d0 st -> J st -> J (iteration provider st)) ->
  forall fuel st st',
    Inv provider d0 st -> J st ->
    run_loop fuel provider st = Some st' ->
    Inv provider d0 st' /\ J st'
    /\ (pending_tasks st' = [] \/ ready_tasks st' = []).
Proof.
  intros HJ. induction fuel as [|fuel IH]; intros st st' HI Hj; simpl.
  - destruct (pending_tasks st) eqn:Hp; [intros [= <-]; auto|].
    destruct (ready_tasks st) eqn:Hr; [intros [= <-]; auto|discriminate].
  - destruct (pending_tasks st) eqn:Hp; [intros [= <-]; auto|].
    destruct (ready_tasks st) eqn:Hr; [intros [= <-]; auto|].
    apply IH; [now apply iteration_Inv|now apply HJ].
Qed.

End FreshRun.

Lemma add_user_id_id u t : task_id (add_user_id u t) = task_id t.
Proof. unfold add_user_id. now destruct (dict_get _ _). Qed.





(** The loop variables at the start of a run. *)
Definition start (completed : gmap string AgentTask) (user_id : option Z)
  (tasks : list AgentTask) : Loop :=
  mkLoop completed (pending_of (List.map (add_user_id user_id) tasks)) [].

Lemma start_Inv provider completed user_id tasks :
  Inv provider (pending_tasks (start completed user_id tasks))
      (start completed user_id tasks).
Proof. apply Inv_init, pending_of_wf. Qed.


(* ===================================================================== *)
(** * The scheduler: what a run leaves behind                            *)
(* ===================================================================== *)

(** Task graphs as [_create_complex_tasks_from_llm] builds them from the
    language model's answer. *)
Definition complex_intent : IntentData :=
  mkIntent "SEARCH" ["RECOMMENDATION"; "COMPARISON"] false true false [].

Definition graph_of (specs : list ComplexTask) : list AgentTask :=
  match create_complex_tasks_from_llm None (Some specs)
          (u "서초구 전세 매물 찾아서 추천하고 비교해줘") complex_intent with
  | Done tasks => tasks
  | ValueError => []
  end.


(** Search, then recommendation on its results. *)
Definition search_then_recommend : list AgentTask :=
  graph_of [mkComplex "SEARCH" (u "매물 검색") "HIGH" [];
            mkComplex "RECOMMENDATION" (u "매물 추천") "MEDIUM" ["SEARCH"]].

(** Search, recommendation on its results, comparison of the recommended;
    the comparison is listed before the recommendation it waits for. *)
Definition chain_graph : list AgentTask :=
  graph_of [mkComplex "SEARCH" (u "매물 검색") "HIGH" [];
            mkComplex "COMPARISON" (u "매물 비교") "MEDIUM" ["RECOMMENDATION"];
            mkComplex "RECOMMENDATION" (u "매물 추천") "MEDIUM" ["SEARCH"]].

Definition all_return : AgentTask -> Outcome := fun _ => Returns None.

Definition raises_in (id : string) : AgentTask -> Outcome :=
  fun t => if String.eqb (task_id t) id then Raises (u "store unavailable")
           else Returns None.

(** Ids with status of the dispatched tasks, in the order of dispatch, and
    id, status and error of the tasks left pending. *)
Definition dispatched (st : Loop) : list (string * Status) :=
  List.map (fun t => (task_id t, status t)) (completed_results st).


(** The loop variables a run ends with (empty if it did not end). *)
Definition final_state (run : option Loop) : Loop :=
  match run with Some st => st | None => mkLoop ∅ [] [] end.





(* ===================================================================== *)
(** * Dependencies across runs, and after a failure                      *)
(* ===================================================================== *)

(** Two requests handled one after the other by the same orchestrator:
    the second run starts from the [completed_tasks] the first one left. *)
Definition two_runs (first second : AgentTask -> Outcome)
  (tasks1 tasks2 : list AgentTask) : option Loop :=
  match schedule (length tasks1) first ∅ None tasks1 with
  | Some st1 =>
    schedule (length tasks2) second (completed_tasks st1) None tasks2
  | None => None
  end.

(** C2 at the failing input.  The first request runs search,
    recommendation and comparison to completion.  In the second request,
    for the same three tasks, the comparison (llm_complex_002, which waits
    for llm_complex_003) is dispatched before the recommendation
    llm_complex_003 of that run, on the strength of the entry the first run
    left in [completed_tasks]; the recommendation then fails. *)
Lemma C2_stale_completed_tasks_satisfy_dependencies :
  List.map (fun t => (task_id t, dependencies t)) chain_graph
  = [("llm_complex_001", []); ("llm_complex_002", ["llm_complex_003"]);
     ("llm_complex_003", ["llm_complex_001"])]
  /\ (exists st, schedule 3 all_return ∅ None chain_graph = Some st
                 /\ dispatched st = [("llm_complex_001", Completed);
                                     ("llm_complex_003", Completed);
                                     ("llm_complex_002", Completed)])
  /\ (exists st, two_runs all_return (raises_in "llm_complex_003")
                          chain_graph chain_graph = Some st
                 /\ dispatched st = [("llm_complex_001", Completed);
                                     ("llm_complex_002", Completed);
                                     ("llm_complex_003", Failed)]).
Proof.
  split; [reflexivity|].
  split; eexists; (split; [vm_compute; reflexivity|reflexivity]).
Qed.




(* ===================================================================== *)
(** * Order of dispatch on an orchestrator with no earlier run           *)
(* ===================================================================== *)


Section DispatchOrder.
Variable provider : AgentTask -> Outcome.






End DispatchOrder.



(* ===================================================================== *)
(** * Reference resolution                                               *)
(* ===================================================================== *)

(** The most recent entry of the history whose location is [loc]. *)
Definition most_recent (history : list HistoryEntry) (loc : ustring)
  : option HistoryEntry :=
  List.find (fun e => opt_ustring_eqb (h_location e) (Some loc)) (rev history).

(** The single most recent entry of the history. *)
Definition latest_entry (history : list HistoryEntry) : option HistoryEntry :=
  nth_error history (length history - 1).

(** The record at the 1-based position [n], if there is one. *)
Definition at_position (props : list PropertyItem) (n : Z) : list PropertyItem :=
  if (1 <=? n)%Z then
    match nth_error props (Z.to_nat (n - 1)) with
    | Some p => [p]
    | None => []
    end
  else [].

(** What the ordinal [num] selects in an entry: the record at that
    position, nothing when there is no entry. *)
Definition selected (entry : option HistoryEntry) (num : ustring)
  : list PropertyItem :=
  match entry with
  | Some e => at_position (h_results e) (decimal_value num)
  | None => []
  end.

(** An ordinal of at most 4300 digits. *)
Definition fits (num : ustring) : bool := (length num <=? 4300)%nat.

(** The ordinals that a location+ordinals group of the utterance binds to
    its location, in textual order. *)
Definition bound_ordinals (q : ustring) : list (ustring * ustring) :=
  flat_map (fun g => List.map (fun num => (fst g, num)) (findall_num_plain (snd g)))
           (findall_loc_nums q).

(** The ordinals of the utterance whose digits are not the digits of an
    ordinal bound by a group. *)
Definition free_ordinals (q : ustring) : list ustring :=
  List.filter (fun num => negb (existsb (fun p => ustring_eqb num (snd p))
                                        (bound_ordinals q)))
              (findall_num q).

(** The ordinal is looked up in the most recent entry of the location: it
    is read as a number only when there is such an entry. *)
Definition readable_in (history : list HistoryEntry) (p : ustring * ustring) : bool :=
  is_none (most_recent history (fst p)) || fits (snd p).

Definition selected_in (history : list HistoryEntry) (p : ustring * ustring)
  : list PropertyItem :=
  selected (most_recent history (fst p)) (snd p).

(** The outcome of a resolution that reads the ordinals for which [ok]
    is computed. *)
Definition resolved (ok : bool) (references : list PropertyItem)
  : Try (option (list PropertyItem)) :=
  if ok then Done (Some references) else ValueError.

Lemma item_at_position (props : list PropertyItem) (n : Z) :
  item_at props (n - 1) = at_position props n.
Proof.
  unfold item_at, at_position.
  destruct (Z.leb_spec 1 n) as [Hle|Hlt].
  - replace (0 <=? n - 1)%Z with true by (symmetry; apply Z.leb_le; lia). simpl.
    destruct (Z.ltb_spec (n - 1) (Z.of_nat (length props))) as [Hin|Hout];
      [reflexivity|].
    rewrite (proj2 (List.nth_error_None props (Z.to_nat (n - 1)))); [reflexivity|lia].
  - replace (0 <=? n - 1)%Z with false by (symmetry; apply Z.leb_gt; lia).
    reflexivity.
Qed.

Lemma int_of_digits_fits (num : ustring) :
  int_of_digits num = if fits num then Done (decimal_value num) else ValueError.
Proof.
  unfold int_of_digits, fits, INT_MAX_STR_DIGITS.
  rewrite Nat.ltb_antisym. now destruct (length num <=? 4300)%nat.
Qed.

Lemma pick_fits (props : list PropertyItem) (num : ustring) :
  pick props num
  = if fits num then Done (at_position props (decimal_value num)) else ValueError.
Proof.
  unfold pick. rewrite int_of_digits_fits.
  destruct (fits num); simpl; [now rewrite item_at_position|reflexivity].
Qed.

Lemma pick_in_location_most_recent (history : list HistoryEntry) (loc num : ustring) :
  pick_in_location (rev history) loc num
  = if readable_in history (loc, num) then Done (selected_in history (loc, num))
    else ValueError.
Proof.
  unfold readable_in, selected_in, most_recent. simpl.
  induction (rev history) as [|e older IH]; simpl; [reflexivity|].
  destruct (opt_ustring_eqb (h_location e) (Some loc)); [apply pick_fits|exact IH].
Qed.

Lemma latest_entry_rev (history : list HistoryEntry) :
  latest_entry history = hd_error (rev history).
Proof.
  unfold latest_entry. destruct history as [|e l] using rev_ind; [reflexivity|].
  rewrite rev_app_distr, length_app. simpl.
  replace (length l + 1 - 1)%nat with (length l) by lia.
  rewrite nth_error_app2 by lia. now rewrite Nat.sub_diag.
Qed.

Lemma pick_latest_fits (history : list HistoryEntry) (num : ustring) :
  pick_latest history num
  = if fits num then Done (selected (latest_entry history) num) else ValueError.
Proof.
  unfold pick_latest. rewrite int_of_digits_fits, latest_entry_rev.
  destruct (fits num); simpl; [|reflexivity].
  destruct (rev history); simpl; [reflexivity|now rewrite item_at_position].
Qed.

(** A loop whose body raises exactly on the elements that fail [ok]. *)
Lemma try_flat_map_checked {A B : Type} (ok : A -> bool) (g : A -> list B)
  (f : A -> Try (list B)) (l : list A) :
  (forall x, f x = if ok x then Done (g x) else ValueError) ->
  try_flat_map f l = if forallb ok l then Done (flat_map g l) else ValueError.
Proof.
  intros Hf. induction l as [|x l IH]; simpl; [reflexivity|].
  rewrite Hf, IH. destruct (ok x); simpl; [|reflexivity].
  now destruct (forallb ok l).
Qed.

(** A loop that passes over the elements satisfying [skip]. *)
Lemma try_flat_map_skip {A B : Type} (skip : A -> bool) (f : A -> Try (list B))
  (l : list A) :
  try_flat_map (fun x => if skip x then Done [] else f x) l
  = try_flat_map f (List.filter (fun x => negb (skip x)) l).
Proof.
  induction l as [|x l IH]; simpl; [reflexivity|].
  rewrite IH. destruct (skip x); simpl; [|reflexivity].
  now destruct (try_flat_map f _).
Qed.

Lemma grouped_selected (history : list HistoryEntry) (pairs : list (ustring * ustring)) :
  try_flat_map (fun p => pick_in_location (rev history) (fst p) (snd p)) pairs
  = if forallb (readable_in history) pairs
    then Done (flat_map (selected_in history) pairs) else ValueError.
Proof.
  apply try_flat_map_checked. intros [loc num]. apply pick_in_location_most_recent.
Qed.

Lemma latest_selected (history : list HistoryEntry) (nums : list ustring) :
  try_flat_map (pick_latest history) nums
  = if forallb fits nums
    then Done (flat_map (selected (latest_entry history)) nums) else ValueError.
Proof. apply try_flat_map_checked. intros num. apply pick_latest_fits. Qed.

(** Without a location token there is no location+ordinal group either. *)
Lemma no_location_no_group (s : ustring) :
  findall_loc s = [] -> findall_loc_nums s = [].
Proof.
  unfold findall_loc, findall_loc_nums.
  induction s as [|c s IH]; simpl; [reflexivity|].
  unfold match_loc, match_loc_nums.
  destruct (loc_candidates (c :: s)) as [|[m rest] cands]; simpl.
  - exact IH.
  - discriminate.
Qed.

Lemma at_position_In (props : list PropertyItem) (n : Z) (r : PropertyItem) :
  In r (at_position props n) -> In r props.
Proof.
  unfold at_position. destruct (1 <=? n)%Z; [|intros []].
  destruct (nth_error props _) eqn:Hn; [|intros []].
  intros [<-|[]]. eapply nth_error_In; eauto.
Qed.

Lemma selected_In (history : list HistoryEntry) (entry : option HistoryEntry)
  (num : ustring) (r : PropertyItem) :
  (forall e, entry = Some e -> In e history) ->
  In r (selected entry num) -> exists e, In e history /\ In r (h_results e).
Proof.
  intros He. unfold selected. destruct entry as [e|]; [|intros []].
  intros Hin. exists e. split; [now apply He|eapply at_position_In; eauto].
Qed.

Lemma most_recent_In (history : list HistoryEntry) (loc : ustring) (e : HistoryEntry) :
  most_recent history loc = Some e -> In e history.
Proof. intros Hf. apply find_some in Hf. apply in_rev. apply Hf. Qed.

Lemma latest_entry_In (history : list HistoryEntry) (e : HistoryEntry) :
  latest_entry history = Some e -> In e history.
Proof. apply nth_error_In. Qed.

(** Whatever a resolution returns was taken from the listed entries. *)
Lemma resolved_from_history (history : list HistoryEntry) (ok : bool)
  (references rs : list PropertyItem) :
  (forall r, In r references -> exists e, In e history /\ In r (h_results e)) ->
  resolved ok references = Done (Some rs) ->
  forall r, In r rs -> exists e, In e history /\ In r (h_results e).
Proof. unfold resolved. destruct ok; [|discriminate]. now intros H [= <-]. Qed.

Lemma selected_in_from_history (history : list HistoryEntry)
  (pairs : list (ustring * ustring)) (r : PropertyItem) :
  In r (flat_map (selected_in history) pairs) ->
  exists e, In e history /\ In r (h_results e).
Proof.
  intros Hin. apply in_flat_map in Hin. destruct Hin as (p & _ & Hin).
  eapply selected_In; [|exact Hin]. apply most_recent_In.
Qed.

Lemma selected_latest_from_history (history : list HistoryEntry)
  (nums : list ustring) (r : PropertyItem) :
  In r (flat_map (selected (latest_entry history)) nums) ->
  exists e, In e history /\ In r (h_results e).
Proof.
  intros Hin. apply in_flat_map in Hin. destruct Hin as (p & _ & Hin).
  eapply selected_In; [|exact Hin]. apply latest_entry_In.
Qed.

(** [resolve_references], branch by branch. *)
Lemma resolve_references_groups (q : ustring) (history : list HistoryEntry) :
  findall_loc_nums q <> [] ->
  resolve_references q history
  = resolved (forallb (readable_in history) (bound_ordinals q)
              && forallb fits (free_ordinals q))
             (flat_map (selected_in history) (bound_ordinals q)
              ++ flat_map (selected (latest_entry history)) (free_ordinals q)).
Proof.
  intros Hg. unfold resolve_references, resolved, free_ordinals, bound_ordinals.
  destruct (findall_loc_nums q) as [|g gs] eqn:Hq; [now elim Hg|].
  fold (group_pairs (g :: gs)). unfold num_used.
  rewrite grouped_selected, try_flat_map_skip, latest_selected.
  destruct (forallb (readable_in history) _); simpl; [|reflexivity].
  now destruct (forallb fits _).
Qed.

Lemma resolve_references_paired (q : ustring) (history : list HistoryEntry) :
  findall_loc_nums q = [] -> findall_loc q <> [] ->
  length (findall_loc q) = length (findall_num q) ->
  resolve_references q history
  = resolved (forallb (readable_in history) (combine (findall_loc q) (findall_num q)))
             (flat_map (selected_in history) (combine (findall_loc q) (findall_num q))).
Proof.
  intros Hg Hloc Hlen. unfold resolve_references, resolved. rewrite Hg.
  destruct (findall_loc q) as [|l ls]; [now elim Hloc|].
  destruct (findall_num q) as [|n ns]; [discriminate|].
  rewrite (proj2 (Nat.eqb_eq _ _) Hlen), grouped_selected.
  now destruct (forallb _ _).
Qed.

Lemma resolve_references_shared (q : ustring) (history : list HistoryEntry)
  (num : ustring) :
  findall_loc_nums q = [] -> findall_num q = [num] ->
  (1 < length (findall_loc q))%nat ->
  resolve_references q history
  = resolved (forallb (fun loc => readable_in history (loc, num)) (findall_loc q))
             (flat_map (fun loc => selected_in history (loc, num)) (findall_loc q)).
Proof.
  intros Hg Hnum Hlen. unfold resolve_references, resolved. rewrite Hg, Hnum.
  destruct (findall_loc q) as [|l ls]; [simpl in Hlen; lia|].
  replace (length (l :: ls) =? length [num])%nat with false
    by (symmetry; apply Nat.eqb_neq; simpl in *; lia).
  replace ((length [num] =? 1)%nat && (1 <? length (l :: ls))%nat) with true
    by (symmetry; apply andb_true_iff; split;
        [reflexivity|apply Nat.ltb_lt; exact Hlen]).
  rewrite (try_flat_map_checked (fun loc => readable_in history (loc, num))
             (fun loc => selected_in history (loc, num)))
    by (intros loc; apply pick_in_location_most_recent).
  now destruct (forallb _ _).
Qed.

Lemma resolve_references_bare (q : ustring) (history : list HistoryEntry) :
  findall_loc q = [] -> findall_num q <> [] ->
  resolve_references q history
  = resolved (forallb fits (findall_num q))
             (flat_map (selected (latest_entry history)) (findall_num q)).
Proof.
  intros Hloc Hnum. unfold resolve_references, resolved.
  rewrite (no_location_no_group q Hloc), Hloc.
  destruct (findall_num q) as [|n ns]; [now elim Hnum|].
  rewrite latest_selected. now destruct (forallb _ _).
Qed.

Lemma resolve_references_nothing (q : ustring) (history : list HistoryEntry) :
  findall_loc_nums q = [] ->
  findall_num q = []
  \/ (findall_loc q <> []
      /\ length (findall_loc q) <> length (findall_num q)
      /\ length (findall_num q) <> 1%nat) ->
  resolve_references q history = Done None.
Proof.
  intros Hg Hcase. unfold resolve_references. rewrite Hg.
  destruct Hcase as [->|(Hloc & Hlen & Hone)]; [now destruct (findall_loc q)|].
  destruct (findall_loc q) as [|l ls]; [now elim Hloc|].
  destruct (findall_num q) as [|n ns]; [reflexivity|].
  rewrite (proj2 (Nat.eqb_neq _ _) Hlen), (proj2 (Nat.eqb_neq _ _) Hone).
  reflexivity.
Qed.

(** The cases are all there are. *)
Lemma resolve_references_cases (q : ustring) (history : list HistoryEntry) :
  exists ok references,
    (forall r, In r references -> exists e, In e history /\ In r (h_results e))
    /\ (resolve_references q history = resolved ok references
        \/ resolve_references q history = Done None).
Proof.
  destruct (findall_loc_nums q) as [|g gs] eqn:Hg.
  - destruct (findall_num q) as [|n ns] eqn:Hn.
    { exists true, []. split; [intros r []|]. right.
      apply resolve_references_nothing; auto. }
    destruct (findall_loc q) as [|l ls] eqn:Hl.
    { exists (forallb fits (findall_num q)),
             (flat_map (selected (latest_entry history)) (findall_num q)).
      split; [apply selected_latest_from_history|]. left.
      apply resolve_references_bare; [exact Hl|rewrite Hn; discriminate]. }
    destruct (Nat.eq_dec (length (findall_loc q)) (length (findall_num q)))
      as [Hlen|Hlen].
    { exists (forallb (readable_in history) (combine (findall_loc q) (findall_num q))),
             (flat_map (selected_in history) (combine (findall_loc q) (findall_num q))).
      split; [apply selected_in_from_history|]. left.
      apply resolve_references_paired; [exact Hg|rewrite Hl; discriminate|exact Hlen]. }
    rewrite Hl, Hn in Hlen.
    destruct ns as [|n' ns].
    + exists (forallb (fun loc => readable_in history (loc, n)) (findall_loc q)),
             (flat_map (fun loc => selected_in history (loc, n)) (findall_loc q)).
      split.
      * intros r Hin. apply in_flat_map in Hin. destruct Hin as (loc & _ & Hin).
        eapply selected_In; [|exact Hin]. apply most_recent_In.
      * left. apply resolve_references_shared; [exact Hg|exact Hn|].
        rewrite Hl. simpl in *. lia.
    + exists true, []. split; [intros r []|]. right.
      apply resolve_references_nothing; [exact Hg|]. right.
      rewrite Hl, Hn. repeat split; [discriminate|exact Hlen|simpl; lia].
  - exists (forallb (readable_in history) (bound_ordinals q)
            && forallb fits (free_ordinals q)),
           (flat_map (selected_in history) (bound_ordinals q)
            ++ flat_map (selected (latest_entry history)) (free_ordinals q)).
    split; [|left; apply resolve_references_groups; rewrite Hg; discriminate].
    intros r Hin. apply in_app_iff in Hin. destruct Hin as [Hin|Hin].
    + eapply selected_in_from_history; eauto.
    + eapply selected_latest_from_history; eauto.
Qed.

(** The histories and records of the example. *)
Definition rec_X : PropertyItem := mkItem "X" (Some 1) (u "X") None None.
Definition rec_Y : PropertyItem := mkItem "Y" (Some 2) (u "Y") None None.

Definition two_locations : list HistoryEntry :=
  [ mkEntry (u "방배동 전세") (Some (u "방배동")) [rec_X; rec_Y];
    mkEntry (u "서초구 전세") (Some (u "서초구")) [record_A; record_B; rec_C] ].

(** An ordinal of 4301 digits. *)
Definition long_ordinal : ustring := repeat 49%N 4301 ++ u "번".

(** C6, as stated, fails.  An ordinal outside any group whose digits are
    those of a grouped ordinal is dropped: "방배동 1번 그리고 1번" resolves
    to [X] alone, the second "1번" selecting nothing from the most recent
    entry 서초구:[A, B, C].  And an ordinal of more than 4300 digits is not
    skipped: [int] raises [ValueError], with or without a history. *)
Lemma C6_counterexample_repeated_and_long_ordinals :
  resolve_references (u "방배동 1번 그리고 1번") two_locations = Done (Some [rec_X])
  /\ findall_num (u "방배동 1번 그리고 1번") = [u "1"; u "1"]
  /\ selected (latest_entry two_locations) (u "1") = [record_A]
  /\ resolve_references long_ordinal two_locations = ValueError
  /\ resolve_references long_ordinal [] = ValueError.
Proof. vm_compute. repeat split; reflexivity. Qed.

(** C6, amended.  [resolve_references] on an utterance [q] and a history
    (empty or not), by the tokens of [q]:
    - with location+ordinals groups, every ordinal of every group selects
      the record at its 1-based position in the most recent entry whose
      location is the group's, in textual order; then every ordinal of [q]
      whose digits are not those of a grouped ordinal selects in the single
      most recent entry (an ordinal with the digits of a grouped one is
      dropped);
    - without group, as many locations as ordinals are paired in order, and
      a single ordinal is applied to each of several locations;
    - without location token, every ordinal selects in the single most
      recent entry;
    - in the remaining cases (no ordinal, or locations and ordinals in
      numbers that differ) nothing is resolved: the result is [None];
    - "서초구 1번 방배동 2번" over 방배동:[X, Y], 서초구:[A, B, C] gives
      [A, Y];
    - an ordinal out of range, or for a location without entry, selects
      nothing, and whatever is returned is a record of an entry of the
      history;
    - [ValueError] is raised exactly when an ordinal that is read as a
      number has more than 4300 digits; an ordinal bound to a location is
      read only when the location has an entry. *)
Theorem C6_reference_resolution_by_cases (q : ustring) (history : list HistoryEntry) :
  (findall_loc_nums q <> [] ->
   resolve_references q history
   = resolved (forallb (readable_in history) (bound_ordinals q)
               && forallb fits (free_ordinals q))
              (flat_map (selected_in history) (bound_ordinals q)
               ++ flat_map (selected (latest_entry history)) (free_ordinals q)))
  /\ (findall_loc_nums q = [] -> findall_loc q <> [] ->
      length (findall_loc q) = length (findall_num q) ->
      resolve_references q history
      = resolved (forallb (readable_in history)
                          (combine (findall_loc q) (findall_num q)))
                 (flat_map (selected_in history)
                           (combine (findall_loc q) (findall_num q))))
  /\ (forall num,
        findall_loc_nums q = [] -> findall_num q = [num] ->
        (1 < length (findall_loc q))%nat ->
        resolve_references q history
        = resolved (forallb (fun loc => readable_in history (loc, num)) (findall_loc q))
                   (flat_map (fun loc => selected_in history (loc, num))
                             (findall_loc q)))
  /\ (findall_loc q = [] -> findall_num q <> [] ->
      resolve_references q history
      = resolved (forallb fits (findall_num q))
                 (flat_map (selected (latest_entry history)) (findall_num q)))
  /\ (findall_loc_nums q = [] ->
      findall_num q = []
      \/ (findall_loc q <> []
          /\ length (findall_loc q) <> length (findall_num q)
          /\ length (findall_num q) <> 1%nat) ->
      resolve_references q history = Done None)
  /\ resolve_references (u "서초구 1번 방배동 2번") two_locations
     = Done (Some [record_A; rec_Y])
  /\ resolve_references (u "서초구 7번 방배동 2번 0번") two_locations
     = Done (Some [rec_Y])
  /\ (forall rs, resolve_references q history = Done (Some rs) ->
                 forall r, In r rs -> exists e, In e history /\ In r (h_results e))
  /\ (forall (props : list PropertyItem) (n : Z),
        (n < 1 \/ Z.of_nat (length props) < n)%Z -> at_position props n = [])
  /\ (forall older latest num,
        selected (latest_entry (older ++ [latest])) num
        = at_position (h_results latest) (decimal_value num)).
Proof.
  split; [apply resolve_references_groups|].
  split; [apply resolve_references_paired|].
  split; [intros num; apply resolve_references_shared|].
  split; [apply resolve_references_bare|].
  split; [apply resolve_references_nothing|].
  split; [vm_compute; reflexivity|].
  split; [vm_compute; reflexivity|].
  split; [|split].
  - intros rs Hrs.
    destruct (resolve_references_cases q history) as (ok & refs & Hfrom & [He|He]);
      rewrite He in Hrs; [|discriminate].
    eapply resolved_from_history; eauto.
  - intros props n Hn. unfold at_position.
    destruct (Z.leb_spec 1 n); [|reflexivity].
    rewrite (proj2 (List.nth_error_None props (Z.to_nat (n - 1)))); [reflexivity|lia].
  - intros older latest num. rewrite latest_entry_rev, rev_app_distr. reflexivity.
Qed.

(** C6 on "1번 3번" (no location token), on "서초구 1번 방배동 2번" (two
    groups), on "방배동 2번 그리고 3번" (a group and an ordinal outside it),
    on two locations sharing one ordinal, on two locations paired with two
    ordinals, and on an utterance without ordinal. *)
Lemma C6_reference_resolution_by_cases_witness :
  resolve_references (u "1번 3번") two_locations = Done (Some [record_A; rec_C])
  /\ resolve_references (u "서초구 1번 방배동 2번") two_locations
     = Done (Some [record_A; rec_Y])
  /\ resolve_references (u "방배동 2번 그리고 3번") two_locations
     = Done (Some [rec_Y; rec_C])
  /\ resolve_references (u "방배동과 서초구의 2번") two_locations
     = Done (Some [rec_Y; record_B])
  /\ resolve_references (u "방배동과 서초구의 1번 2번") two_locations
     = Done (Some [rec_X; record_B])
  /\ resolve_references (u "매물 추천해줘") two_locations = Done None.
Proof.
  split; [|split; [|split; [|split; [|split]]]].
  - destruct (C6_reference_resolution_by_cases (u "1번 3번") two_locations)
      as (_ & _ & _ & H & _).
    rewrite H; [reflexivity|reflexivity|discriminate].
  - destruct (C6_reference_resolution_by_cases (u "서초구 1번 방배동 2번") two_locations)
      as (H & _).
    rewrite H; [reflexivity|discriminate].
  - destruct (C6_reference_resolution_by_cases (u "방배동 2번 그리고 3번") two_locations)
      as (H & _).
    rewrite H; [reflexivity|discriminate].
  - destruct (C6_reference_resolution_by_cases (u "방배동과 서초구의 2번") two_locations)
      as (_ & _ & H & _).
    rewrite (H (u "2")); [reflexivity|reflexivity|reflexivity|simpl; lia].
  - destruct (C6_reference_resolution_by_cases (u "방배동과 서초구의 1번 2번")
                two_locations) as (_ & H & _).
    rewrite H; [reflexivity|reflexivity|discriminate|reflexivity].
  - destruct (C6_reference_resolution_by_cases (u "매물 추천해줘") two_locations)
      as (_ & _ & _ & _ & H & _).
    apply H; [reflexivity|now left].
Defined.

(* ===================================================================== *)
(** * Binary64 values that are non-negative numbers                      *)
(* ===================================================================== *)

(** A binary64 value that is a number (not NaN) with its sign bit clear:
    +0, a positive finite number, or +infinity. *)
Definition SFnonneg (x : spec_float) : Prop :=
  match x with
  | S754_zero false | S754_infinity false | S754_finite false _ _ => True
  | _ => False
  end.

Definition nonneg (x : float) : Prop := SFnonneg (Prim2SF x).

(** A positive finite binary64 value. *)
Definition positive_finite (x : float) : Prop :=
  exists m e, Prim2SF x = S754_finite false m e.

Lemma shr_1_nonneg (mrs : shr_record) :
  (0 <= shr_m mrs)%Z -> (0 <= shr_m (shr_1 mrs))%Z.
Proof.
  destruct mrs as [m r s]. simpl.
  destruct m as [|[p|p|]|p]; simpl; lia.
Qed.

Lemma iter_pos_shr_1_nonneg (p : positive) :
  forall mrs, (0 <= shr_m mrs)%Z ->
              (0 <= shr_m (SpecFloat.iter_pos shr_1 p mrs))%Z.
Proof.
  induction p as [p IH|p IH|]; intros mrs H; simpl.
  - apply IH, IH, shr_1_nonneg, H.
  - apply IH, IH, H.
  - apply shr_1_nonneg, H.
Qed.

Lemma shr_fexp_nonneg (m e : Z) (l : location) :
  (0 <= m)%Z -> (0 <= shr_m (fst (shr_fexp prec emax m e l)))%Z.
Proof.
  intros H. unfold shr_fexp, shr.
  assert (H0 : (0 <= shr_m (shr_record_of_loc m l))%Z)
    by (destruct l as [|[]]; exact H).
  destruct (_ - e)%Z; simpl; [exact H0| |exact H0].
  now apply iter_pos_shr_1_nonneg.
Qed.

Lemma round_nearest_even_nonneg (m : Z) (l : location) :
  (0 <= m)%Z -> (0 <= round_nearest_even m l)%Z.
Proof.
  intros H. unfold round_nearest_even.
  destruct l as [|[]]; try destruct (Z.even m); lia.
Qed.

(** Rounding a non-negative mantissa gives a non-negative number. *)
Lemma binary_round_aux_nonneg (mx ex : Z) (lx : location) :
  (0 <= mx)%Z -> SFnonneg (binary_round_aux prec emax false mx ex lx).
Proof.
  intros H. unfold binary_round_aux.
  pose proof (shr_fexp_nonneg mx ex lx H) as H1.
  destruct (shr_fexp prec emax mx ex lx) as [mrs' e']. simpl in H1.
  pose proof (shr_fexp_nonneg _ e' loc_Exact
                (round_nearest_even_nonneg _ (loc_of_shr_record mrs') H1)) as H2.
  destruct (shr_fexp prec emax _ e' loc_Exact) as [mrs'' e'']. simpl in H2.
  destruct (shr_m mrs'') as [|m|m]; simpl; [exact I| |lia].
  now destruct (Z.leb e'' _).
Qed.

Lemma binary_round_nonneg (m : positive) (e : Z) :
  SFnonneg (binary_round prec emax false m e).
Proof.
  unfold binary_round. destruct (shl_align _ _ _) as [mz ez].
  apply binary_round_aux_nonneg. lia.
Qed.

Lemma binary_normalize_nonneg (m e : Z) :
  (0 <= m)%Z -> SFnonneg (binary_normalize prec emax m e false).
Proof.
  intros H. destruct m as [|m|m]; simpl; [exact I| |lia].
  apply binary_round_nonneg.
Qed.

Lemma SFadd_nonneg (x y : spec_float) :
  SFnonneg x -> SFnonneg y -> SFnonneg (SFadd prec emax x y).
Proof.
  destruct x as [[]|[]| |[] mx ex], y as [[]|[]| |[] my ey]; simpl; try tauto.
  intros _ _. apply binary_round_nonneg.
Qed.

Lemma SFmul_nonneg (x y : spec_float) :
  (exists m e, x = S754_finite false m e) -> SFnonneg y ->
  SFnonneg (SFmul prec emax x y).
Proof.
  intros (m & e & ->). destruct y as [[]|[]| |[] my ey]; simpl; try tauto.
  intros _. apply binary_round_aux_nonneg. lia.
Qed.

Lemma SFdiv_nonneg (x y : spec_float) :
  (exists m e, x = S754_finite false m e) -> SFnonneg y ->
  SFnonneg (SFdiv prec emax x y).
Proof.
  intros (m & e & ->). destruct y as [[]|[]| |[] my ey]; simpl; try tauto.
  intros _. unfold SFdiv_core_binary.
  set (m' := match _ with Z0 => Zpos m | Zpos _ => _ | Zneg _ => Z0 end).
  assert (Hm' : (0 <= m')%Z).
  { unfold m'. destruct (_ - _ - _)%Z; [lia| |lia]. apply Z.shiftl_nonneg. lia. }
  pose proof (Z_div_mod m' (Zpos my) eq_refl) as Hdiv.
  destruct (Z.div_eucl m' (Zpos my)) as [q r].
  apply binary_round_aux_nonneg. nia.
Qed.

Lemma SFadd_zero_l (x : spec_float) :
  SFnonneg x -> SFadd prec emax (S754_zero false) x = x.
Proof. destruct x as [[]|[]| |[] m e]; simpl; tauto. Qed.

Lemma SFadd_zero_r (x : spec_float) :
  SFnonneg x -> SFadd prec emax x (S754_zero false) = x.
Proof. destruct x as [[]|[]| |[] m e]; simpl; tauto. Qed.

(** The order of the non-negative numbers, read off their representation:
    zero, then the finite values by exponent and mantissa, then infinity. *)
Definition SFkey (x : spec_float) : Z * Z * Z :=
  match x with
  | S754_finite _ m e => (1, e, Zpos m)
  | S754_infinity _ => (2, 0, 0)
  | _ => (0, 0, 0)
  end%Z.

Definition key_leq (a b : Z * Z * Z) : Prop :=
  let '(a1, a2, a3) := a in
  let '(b1, b2, b3) := b in
  (a1 < b1 \/ (a1 = b1 /\ (a2 < b2 \/ (a2 = b2 /\ a3 <= b3))))%Z.

Lemma SFleb_key (x y : spec_float) :
  SFnonneg x -> SFnonneg y ->
  (SFleb x y = true <-> key_leq (SFkey x) (SFkey y)).
Proof.
  destruct x as [[]|[]| |[] mx ex], y as [[]|[]| |[] my ey]; simpl; try tauto;
    intros _ _; unfold SFleb; simpl; try (split; [intros _; lia|reflexivity]);
    try (split; [discriminate|lia]).
  destruct (Z.compare_spec ex ey) as [->|Hlt|Hgt].
  - rewrite Pos.compare_cont_spec. simpl.
    destruct (Pos.compare_spec mx my); simpl; split; try discriminate; try reflexivity;
      lia.
  - split; [lia|reflexivity].
  - split; [discriminate|lia].
Qed.

(** On non-negative numbers [<=?] is a total preorder. *)
Lemma leb_total (x y : float) :
  nonneg x -> nonneg y -> (x <=? y)%float = false -> (y <=? x)%float = true.
Proof.
  unfold nonneg. rewrite !FloatAxioms.leb_spec. intros Hx Hy Hn.
  apply (SFleb_key _ _ Hy Hx).
  assert (Hk : ~ key_leq (SFkey (Prim2SF x)) (SFkey (Prim2SF y))).
  { intros Hk. apply (SFleb_key _ _ Hx Hy) in Hk. congruence. }
  destruct (SFkey (Prim2SF x)) as [[a1 a2] a3], (SFkey (Prim2SF y)) as [[b1 b2] b3].
  simpl in *. lia.
Qed.

Lemma leb_trans (x y z : float) :
  nonneg x -> nonneg y -> nonneg z ->
  (x <=? y)%float = true -> (y <=? z)%float = true -> (x <=? z)%float = true.
Proof.
  unfold nonneg. rewrite !FloatAxioms.leb_spec. intros Hx Hy Hz Hxy Hyz.
  apply (SFleb_key _ _ Hx Hy) in Hxy. apply (SFleb_key _ _ Hy Hz) in Hyz.
  apply (SFleb_key _ _ Hx Hz).
  destruct (SFkey (Prim2SF x)) as [[a1 a2] a3], (SFkey (Prim2SF y)) as [[b1 b2] b3],
           (SFkey (Prim2SF z)) as [[c1 c2] c3].
  simpl in *. lia.
Qed.

Lemma leb_refl (x : float) : nonneg x -> (x <=? x)%float = true.
Proof.
  unfold nonneg. rewrite FloatAxioms.leb_spec. intros Hx.
  apply (SFleb_key _ _ Hx Hx).
  destruct (SFkey (Prim2SF x)) as [[a1 a2] a3]. simpl. lia.
Qed.

Lemma add_nonneg (x y : float) : nonneg x -> nonneg y -> nonneg (x + y).
Proof. unfold nonneg. rewrite FloatAxioms.add_spec. apply SFadd_nonneg. Qed.

Lemma add_zero_l (x : float) : nonneg x -> (0 + x)%float = x.
Proof.
  intros H. apply Prim2SF_inj. rewrite FloatAxioms.add_spec. now apply SFadd_zero_l.
Qed.

Lemma add_zero_r (x : float) : nonneg x -> (x + 0)%float = x.
Proof.
  intros H. apply Prim2SF_inj. rewrite FloatAxioms.add_spec. now apply SFadd_zero_r.
Qed.

Lemma div_nonneg (x y : float) : positive_finite x -> nonneg y -> nonneg (x / y).
Proof. unfold nonneg. rewrite FloatAxioms.div_spec. apply SFdiv_nonneg. Qed.

Lemma mul_nonneg (x y : float) : positive_finite x -> nonneg y -> nonneg (x * y).
Proof. unfold nonneg. rewrite FloatAxioms.mul_spec. apply SFmul_nonneg. Qed.

Lemma float_of_nat_nonneg (n : nat) : nonneg (float_of_nat n).
Proof.
  unfold nonneg, float_of_nat. rewrite of_uint63_spec.
  apply binary_normalize_nonneg. apply Uint63.to_Z_bounded.
Qed.

Lemma zero_nonneg : nonneg 0.
Proof. exact I. Qed.

Lemma one_positive : positive_finite 1.
Proof. eexists _, _. vm_compute. reflexivity. Qed.

Lemma TEXT_WEIGHT_positive : positive_finite TEXT_WEIGHT.
Proof. eexists _, _. vm_compute. reflexivity. Qed.

Lemma VECTOR_WEIGHT_positive : positive_finite VECTOR_WEIGHT.
Proof. eexists _, _. vm_compute. reflexivity. Qed.

(** Every term of the fusion is a non-negative number. *)
Lemma rrf_term_nonneg (weight : float) (rank : nat) :
  positive_finite weight -> nonneg (rrf_term weight rank).
Proof.
  intros Hw. unfold rrf_term. apply mul_nonneg; [exact Hw|].
  apply div_nonneg; [exact one_positive|apply float_of_nat_nonneg].
Qed.

(* ===================================================================== *)
(** * Reciprocal rank fusion                                             *)
(* ===================================================================== *)

(** The 1-based rank of a listing in a pass, if it is in it. *)
Definition rank_in (pass : list Document) (id : string) : option nat :=
  match index_of id (List.map doc_id pass) with
  | Some i => Some (i + 1)%nat
  | None => None
  end.

(** What a pass contributes to a listing: [weight * 1/(60 + rank)], or 0
    for a listing that is not in the pass. *)
Definition contribution (weight : float) (pass : list Document) (id : string)
  : float :=
  match rank_in pass id with
  | Some rank => rrf_term weight rank
  | None => 0
  end.

Definition fused_score (text vector : list Document) (id : string) : float :=
  contribution TEXT_WEIGHT text id + contribution VECTOR_WEIGHT vector id.

(** What a pass makes of the score [acc] of [id], the enumeration standing
    at [i]: one addition per occurrence of [id] in the pass. *)
Fixpoint pass_acc (weight : float) (i : nat) (docs : list Document) (id : string)
  (acc : float) : float :=
  match docs with
  | [] => acc
  | doc :: rest =>
    pass_acc weight (S i) rest id
             (if String.eqb (doc_id doc) id then acc + rrf_term weight (i + 1)
              else acc)
  end.

Lemma score_add_score (id id' : string) (x : float) (d : list (string * float)) :
  score_of (add_score id x d) id'
  = if String.eqb id id' then (score_of d id' + x)%float else score_of d id'.
Proof.
  unfold score_of. induction d as [|[k v] d IH]; simpl.
  - rewrite (String.eqb_sym id' id). now destruct (String.eqb id id').
  - destruct (String.eqb_spec id k) as [->|Hne]; simpl.
    + rewrite (String.eqb_sym id' k). now destruct (String.eqb k id').
    + destruct (String.eqb_spec id' k) as [->|Hne'].
      * now destruct (String.eqb_spec id k).
      * exact IH.
Qed.

Lemma keys_add_score (id id' : string) (x : float) (d : list (string * float)) :
  In id' (dict_keys (add_score id x d)) <-> id' = id \/ In id' (dict_keys d).
Proof.
  unfold dict_keys. induction d as [|[k v] d IH]; simpl.
  - intuition.
  - destruct (String.eqb_spec id k) as [->|Hne]; simpl; [intuition|].
    rewrite IH. intuition.
Qed.

Lemma score_fuse_pass (weight : float) (docs : list Document) :
  forall (i : nat) (d : list (string * float)) (id : string),
    score_of (fuse_pass weight i docs d) id
    = pass_acc weight i docs id (score_of d id).
Proof.
  induction docs as [|doc rest IH]; intros i d id; simpl; [reflexivity|].
  now rewrite IH, score_add_score.
Qed.

Lemma keys_fuse_pass (weight : float) (docs : list Document) :
  forall (i : nat) (d : list (string * float)) (id : string),
    In id (dict_keys (fuse_pass weight i docs d))
    <-> In id (dict_keys d) \/ In id (List.map doc_id docs).
Proof.
  induction docs as [|doc rest IH]; intros i d id; simpl.
  - tauto.
  - rewrite IH, keys_add_score. intuition.
Qed.

Lemma pass_acc_absent (weight : float) (docs : list Document) (id : string) :
  forall i acc, ~ In id (List.map doc_id docs) -> pass_acc weight i docs id acc = acc.
Proof.
  induction docs as [|doc rest IH]; intros i acc Hnin; simpl; [reflexivity|].
  simpl in Hnin.
  destruct (String.eqb_spec (doc_id doc) id) as [Heq|_]; [tauto|].
  apply IH. tauto.
Qed.

Lemma pass_acc_nonneg (weight : float) (docs : list Document) (id : string) :
  positive_finite weight ->
  forall i acc, nonneg acc -> nonneg (pass_acc weight i docs id acc).
Proof.
  intros Hw. induction docs as [|doc rest IH]; intros i acc Hacc; simpl;
    [exact Hacc|].
  apply IH. destruct (String.eqb (doc_id doc) id); [|exact Hacc].
  apply add_nonneg; [exact Hacc|now apply rrf_term_nonneg].
Qed.

Lemma index_of_nth (id : string) (ids : list string) (i : nat) :
  index_of id ids = Some i -> nth_error ids i = Some id.
Proof.
  revert i. induction ids as [|k ids IH]; intros i; simpl; [discriminate|].
  destruct (String.eqb_spec id k) as [->|Hne].
  - now intros [= <-].
  - destruct (index_of id ids) as [j|]; [|discriminate].
    intros [= <-]. simpl. now apply IH.
Qed.

Lemma index_of_In (id : string) (ids : list string) :
  In id ids -> exists i, index_of id ids = Some i.
Proof.
  induction ids as [|k ids IH]; simpl; [intros []|].
  destruct (String.eqb_spec id k) as [->|Hne]; [now exists 0%nat|].
  intros [H|H]; [now elim Hne|].
  destruct (IH H) as (i & ->). now exists (S i).
Qed.

Lemma index_of_None (id : string) (ids : list string) :
  index_of id ids = None <-> ~ In id ids.
Proof.
  split.
  - intros Hn Hin. destruct (index_of_In _ _ Hin) as (i & Hi). congruence.
  - intros Hnin. destruct (index_of id ids) as [i|] eqn:Hi; [|reflexivity].
    elim Hnin. apply (nth_error_In _ i). exact (index_of_nth _ _ _ Hi).
Qed.

Lemma pass_acc_nodup (weight : float) (docs : list Document) (id : string) :
  forall i acc, List.NoDup (List.map doc_id docs) ->
    pass_acc weight i docs id acc
    = match index_of id (List.map doc_id docs) with
      | Some j => (acc + rrf_term weight (i + j + 1))%float
      | None => acc
      end.
Proof.
  induction docs as [|doc rest IH]; intros i acc Hnd; simpl; [reflexivity|].
  inversion Hnd as [|? ? Hnin Hnd']; subst.
  rewrite (String.eqb_sym id (doc_id doc)).
  destruct (String.eqb_spec (doc_id doc) id) as [Heq|Hne].
  - rewrite pass_acc_absent by (now rewrite <- Heq).
    now replace (i + 0 + 1)%nat with (i + 1)%nat by lia.
  - rewrite IH by exact Hnd'.
    destruct (index_of id (List.map doc_id rest)) as [j|]; [|reflexivity].
    now replace (S i + j + 1)%nat with (i + S j + 1)%nat by lia.
Qed.

(** The score the code accumulates is the fused score of the formula. *)
Lemma ranked_results_score (text vector : list Document) (id : string) :
  List.NoDup (List.map doc_id text) -> List.NoDup (List.map doc_id vector) ->
  score_of (ranked_results text vector) id = fused_score text vector id.
Proof.
  intros Ht Hv. unfold ranked_results, fused_score, contribution, rank_in.
  rewrite !score_fuse_pass.
  rewrite (pass_acc_nodup VECTOR_WEIGHT vector id 0 _ Hv).
  rewrite (pass_acc_nodup TEXT_WEIGHT text id 0 _ Ht).
  change (score_of [] id) with 0%float.
  pose proof (fun rank => rrf_term_nonneg TEXT_WEIGHT rank TEXT_WEIGHT_positive)
    as Hterm.
  destruct (index_of id (List.map doc_id text)) as [i|],
           (index_of id (List.map doc_id vector)) as [j|].
  - change (0 + i + 1)%nat with (i + 1)%nat.
    change (0 + j + 1)%nat with (j + 1)%nat.
    now rewrite (add_zero_l _ (Hterm (i + 1)%nat)).
  - change (0 + i + 1)%nat with (i + 1)%nat.
    now rewrite (add_zero_l _ (Hterm (i + 1)%nat)), (add_zero_r _ (Hterm (i + 1)%nat)).
  - reflexivity.
  - vm_compute. reflexivity.
Qed.

(** Whatever the passes hold, every accumulated score is a non-negative
    number. *)
Lemma ranked_results_nonneg (text vector : list Document) (id : string) :
  nonneg (score_of (ranked_results text vector) id).
Proof.
  unfold ranked_results. rewrite !score_fuse_pass.
  apply pass_acc_nonneg; [exact VECTOR_WEIGHT_positive|].
  apply pass_acc_nonneg; [exact TEXT_WEIGHT_positive|exact zero_nonneg].
Qed.

Lemma ranked_results_keys (text vector : list Document) (id : string) :
  In id (dict_keys (ranked_results text vector))
  <-> In id (List.map doc_id text) \/ In id (List.map doc_id vector).
Proof.
  unfold ranked_results. rewrite !keys_fuse_pass. simpl. tauto.
Qed.

Lemma ranked_results_nil (text vector : list Document) :
  ranked_results text vector = [] <-> text = [] /\ vector = [].
Proof.
  split.
  - intros H. destruct text as [|d text].
    + destruct vector as [|d vector]; [auto|exfalso].
      assert (Hin : In (doc_id d) (dict_keys (ranked_results [] (d :: vector))))
        by (apply ranked_results_keys; right; now left).
      rewrite H in Hin. destruct Hin.
    + exfalso.
      assert (Hin : In (doc_id d) (dict_keys (ranked_results (d :: text) vector)))
        by (apply ranked_results_keys; left; now left).
      rewrite H in Hin. destruct Hin.
  - intros [-> ->]. reflexivity.
Qed.

(* ===================================================================== *)
(** * The order of the returned listings                                 *)
(* ===================================================================== *)

(** [a] may stand before [b]: the score of [b] is at most that of [a]. *)
Definition score_ge (score : string -> float) (a b : string) : Prop :=
  (score b <=? score a)%float = true.

Section Descending.
Variable score : string -> float.
Hypothesis score_nonneg : forall id, nonneg (score id).

Lemma insert_desc_In (x y : string) (l : list string) :
  In y (insert_desc score x l) <-> y = x \/ In y l.
Proof.
  induction l as [|z l IH]; simpl; [intuition|].
  destruct (score z <=? score x)%float; simpl; [intuition|].
  rewrite IH. intuition.
Qed.

Lemma insert_desc_sorted (x : string) (l : list string) :
  StronglySorted (score_ge score) l ->
  StronglySorted (score_ge score) (insert_desc score x l).
Proof.
  induction 1 as [|y l Hs IH Hall]; simpl.
  - constructor; constructor.
  - destruct (score y <=? score x)%float eqn:Hle.
    + constructor; [now constructor|].
      constructor; [exact Hle|].
      rewrite List.Forall_forall in *. intros z Hz. specialize (Hall z Hz).
      unfold score_ge in *. now apply leb_trans with (score y).
    + constructor; [exact IH|].
      rewrite List.Forall_forall in *. intros z Hz.
      apply insert_desc_In in Hz. destruct Hz as [->|Hz]; [|now apply Hall].
      unfold score_ge. now apply leb_total.
Qed.

Lemma sort_desc_sorted (l : list string) :
  StronglySorted (score_ge score) (sort_desc score l).
Proof.
  induction l as [|x l IH]; simpl; [constructor|now apply insert_desc_sorted].
Qed.

Lemma sort_desc_In (x : string) (l : list string) :
  In x (sort_desc score l) <-> In x l.
Proof.
  induction l as [|y l IH]; simpl; [tauto|].
  rewrite insert_desc_In, IH. intuition.
Qed.

(** The ids fetched for the final list, once sorted by their position in
    [top_k_ids], are in descending order of the score that ordered
    [top_k_ids]. *)
Lemma fetched_descending (top_k_ids : list string) (docs : list Document) :
  StronglySorted (score_ge score) top_k_ids ->
  forallb (fun doc => match index_of (doc_id doc) top_k_ids with
                      | Some _ => true | None => false end) docs = true ->
  StronglySorted (score_ge score)
    (List.map doc_id
       (sort_by (fun doc => index_or_zero top_k_ids (doc_id doc)) docs)).
Proof.
  intros Htop Hall.
  set (key := fun doc => index_or_zero top_k_ids (doc_id doc)).
  assert (Hnth : forall i j a b,
             nth_error top_k_ids i = Some a -> nth_error top_k_ids j = Some b ->
             (i < j)%nat -> score_ge score a b).
  { clear Hall. induction Htop as [|x l Hs IH Hfa]; intros i j a b Hi Hj Hlt.
    - now destruct i.
    - destruct j as [|j]; [lia|]. simpl in Hj.
      destruct i as [|i]; simpl in Hi.
      + injection Hi as <-. rewrite List.Forall_forall in Hfa.
        apply Hfa. eapply nth_error_In; eauto.
      + eapply IH; eauto. lia. }
  assert (Hmap : forall l : list Document,
             StronglySorted (key_le key) l ->
             (forall a, In a l -> In a docs) ->
             StronglySorted (score_ge score) (List.map doc_id l)).
  { intros l Hl. induction Hl as [|a l Hs IH Hfa]; intros Hin; simpl; constructor.
    - apply IH. intros x Hx. apply Hin. now right.
    - rewrite List.Forall_forall in *. intros y Hy. apply in_map_iff in Hy.
      destruct Hy as (b & <- & Hb). pose proof (Hfa b Hb) as Hle.
      rewrite forallb_forall in Hall.
      pose proof (Hall a (Hin a (or_introl eq_refl))) as Hia.
      pose proof (Hall b (Hin b (or_intror Hb))) as Hib.
      unfold key_le, key, index_or_zero in Hle.
      destruct (index_of (doc_id a) top_k_ids) as [i|] eqn:Ei; [|discriminate].
      destruct (index_of (doc_id b) top_k_ids) as [j|] eqn:Ej; [|discriminate].
      apply index_of_nth in Ei, Ej.
      destruct (Nat.eq_dec i j) as [->|Hne].
      + rewrite Ei in Ej. injection Ej as ->. unfold score_ge. apply leb_refl.
        apply score_nonneg.
      + eapply (Hnth i j); eauto. lia. }
  apply Hmap; [apply sort_by_sorted|].
  intros a Ha. now apply sort_by_In in Ha.
Qed.

End Descending.

Lemma StronglySorted_firstn {A : Type} (R : A -> A -> Prop) (n : nat) (l : list A) :
  StronglySorted R l -> StronglySorted R (firstn n l).
Proof.
  revert n. induction l as [|a l IH]; intros n Hs; destruct n; simpl;
    try constructor.
  - apply IH. now inversion Hs.
  - inversion Hs as [|? ? _ Hall]; subst.
    rewrite List.Forall_forall in *. intros x Hx. apply Hall.
    rewrite <- (firstn_skipn n l). apply in_or_app. now left.
Qed.

Lemma with_rank_ids (items : list PropertyItem) :
  forall i, List.map item_id (with_rank i items) = List.map item_id items.
Proof.
  induction items as [|it items IH]; intros i; simpl; [reflexivity|].
  now rewrite IH.
Qed.

Lemma with_rank_ranks (items : list PropertyItem) :
  forall i, List.map item_rank (with_rank i items)
            = List.map (fun k => Some (k + 1)%nat) (List.seq i (length items)).
Proof.
  induction items as [|it items IH]; intros i; simpl; [reflexivity|].
  now rewrite IH.
Qed.

Lemma with_rank_length (items : list PropertyItem) :
  forall i, length (with_rank i items) = length items.
Proof.
  induction items as [|it items IH]; intros i; simpl; [reflexivity|].
  now rewrite IH.
Qed.

(** The listings of a result, in the order returned. *)
Definition returned_ids (r : ResultSet) : list string :=
  List.map item_id (results r).

(** The ids handed to [find]: the [top_k] best of the fused ranking. *)
Definition top_ids (params : SearchParams) (embed : nat -> option (list float))
  (store : Store) (top_k : nat) : list string :=
  let ranked :=
    ranked_results (text_results store params) (vector_results store embed params) in
  firstn top_k (sort_desc (score_of ranked) (dict_keys ranked)).

(** Every fetched document is one that was asked for. *)
Definition asked_for (ids : list string) (docs : list Document) : bool :=
  forallb (fun doc => match index_of (doc_id doc) ids with
                      | Some _ => true | None => false end) docs.

(** What is left of the fetched documents, put in the order of the ids,
    after the exact station filter. *)
Definition survivors (params : SearchParams) (ids : list string)
  (docs : list Document) : list PropertyItem :=
  let with_meta :=
    List.map item_of_doc (sort_by (fun doc => index_or_zero ids (doc_id doc)) docs) in
  if p_require_subway params && truthy (p_station_name params)
  then List.filter (near_station params) with_meta
  else with_meta.

(** The result for a non-empty list of survivors. *)
Definition found (with_meta : list PropertyItem) : ResultSet :=
  mkResultSet (with_rank 0 with_meta) None
    (Some (u "총 " ++ decimal (length with_meta) ++ u "개의 매물을 찾았습니다."))
    false.

(** [hybrid_search], outcome by outcome. *)
Lemma hybrid_search_outcome (params : SearchParams)
  (embed : nat -> option (list float)) (store : Store) (top_k : nat) :
  let text := text_results store params in
  let vector := vector_results store embed params in
  let top := top_ids params embed store top_k in
  hybrid_search params embed store top_k
  = match text, vector with
    | [], [] => Some no_match
    | _, _ =>
      match find_by_ids store top with
      | None => None
      | Some docs =>
        if asked_for top docs then
          match survivors params top docs with
          | [] => Some no_match
          | it :: rest => Some (found (it :: rest))
          end
        else None
      end
    end.
Proof.
  intros text vector top. unfold hybrid_search. fold text vector.
  destruct (ranked_results text vector) as [|kv ranked] eqn:Hr.
  - apply ranked_results_nil in Hr. destruct Hr as [-> ->]. reflexivity.
  - assert (Hne : ~ (text = [] /\ vector = [])).
    { intros H. apply ranked_results_nil in H. congruence. }
    transitivity (match find_by_ids store top with
                  | None => None
                  | Some docs =>
                    if asked_for top docs then
                      match survivors params top docs with
                      | [] => Some no_match
                      | it :: rest => Some (found (it :: rest))
                      end
                    else None
                  end).
    + rewrite <- Hr. unfold top, top_ids, asked_for, survivors, found.
      fold text vector. cbv zeta.
      destruct (find_by_ids store _) as [docs|]; [|reflexivity].
      destruct (forallb _ docs); [|reflexivity].
      match goal with
      | |- match ?w with _ => _ end = _ => destruct w; reflexivity
      end.
    + destruct text, vector; try reflexivity. exfalso. tauto.
Qed.

Lemma survivors_descending (score : string -> float) (params : SearchParams)
  (ids : list string) (docs : list Document) :
  (forall id, nonneg (score id)) ->
  StronglySorted (score_ge score) ids -> asked_for ids docs = true ->
  StronglySorted (score_ge score) (List.map item_id (survivors params ids docs)).
Proof.
  intros Hnn Hids Hall.
  pose proof (fetched_descending score Hnn ids docs Hids Hall) as Hs.
  unfold survivors. set (sorted := sort_by _ docs) in *.
  assert (Hmeta : StronglySorted (score_ge score)
                    (List.map item_id (List.map item_of_doc sorted)))
    by (rewrite map_map; exact Hs).
  destruct (_ && _); [|exact Hmeta].
  induction (List.map item_of_doc sorted) as [|a l IH]; simpl; [constructor|].
  simpl in Hmeta. inversion Hmeta as [|? ? Hl Hfa]; subst.
  destruct (near_station params a); simpl; [|now apply IH].
  constructor; [now apply IH|].
  rewrite List.Forall_forall in *. intros x Hx. apply Hfa.
  apply in_map_iff in Hx. destruct Hx as (y & <- & Hy).
  apply filter_In in Hy. now apply in_map.
Qed.

Lemma hybrid_search_descending (params : SearchParams)
  (embed : nat -> option (list float)) (store : Store) (top_k : nat) (r : ResultSet) :
  hybrid_search params embed store top_k = Some r ->
  StronglySorted
    (score_ge (score_of (ranked_results (text_results store params)
                                        (vector_results store embed params))))
    (returned_ids r)
  /\ List.map item_rank (results r)
     = List.map (fun k => Some (k + 1)%nat) (List.seq 0 (length (results r))).
Proof.
  rewrite hybrid_search_outcome. cbv zeta. unfold returned_ids.
  set (ranked := ranked_results _ _).
  assert (Hnone : forall x, Some no_match = Some x ->
            StronglySorted (score_ge (score_of ranked)) (List.map item_id (results x))
            /\ List.map item_rank (results x)
               = List.map (fun k => Some (k + 1)%nat)
                          (List.seq 0 (length (results x)))).
  { intros x [= <-]. simpl. split; [constructor|reflexivity]. }
  assert (Hfind :
            match find_by_ids store (top_ids params embed store top_k) with
            | None => None
            | Some docs =>
              if asked_for (top_ids params embed store top_k) docs then
                match survivors params (top_ids params embed store top_k) docs with
                | [] => Some no_match
                | it :: rest => Some (found (it :: rest))
                end
              else None
            end = Some r ->
            StronglySorted (score_ge (score_of ranked)) (List.map item_id (results r))
            /\ List.map item_rank (results r)
               = List.map (fun k => Some (k + 1)%nat)
                          (List.seq 0 (length (results r)))).
  { destruct (find_by_ids store _) as [docs|]; [|discriminate].
    destruct (asked_for _ docs) eqn:Hall; [|discriminate].
    pose proof (survivors_descending (score_of ranked) params _ docs
                  (ranked_results_nonneg _ _)
                  (StronglySorted_firstn _ top_k _
                     (sort_desc_sorted (score_of ranked)
                        (ranked_results_nonneg _ _) (dict_keys ranked)))
                  Hall) as Hs.
    destruct (survivors params _ docs) as [|it rest]; [apply Hnone|].
    intros [= <-]. unfold found. cbn [results].
    rewrite with_rank_ids, with_rank_ranks, with_rank_length.
    split; [exact Hs|reflexivity]. }
  destruct (text_results store params), (vector_results store embed params);
    [apply Hnone|exact Hfind..].
Qed.

(* ===================================================================== *)
(** * Hybrid search: scores, order, and failing passes                   *)
(* ===================================================================== *)

Lemma score_ge_ext (f g : string -> float) (l : list string) :
  (forall id, f id = g id) ->
  StronglySorted (score_ge f) l -> StronglySorted (score_ge g) l.
Proof.
  intros Hfg Hs. induction Hs as [|a l Hs IH Hall]; constructor; [exact IH|].
  rewrite List.Forall_forall in *. intros x Hx. specialize (Hall x Hx).
  unfold score_ge in *. now rewrite <- !Hfg.
Qed.

(** C4.  In [hybrid_search] the score accumulated for a listing is, in
    binary64 arithmetic, the sum over the two passes of
    [weight * (1 / (60 + rank))], with the 1-based rank of the listing in
    the pass, weight 0.7 for the lexical and 0.3 for the vector pass, and 0
    for a pass the listing is not in; every such score is a non-negative
    number, never NaN; and along the returned sequence, whose [rank] fields
    count from 1, the fused score never increases. *)
Theorem C4_fused_score_descends (params : SearchParams)
  (embed : nat -> option (list float)) (store : Store) (top_k : nat) (r : ResultSet)
  (Hsearch : hybrid_search params embed store top_k = Some r)
  (Htext : List.NoDup (List.map doc_id (text_results store params)))
  (Hvector : List.NoDup (List.map doc_id (vector_results store embed params))) :
  let text := text_results store params in
  let vector := vector_results store embed params in
  (forall id, score_of (ranked_results text vector) id = fused_score text vector id)
  /\ (forall id, fused_score text vector id
                 = (contribution 0x1.6666666666666p-1 text id
                    + contribution 0x1.3333333333333p-2 vector id)%float)
  /\ (forall weight pass id,
        match index_of id (List.map doc_id pass) with
        | Some i => contribution weight pass id
                    = (weight * (1 / float_of_nat (60 + (i + 1))))%float
        | None => contribution weight pass id = 0%float
        end)
  /\ (forall id, nonneg (fused_score text vector id))
  /\ StronglySorted (score_ge (fused_score text vector)) (returned_ids r)
  /\ List.map item_rank (results r)
     = List.map (fun k => Some (k + 1)%nat) (List.seq 0 (length (results r))).
Proof.
  intros text vector.
  destruct (hybrid_search_descending _ _ _ _ _ Hsearch) as [Hs Hranks].
  split; [intros id; now apply ranked_results_score|].
  split; [intros id; reflexivity|].
  split.
  { intros weight pass id. unfold contribution, rank_in.
    destruct (index_of id (List.map doc_id pass)) as [i|]; reflexivity. }
  split.
  { intros id. rewrite <- (ranked_results_score text vector id Htext Hvector).
    apply ranked_results_nonneg. }
  split; [|exact Hranks].
  eapply score_ge_ext; [|exact Hs].
  intros id. now apply ranked_results_score.
Qed.

(** Three stored listings and a store whose lexical pass returns the first
    two and whose vector pass returns the last two. *)
Definition doc1 : Document := mkDoc "d1" (u "래미안") (Some (u "강남")) (Some 300%float).
Definition doc2 : Document := mkDoc "d2" (u "자이") (Some (u "강남")) (Some 450%float).
Definition doc3 : Document := mkDoc "d3" (u "푸르지오") (Some (u "교대")) (Some 700%float).

Definition mem_id (id : string) (ids : list string) : bool :=
  existsb (String.eqb id) ids.

(** No id occurs twice. *)
Fixpoint distinct (ids : list string) : bool :=
  match ids with
  | [] => true
  | id :: rest => negb (mem_id id rest) && distinct rest
  end.

Lemma distinct_NoDup (ids : list string) : distinct ids = true -> List.NoDup ids.
Proof.
  induction ids as [|id rest IH]; simpl; [constructor|].
  intros H. apply andb_true_iff in H. destruct H as [Hn Hd].
  constructor; [|now apply IH].
  intros Hin. apply negb_true_iff in Hn.
  assert (mem_id id rest = true); [|congruence].
  apply existsb_exists. exists id. split; [exact Hin|apply String.eqb_refl].
Qed.

(** [find] over a collection: the documents whose id was asked for, in the
    order of the collection. *)
Definition find_in (collection : list Document) (ids : list string)
  : option (list Document) :=
  Some (List.filter (fun d => mem_id (doc_id d) ids) collection).

Definition small_store : Store :=
  mkStore (fun _ => Some [doc1; doc2]) (fun _ _ => Some [doc2; doc3])
          (find_in [doc1; doc2; doc3]).

Definition gangnam : SearchParams :=
  mkParams (Some (u "강남구")) None None None (Some (u "전세")) false 1000 None.

Definition embedding_ok : nat -> option (list float) :=
  fun _ => Some [0.5%float; 0.25%float].

(** Listings numbered from [i]: "t1", "t2", ... *)
Definition numbered (prefix : string) (i : nat) : Document :=
  mkDoc (prefix ++ NilEmpty.string_of_uint (Nat.to_uint i)) [] None None.

(** A store of 28 listings t1..t28 that the lexical pass returns in this
    order, while the vector pass returns t28 sixth and t24 twelfth among
    other listings.  As rationals the fused scores of t24 and t28 are both
    1/80; in binary64 that of t28 is the larger by one unit in the last
    place. *)
Definition tie_text : list Document := List.map (numbered "t") (List.seq 1 28).

Definition tie_vector : list Document :=
  List.map (numbered "v") (List.seq 1 5) ++ [numbered "t" 28]
  ++ List.map (numbered "v") (List.seq 7 5) ++ [numbered "t" 24].

Definition tie_store : Store :=
  mkStore (fun _ => Some tie_text) (fun _ _ => Some tie_vector)
          (find_in (tie_text ++ List.map (numbered "v") (List.seq 1 5 ++ List.seq 7 5))).

(** C4 on the small store: the listing found by both passes comes first.
    And on the store of the tie: t28, whose binary64 score is the larger,
    is returned before t24, which the lexical pass ranks higher. *)
Lemma C4_fused_score_descends_witness :
  (exists r,
     hybrid_search gangnam embedding_ok small_store 30 = Some r
     /\ returned_ids r = ["d2"; "d1"; "d3"]
     /\ StronglySorted
          (score_ge (fused_score (text_results small_store gangnam)
                                 (vector_results small_store embedding_ok gangnam)))
          (returned_ids r))
  /\ (exists r,
        hybrid_search gangnam embedding_ok tie_store 4 = Some r
        /\ returned_ids r = ["t28"; "t24"; "t1"; "t2"]
        /\ fused_score tie_text tie_vector "t28" = 0x1.9999999999999p-7%float
        /\ fused_score tie_text tie_vector "t24" = 0x1.9999999999998p-7%float
        /\ StronglySorted
             (score_ge (fused_score (text_results tie_store gangnam)
                                    (vector_results tie_store embedding_ok gangnam)))
             (returned_ids r)).
Proof.
  split.
  - eexists. split; [vm_compute; reflexivity|]. split; [reflexivity|].
    apply (C4_fused_score_descends gangnam embedding_ok small_store 30).
    + vm_compute. reflexivity.
    + repeat constructor; simpl; intuition discriminate.
    + repeat constructor; simpl; intuition discriminate.
  - eexists. split; [vm_compute; reflexivity|]. split; [reflexivity|].
    split; [vm_compute; reflexivity|]. split; [vm_compute; reflexivity|].
    apply (C4_fused_score_descends gangnam embedding_ok tie_store 4).
    + vm_compute. reflexivity.
    + apply distinct_NoDup. vm_compute. reflexivity.
    + apply distinct_NoDup. vm_compute. reflexivity.
Defined.






Lemma with_rank_nil (i : nat) (items : list PropertyItem) :
  with_rank i items = [] -> items = [].
Proof. destruct items; [reflexivity|discriminate]. Qed.











(* ===================================================================== *)
(** * The location guard of the decomposer                               *)
(* ===================================================================== *)

Lemma simple_task_location_request (file : TempFile) (user_query : ustring)
  (intent_data : IntentData) :
  primary_intent intent_data = "SEARCH" ->
  extract_location_from_query
    (enhance_query "SEARCH" user_query (load_search_history_simple file)) = None ->
  create_simple_task_from_llm file user_query intent_data
  = Done [location_request user_query].
Proof.
  intros Hprimary Hloc. unfold create_simple_task_from_llm. cbv zeta.
  rewrite Hprimary, Hloc. reflexivity.
Qed.

(** An utterance that asks for a search and a recommendation at once and
    names no place, and what the language model answers for it. *)
Definition search_and_recommend : ustring := u "전세 매물 찾아서 추천해줘".

Definition search_and_recommend_intent : IntentData :=
  mkIntent "SEARCH" ["RECOMMENDATION"] false true true (u "검색 후 추천").

Definition search_and_recommend_tasks : list ComplexTask :=
  [mkComplex "SEARCH" (u "매물 검색") "HIGH" [];
   mkComplex "RECOMMENDATION" (u "검색 결과 추천") "MEDIUM" ["SEARCH"]].

(** C9 at the failing input.  The utterance has SEARCH as primary intent
    and names no place, and nothing was searched before.  The simple path
    answers with the single CHAT task that asks for the place.  The same
    utterance, analysed with a secondary intent, takes the complex path,
    which has no such check: [parse_user_request] returns a SEARCH task and
    a RECOMMENDATION task that waits for it, and no task asks for the
    place. *)
Lemma C9_complex_path_skips_location_guard :
  primary_intent search_and_recommend_intent = "SEARCH"
  /\ extract_location_from_query
       (enhance_query "SEARCH" search_and_recommend (load_search_history_simple None))
     = None
  /\ create_simple_task_from_llm None search_and_recommend search_and_recommend_intent
     = Done [location_request search_and_recommend]
  /\ List.map (fun t => (task_id t, task_type t, dependencies t))
       (parse_user_request None (Some search_and_recommend_intent)
          (Some search_and_recommend_tasks) None search_and_recommend)
     = [("llm_complex_001", SEARCH, []);
        ("llm_complex_002", RECOMMENDATION, ["llm_complex_001"])].
Proof. vm_compute. repeat split; reflexivity. Qed.

(** X13.  The guard of the simple path.  With SEARCH as primary intent and no
    place in the utterance completed from the history,
    [_create_simple_task_from_llm] returns the single CHAT task that asks
    for the place, and so does [parse_user_request] whenever it takes that
    path (an intent without secondary intents and not marked complex, or a
    failed complex-task call).  Apart from it, [search_properties] answers
    with the same question, without searching, when the parameters parsed
    from its query carry no district, sub-district or station. *)
Theorem X13_location_guard_on_simple_path (file : TempFile) (user_query : ustring)
  (intent_data : IntentData)
  (Hprimary : primary_intent intent_data = "SEARCH")
  (Hlocation : extract_location_from_query
                 (enhance_query "SEARCH" user_query (load_search_history_simple file))
               = None) :
  create_simple_task_from_llm file user_query intent_data
  = Done [location_request user_query]
  /\ task_type (location_request user_query) = CHAT
  /\ (forall llm_complex keyword_tasks,
        secondary_intents intent_data = [] ->
        is_complex_request intent_data = false ->
        parse_user_request file (Some intent_data) llm_complex keyword_tasks user_query
        = [location_request user_query])
  /\ (forall keyword_tasks,
        parse_user_request file (Some intent_data) None keyword_tasks user_query
        = [location_request user_query])
  /\ (forall params engine_params embed store top_k,
        has_location params = false ->
        search_properties params engine_params embed store top_k
        = Some location_needed).
Proof.
  pose proof (simple_task_location_request file user_query intent_data
                Hprimary Hlocation) as Hsimple.
  split; [exact Hsimple|]. split; [reflexivity|]. split; [|split].
  - intros llm_complex keyword_tasks Hsec Hcomplex.
    unfold parse_user_request, analyze_intent_with_llm.
    rewrite Hsec, Hcomplex. simpl orb. cbv iota. now rewrite Hsimple.
  - intros keyword_tasks. unfold parse_user_request, analyze_intent_with_llm.
    unfold create_complex_tasks_from_llm.
    destruct (nonempty (secondary_intents intent_data)
              || is_complex_request intent_data); now rewrite Hsimple.
  - intros params engine_params embed store top_k Hno.
    unfold search_properties. now rewrite Hno.
Qed.

(** A history holding one search without a place, and a request that names
    none either: the completion from the history adds the contract type
    only. *)
Definition history_without_place : TempFile := Some [Entry (u "전세 매물 보여줘") []].

Definition plain_search_intent : IntentData :=
  mkIntent "SEARCH" [] false false true (u "매물 검색 요청").

Lemma X13_location_guard_on_simple_path_witness :
  enhance_query "SEARCH" (u "싼 집 찾아줘")
                (load_search_history_simple history_without_place)
  = u "싼 집 찾아줘 전세 매물"
  /\ parse_user_request history_without_place (Some plain_search_intent) None None
       (u "싼 집 찾아줘")
     = [location_request (u "싼 집 찾아줘")].
Proof.
  split; [vm_compute; reflexivity|].
  apply (X13_location_guard_on_simple_path history_without_place (u "싼 집 찾아줘")
           plain_search_intent); vm_compute; reflexivity.
Defined.

(* ===================================================================== *)
(** * The search history after construction                              *)
(* ===================================================================== *)

(** A file the constructor finds: one search with two listings. *)
Definition earlier_search : list FileLine :=
  [Entry (u "서초구 전세") [record_A; record_B]].

(** C10, as stated, fails when [os.remove] raises: the exception is logged,
    construction goes on, and the file is kept, so the history is not
    empty after construction and a reference is resolved from it. *)
Lemma C10_counterexample_failed_removal_keeps_history :
  init_search_history true (Some earlier_search) = Some earlier_search
  /\ has_existing_results (init_search_history true (Some earlier_search)) = true
  /\ latest_results (init_search_history true (Some earlier_search))
     = [record_A; record_B]
  /\ resolve_references (u "2번")
       (load_search_history_from_tempfile
          (init_search_history true (Some earlier_search)))
     = Done (Some [record_B]).
Proof. vm_compute. repeat split; reflexivity. Qed.

(** Resolution against an empty history yields no record. *)
Lemma resolve_references_no_history (query : ustring) :
  resolve_references query [] = Done None
  \/ resolve_references query [] = Done (Some [])
  \/ resolve_references query [] = ValueError.
Proof.
  destruct (resolve_references query []) as [[rs|]|] eqn:He; auto.
  right; left. do 2 f_equal.
  destruct rs as [|r rs]; [reflexivity|exfalso].
  destruct (resolve_references_cases query []) as (ok & refs & Hfrom & [H|H]);
    rewrite H in He; [|discriminate].
  destruct (resolved_from_history [] ok refs (r :: rs) Hfrom He r (or_introl eq_refl))
    as (e & [] & _).
Qed.

(** C10, amended.  The constructor removes [search_history.json] when it
    exists.  When the removal succeeds the file does not exist afterwards,
    whatever it held: both loaders return no entry, the checks for existing
    results are negative, and reference resolution yields no record (it
    returns nothing or an empty list, or raises on an ordinal of more than
    4300 digits); the first search saved after it is the only entry.  When
    there is no file there is nothing to remove.  When [os.remove] raises,
    the file is kept with its lines, and every reader sees what it saw
    before the construction. *)
Theorem C10_history_after_construction (file : TempFile) (lines : list FileLine) :
  let fresh := init_search_history false file in
  let kept := init_search_history true (Some lines) in
  fresh = None
  /\ load_search_history_from_tempfile fresh = []
  /\ load_search_history_simple fresh = []
  /\ has_existing_results fresh = false
  /\ latest_results fresh = []
  /\ (forall query,
        resolve_references query (load_search_history_from_tempfile fresh) = Done None
        \/ resolve_references query (load_search_history_from_tempfile fresh)
           = Done (Some [])
        \/ resolve_references query (load_search_history_from_tempfile fresh)
           = ValueError)
  /\ (forall query search_results,
        load_search_history_from_tempfile (save false query search_results fresh)
        = [mkEntry query (extract_location_from_query query) search_results]
        /\ has_existing_results (save false query search_results fresh) = true
        /\ latest_results (save false query search_results fresh) = search_results)
  /\ init_search_history true None = None
  /\ kept = Some lines
  /\ load_search_history_from_tempfile kept
     = load_search_history_from_tempfile (Some lines)
  /\ load_search_history_simple kept = load_search_history_simple (Some lines)
  /\ has_existing_results kept = has_existing_results (Some lines)
  /\ latest_results kept = latest_results (Some lines).
Proof.
  intros fresh kept.
  assert (Hfresh : fresh = None) by (unfold fresh; now destruct file).
  rewrite Hfresh.
  split; [reflexivity|]. split; [reflexivity|]. split; [reflexivity|].
  split; [reflexivity|]. split; [reflexivity|].
  split; [intros query; apply resolve_references_no_history|].
  split; [intros query search_results; repeat split|].
  repeat split.
Qed.

(* ===================================================================== *)
(** * The scheduling loop: every task at most once                       *)
(* ===================================================================== *)

(** X2.  Whatever [self.completed_tasks] held before, a run executes no
    task id twice and executes tasks of the request only; when the loop is
    left, each task id of the request is either among the results or still
    pending, never both, so the number of results ([tasks_completed]) is at
    most the number of tasks. *)
Theorem X2_each_task_dispatched_at_most_once (provider : AgentTask -> Outcome)
  (completed : gmap string AgentTask) (user_id : option Z)
  (tasks : list AgentTask) (fuel : nat) (st : Loop)
  (Hrun : schedule fuel provider completed user_id tasks = Some st) :
  List.NoDup (List.map task_id (completed_results st))
  /\ (forall r, In r (completed_results st) ->
                In (task_id r) (List.map task_id tasks))
  /\ (length (completed_results st) <= length tasks)%nat
  /\ (forall id, In id (List.map task_id tasks) ->
        (In id (List.map task_id (completed_results st))
         /\ ~ In id (dict_keys (pending_tasks st)))
        \/ (In id (dict_keys (pending_tasks st))
            /\ ~ In id (List.map task_id (completed_results st)))).
Proof.
  pose proof (start_Inv provider completed user_id tasks) as HI0.
  destruct (run_loop_sound provider (fun _ => True) _ (fun _ _ _ => I)
              fuel _ st HI0 I Hrun) as (HI & _ & _).
  simpl in HI.
  set (tasks' := List.map (add_user_id user_id) tasks) in *.
  assert (Hids : List.map task_id tasks' = List.map task_id tasks).
  { unfold tasks'. rewrite map_map. apply map_ext. apply add_user_id_id. }
  assert (Hfrom : forall r, In r (completed_results st) ->
                            In (task_id r) (List.map task_id tasks)).
  { intros r Hr. destruct (inv_from _ _ _ HI r Hr) as (t & Ht & ->).
    rewrite execute_task_id, <- Hids. apply pending_of_keys.
    apply dict_keys_In. now exists t. }
  split; [exact (inv_nodup _ _ _ HI)|]. split; [exact Hfrom|]. split.
  - rewrite <- (length_map task_id (completed_results st)),
            <- (length_map task_id tasks).
    apply NoDup_incl_length; [exact (inv_nodup _ _ _ HI)|].
    intros id Hid. apply in_map_iff in Hid. destruct Hid as (r & <- & Hr).
    now apply Hfrom.
  - intros id Hid. rewrite <- Hids in Hid. apply pending_of_keys in Hid.
    apply dict_keys_In in Hid. destruct Hid as (t & Ht).
    destruct (pending_of_wf tasks') as [_ Hkey]. pose proof (Hkey _ _ Ht) as Hk.
    destruct (inv_cover _ _ _ HI _ _ Ht) as [Hpend|Hres].
    + right. split; [apply dict_keys_In; now exists t|].
      intros Hin. apply in_map_iff in Hin. destruct Hin as (r & Hr & Hinr).
      apply (inv_disjoint _ _ _ HI r Hinr). rewrite Hr.
      apply dict_keys_In. now exists t.
    + left. split.
      * apply in_map_iff. exists (execute_task provider t).
        split; [now rewrite execute_task_id|exact Hres].
      * pose proof (inv_disjoint _ _ _ HI _ Hres) as Hd.
        now rewrite execute_task_id, Hk in Hd.
Qed.

(** X2 on the run whose search fails: one result, one task left pending. *)
Lemma X2_each_task_dispatched_at_most_once_witness :
  exists st,
    schedule 2 (raises_in "llm_complex_001") ∅ None search_then_recommend = Some st
    /\ List.map task_id (completed_results st) = ["llm_complex_001"]
    /\ dict_keys (pending_tasks st) = ["llm_complex_002"]
    /\ List.NoDup (List.map task_id (completed_results st)).
Proof.
  set (st := final_state
               (schedule 2 (raises_in "llm_complex_001") ∅ None search_then_recommend)).
  assert (Hrun : schedule 2 (raises_in "llm_complex_001") ∅ None search_then_recommend
                 = Some st) by (vm_compute; reflexivity).
  exists st. split; [exact Hrun|]. split; [vm_compute; reflexivity|].
  split; [vm_compute; reflexivity|].
  apply (X2_each_task_dispatched_at_most_once _ _ _ _ _ _ Hrun).
Defined.

(* ===================================================================== *)
(** * The task graph of the complex path                                 *)
(* ===================================================================== *)

Lemma dict_set_get_eq {V : Type} (k : string) (v : V) (d : list (string * V)) :
  dict_get k (dict_set k v d) = Some v.
Proof.
  induction d as [|[k0 v0] d IH]; simpl; [now rewrite String.eqb_refl|].
  destruct (String.eqb_spec k k0) as [->|Hne]; simpl.
  - now rewrite String.eqb_refl.
  - destruct (String.eqb_spec k k0); [contradiction|exact IH].
Qed.

Lemma dict_set_get_ne {V : Type} (k k' : string) (v : V) (d : list (string * V)) :
  k' <> k -> dict_get k' (dict_set k v d) = dict_get k' d.
Proof.
  intros Hne. induction d as [|[k0 v0] d IH]; simpl.
  - destruct (String.eqb_spec k' k); [contradiction|reflexivity].
  - destruct (String.eqb_spec k k0) as [->|Hne0]; simpl.
    + destruct (String.eqb_spec k' k0); [contradiction|reflexivity].
    + destruct (String.eqb_spec k' k0); [reflexivity|exact IH].
Qed.

(** Reading a zero-padded decimal number back. *)
Definition read_decimal (s : string) : option nat :=
  option_map Nat.of_uint (NilEmpty.uint_of_string s).

Lemma read_decimal_zero (s : string) :
  read_decimal (String "0" s) = read_decimal s.
Proof.
  unfold read_decimal. simpl.
  destruct (NilEmpty.uint_of_string s); reflexivity.
Qed.

Lemma read_decimal_pad3 (n : nat) : read_decimal (pad3 n) = Some n.
Proof.
  assert (H : read_decimal (NilEmpty.string_of_uint (Nat.to_uint n)) = Some n).
  { unfold read_decimal. rewrite NilEmpty.usu. simpl.
    now rewrite DecimalNat.Unsigned.of_to. }
  unfold pad3.
  destruct (String.length (NilEmpty.string_of_uint (Nat.to_uint n)))
    as [|[|[|k]]]; try exact H.
  - change (read_decimal (String "0" (String "0"
              (NilEmpty.string_of_uint (Nat.to_uint n)))) = Some n).
    now rewrite !read_decimal_zero.
  - change (read_decimal (String "0" (NilEmpty.string_of_uint (Nat.to_uint n)))
            = Some n).
    now rewrite read_decimal_zero.
Qed.

Lemma complex_id_inj (i j : nat) : complex_id i = complex_id j -> i = j.
Proof.
  unfold complex_id. intros H.
  assert (Hp : pad3 (i + 1) = pad3 (j + 1)).
  { revert H. generalize (pad3 (i + 1)) (pad3 (j + 1)). intros a b H.
    simpl in H. now injection H. }
  pose proof (read_decimal_pad3 (i + 1)) as Hi. rewrite Hp in Hi.
  rewrite read_decimal_pad3 in Hi. injection Hi. lia.
Qed.

Lemma complex_tasks_ids (type_to_id : list (string * string)) (q : ustring)
  (intent : IntentData) (specs : list ComplexTask) :
  forall i,
    List.map task_id (complex_tasks_from i type_to_id q intent specs)
    = List.map complex_id (List.seq i (length specs)).
Proof.
  induction specs as [|spec rest IH]; intros i; simpl; [reflexivity|].
  now rewrite IH.
Qed.

Lemma complex_tasks_types (type_to_id : list (string * string)) (q : ustring)
  (intent : IntentData) (specs : list ComplexTask) :
  forall i,
    List.map task_type (complex_tasks_from i type_to_id q intent specs)
    = List.map (fun spec => task_type_of (ct_task_type spec)) specs.
Proof.
  induction specs as [|spec rest IH]; intros i; simpl; [reflexivity|].
  now rewrite IH.
Qed.

Lemma complex_tasks_deps (type_to_id : list (string * string)) (q : ustring)
  (intent : IntentData) (specs : list ComplexTask) :
  forall i t,
    In t (complex_tasks_from i type_to_id q intent specs) ->
    exists spec, In spec specs
                 /\ dependencies t = dep_ids_of type_to_id (ct_dependencies spec)
                 /\ task_type t = task_type_of (ct_task_type spec)
                 /\ status t = Pending /\ result t = None /\ error t = None.
Proof.
  induction specs as [|spec rest IH]; intros i t; simpl; [intros []|].
  intros [<-|Hin].
  - exists spec. simpl. auto 10.
  - destruct (IH _ _ Hin) as (s & Hs & H). exists s. auto.
Qed.

(** [type_to_id] maps a type to the id of a task of the answer. *)
Lemma type_to_id_range (specs : list ComplexTask) :
  forall i d k id,
    dict_get k (type_to_id_from i specs d) = Some id ->
    dict_get k d = Some id
    \/ exists j, (i <= j < i + length specs)%nat /\ id = complex_id j.
Proof.
  induction specs as [|spec rest IH]; intros i d k id H; simpl in *; [now left|].
  apply IH in H. destruct H as [H|(j & Hj & ->)].
  - destruct (String.eqb_spec k (ct_task_type spec)) as [->|Hne].
    + rewrite dict_set_get_eq in H. injection H as <-.
      right. exists i. split; [lia|reflexivity].
    + rewrite dict_set_get_ne in H by exact Hne. now left.
  - right. exists j. split; [lia|reflexivity].
Qed.

(** X3.  [_create_complex_tasks_from_llm] turns the language model's answer
    into one pending task per entry, in order, with the pairwise distinct
    ids llm_complex_001, llm_complex_002, ...; every dependency of every
    task is the id of a task of the same list (a dependency on a type the
    answer does not contain is dropped), so the scheduler is never handed a
    dangling dependency from this path. *)
Theorem X3_complex_tasks_well_formed (file : TempFile) (specs : list ComplexTask)
  (user_query : ustring) (intent_data : IntentData) :
  exists tasks,
    create_complex_tasks_from_llm file (Some specs) user_query intent_data = Done tasks
    /\ List.map task_id tasks = List.map complex_id (List.seq 0 (length specs))
    /\ List.NoDup (List.map task_id tasks)
    /\ List.map task_type tasks
       = List.map (fun spec => task_type_of (ct_task_type spec)) specs
    /\ (forall t, In t tasks ->
          status t = Pending /\ result t = None /\ error t = None)
    /\ (forall t d, In t tasks -> In d (dependencies t) ->
          In d (List.map task_id tasks)).
Proof.
  unfold create_complex_tasks_from_llm.
  set (ids := type_to_id_from 0 specs []).
  eexists. split; [reflexivity|].
  pose proof (complex_tasks_ids ids user_query intent_data specs 0) as Hids.
  split; [exact Hids|]. split; [|split; [|split]].
  - rewrite Hids. apply Finite.Injective_map_NoDup; [|apply seq_NoDup].
    intros i j. apply complex_id_inj.
  - apply complex_tasks_types.
  - intros t Ht. destruct (complex_tasks_deps _ _ _ _ _ _ Ht) as (_ & _ & _ & _ & H).
    exact H.
  - intros t d Ht Hd.
    destruct (complex_tasks_deps _ _ _ _ _ _ Ht) as (spec & _ & Hdeps & _).
    rewrite Hdeps in Hd. unfold dep_ids_of in Hd. apply in_flat_map in Hd.
    destruct Hd as (dep & _ & Hd).
    destruct (dict_get dep ids) as [id|] eqn:Hget; [|destruct Hd].
    destruct Hd as [<-|[]].
    apply type_to_id_range in Hget. destruct Hget as [Hnil|(j & Hj & ->)];
      [discriminate|].
    rewrite Hids. apply in_map. apply in_seq. lia.
Qed.

(* ===================================================================== *)
(** * The search-history file: saving and loading                        *)
(* ===================================================================== *)

Definition loaded (l : FileLine) : list HistoryEntry :=
  match entry_of_line l with Some e => [e] | None => [] end.

Lemma load_after_save (file : TempFile) (query : ustring)
  (search_results : list PropertyItem) :
  load_search_history_from_tempfile (save false query search_results file)
  = load_search_history_from_tempfile file
    ++ [mkEntry query (extract_location_from_query query) search_results].
Proof.
  unfold load_search_history_from_tempfile, save.
  destruct file as [lines|]; simpl; [|reflexivity].
  now rewrite flat_map_app.
Qed.

(** X4.  Saving appends: after [SaveSearchHistoryAgent.save] has written,
    [load_search_history_from_tempfile] returns the entries it returned
    before followed by the saved query with its location and records, and
    the saved records are the latest results (an ordinal without location
    is resolved in them); when an exception kept the line out of the file,
    every reader's answer is as it was. *)
Theorem X4_save_then_load (file : TempFile) (query : ustring)
  (search_results : list PropertyItem) :
  load_search_history_from_tempfile (save false query search_results file)
  = load_search_history_from_tempfile file
    ++ [mkEntry query (extract_location_from_query query) search_results]
  /\ latest_results (save false query search_results file) = search_results
  /\ has_existing_results (save false query search_results file) = true
  /\ (forall num,
        fits num = true ->
        pick_latest (load_search_history_from_tempfile
                       (save false query search_results file)) num
        = Done (at_position search_results (decimal_value num)))
  /\ load_search_history_from_tempfile (save true query search_results file)
     = load_search_history_from_tempfile file
  /\ latest_results (save true query search_results file) = latest_results file.
Proof.
  pose proof (load_after_save file query search_results) as Hload.
  split; [exact Hload|]. split; [|split; [|split; [|split]]].
  - unfold latest_results, save. destruct file as [lines|]; simpl; [|reflexivity].
    now rewrite rev_app_distr.
  - unfold has_existing_results, save. destruct file as [[|l lines]|]; reflexivity.
  - intros num Hfits. rewrite Hload, pick_latest_fits, Hfits.
    now rewrite latest_entry_rev, rev_app_distr.
  - reflexivity.
  - reflexivity.
Qed.

Lemma load_until_error_prefix (lines : list FileLine) :
  exists rest, flat_map loaded lines = load_until_error lines ++ rest.
Proof.
  induction lines as [|l lines IH]; simpl; [now exists []|].
  unfold loaded at 1. destruct (entry_of_line l) as [e|].
  - destruct IH as (rest & ->). now exists rest.
  - now exists (flat_map loaded lines).
Qed.

Lemma load_until_error_all (lines : list FileLine) :
  (forall l, In l lines -> l <> Garbage) ->
  load_until_error lines = flat_map loaded lines.
Proof.
  induction lines as [|l lines IH]; intros H; simpl; [reflexivity|].
  unfold loaded at 1. destruct l as [q rs|]; simpl.
  - rewrite IH; [reflexivity|]. intros l Hl. apply H. now right.
  - now elim (H Garbage (or_introl eq_refl)).
Qed.

Lemma load_until_error_stops (good bad : list FileLine) :
  (forall l, In l good -> l <> Garbage) ->
  load_until_error (good ++ Garbage :: bad) = flat_map loaded good.
Proof.
  induction good as [|l good IH]; intros H; simpl; [reflexivity|].
  unfold loaded at 1. destruct l as [q rs|]; simpl.
  - rewrite IH; [reflexivity|]. intros l Hl. apply H. now right.
  - now elim (H Garbage (or_introl eq_refl)).
Qed.

(** X5.  The two readers of the history differ on a file with a line that
    does not parse: the orchestrator's loader skips the line, the loader of
    [_create_simple_task_from_llm] stops at it.  So what the task parser
    sees is always a prefix of what the orchestrator sees, nothing after the
    first bad line, and the same list when every line parses. *)
Theorem X5_parser_history_is_prefix (file : TempFile) :
  (exists rest,
     load_search_history_from_tempfile file
     = load_search_history_simple file ++ rest)
  /\ ((forall l, In l (read_lines file) -> l <> Garbage) ->
      load_search_history_simple file = load_search_history_from_tempfile file)
  /\ (forall good bad,
        read_lines file = good ++ Garbage :: bad ->
        (forall l, In l good -> l <> Garbage) ->
        load_search_history_simple file = flat_map loaded good
        /\ load_search_history_from_tempfile file
           = flat_map loaded good ++ flat_map loaded bad).
Proof.
  unfold load_search_history_from_tempfile, load_search_history_simple.
  fold loaded. split; [apply load_until_error_prefix|].
  split; [apply load_until_error_all|].
  intros good bad -> Hgood. split.
  - now apply load_until_error_stops.
  - now rewrite flat_map_app.
Qed.

(** A file whose second line is not JSON. *)
Definition damaged_file : TempFile :=
  Some [Entry (u "서초구 전세") []; Garbage; Entry (u "방배동 월세") []].

Lemma X5_parser_history_is_prefix_witness :
  List.map h_query (load_search_history_simple damaged_file) = [u "서초구 전세"]
  /\ List.map h_query (load_search_history_from_tempfile damaged_file)
     = [u "서초구 전세"; u "방배동 월세"].
Proof.
  destruct (X5_parser_history_is_prefix damaged_file) as (_ & _ & H).
  destruct (H [Entry (u "서초구 전세") []] [Entry (u "방배동 월세") []] eq_refl)
    as [-> ->].
  - intros l [<-|[]]. discriminate.
  - split; reflexivity.
Defined.

(* ===================================================================== *)
(** * Result aggregation: order of completion, and failures              *)
(* ===================================================================== *)

Section SortedUnique.
Context {A : Type} (key : A -> nat).

Let at_key (k : nat) : list A -> list A :=
  List.filter (fun y => (key y =? k)%nat).

Lemma at_key_head (a : A) (l : list A) : at_key (key a) (a :: l) = a :: at_key (key a) l.
Proof. unfold at_key. simpl. now rewrite Nat.eqb_refl. Qed.

Lemma at_key_has (k : nat) (l : list A) (x : A) (rest : list A) :
  at_key k l = x :: rest -> In x l /\ key x = k.
Proof.
  intros H. assert (Hin : In x (at_key k l)) by (rewrite H; now left).
  unfold at_key in Hin. apply filter_In in Hin. destruct Hin as [Hin Hk].
  split; [exact Hin|]. now apply Nat.eqb_eq.
Qed.

(** Two lists sorted by key that agree key by key are equal. *)
Lemma sorted_by_key_unique (l1 : list A) :
  forall l2,
    StronglySorted (key_le key) l1 -> StronglySorted (key_le key) l2 ->
    (forall k, at_key k l1 = at_key k l2) -> l1 = l2.
Proof.
  induction l1 as [|a l1 IH]; intros l2 Hs1 Hs2 Heq.
  - destruct l2 as [|b l2]; [reflexivity|].
    specialize (Heq (key b)). rewrite at_key_head in Heq. discriminate.
  - destruct l2 as [|b l2].
    { specialize (Heq (key a)). rewrite at_key_head in Heq. discriminate. }
    inversion Hs1 as [|? ? Hs1' Hall1]; subst.
    inversion Hs2 as [|? ? Hs2' Hall2]; subst.
    rewrite List.Forall_forall in Hall1, Hall2.
    assert (Hab : key a = key b).
    { pose proof (Heq (key a)) as Ha. rewrite at_key_head in Ha.
      symmetry in Ha. apply at_key_has in Ha. destruct Ha as [[<-|Hin] Hk];
        [reflexivity|].
      pose proof (Heq (key b)) as Hb. rewrite at_key_head in Hb.
      apply at_key_has in Hb. destruct Hb as [[Hb|Hin'] Hk']; [now subst|].
      specialize (Hall1 _ Hin'). specialize (Hall2 _ Hin).
      unfold key_le in *. lia. }
    assert (Hb : at_key (key a) (b :: l2) = b :: at_key (key a) l2)
      by (rewrite Hab; apply at_key_head).
    pose proof (Heq (key a)) as Ha. rewrite at_key_head, Hb in Ha.
    injection Ha as <- Htail. f_equal. apply IH; [assumption|assumption|].
    intros k. destruct (Nat.eq_dec k (key a)) as [->|Hne]; [exact Htail|].
    specialize (Heq k). unfold at_key in *. simpl in Heq.
    destruct (Nat.eqb_spec (key a) k); [congruence|exact Heq].
Qed.

Lemma sort_by_unique (l1 l2 : list A) :
  (forall k, at_key k l1 = at_key k l2) -> sort_by key l1 = sort_by key l2.
Proof.
  intros H. apply sorted_by_key_unique; try apply sort_by_sorted.
  intros k. unfold at_key in *. rewrite !sort_by_stable. apply H.
Qed.

End SortedUnique.

(** X6.  The response does not depend on the order in which tasks of
    different types were completed: two result lists that hold, for every
    task type, the same tasks in the same order give the same reply, payload,
    records, result kind and count. *)
Theorem X6_response_independent_of_completion_order
  (normalize : PropertyItem -> PropertyItem) (tasks tasks' : list AgentTask)
  (Hsame : forall k, List.filter (fun t => (precedence t =? k)%nat) tasks
                     = List.filter (fun t => (precedence t =? k)%nat) tasks') :
  combine_results normalize tasks = combine_results normalize tasks'.
Proof.
  pose proof (sort_by_unique precedence tasks tasks' Hsame) as Hsort.
  assert (Hlen : length tasks = length tasks').
  { rewrite <- (sort_by_length precedence tasks),
            <- (sort_by_length precedence tasks'). now rewrite Hsort. }
  unfold combine_results, combine_all. fold precedence.
  now rewrite Hsort, Hlen.
Qed.

Lemma X6_response_independent_of_completion_order_witness :
  combine_results (fun it => it) [recommendation_A; retrieval_AB]
  = combine_results (fun it => it) [retrieval_AB; recommendation_A].
Proof.
  apply X6_response_independent_of_completion_order.
  intros [|[|[|[|k]]]]; reflexivity.
Defined.

(** The line a failed task contributes to the reply. *)
Definition error_line (t : AgentTask) : ustring :=
  u "⚠️ " ++ type_value (task_type t) ++ u " 작업 중 오류가 발생했습니다: "
    ++ opt_text (error t).

Lemma combine_task_response (acc : Combined) (t : AgentTask) :
  exists s, combined_response (combine_task acc t) = combined_response acc ++ s.
Proof.
  unfold combine_task, combine_search, set_payload, set_payload_and_type,
    append_section, mark_search_result.
  destruct (status_eqb (status t) Completed);
    destruct (result_dict (result t)) as [r|];
    destruct (status_eqb (status t) Failed);
    try destruct (task_type t);
    repeat match goal with
           | |- context [if ?b then _ else _] => destruct b
           end;
    simpl; try (eexists; reflexivity); exists []; now rewrite app_nil_r.
Qed.

Lemma fold_combine_response (l : list AgentTask) (acc : Combined) (s : ustring) :
  In s (combined_response acc) ->
  In s (combined_response (fold_left combine_task l acc)).
Proof.
  revert acc. induction l as [|t l IH]; intros acc Hin; simpl; [exact Hin|].
  apply IH. destruct (combine_task_response acc t) as (extra & ->).
  apply in_or_app. now left.
Qed.

Lemma fold_combine_failed (l : list AgentTask) (acc : Combined) (t : AgentTask) :
  In t l -> status t = Failed ->
  In (error_line t) (combined_response (fold_left combine_task l acc)).
Proof.
  revert acc. induction l as [|t' l IH]; intros acc Hin Hf; [destruct Hin|].
  destruct Hin as [->|Hin]; simpl; [|now apply IH].
  apply fold_combine_response. unfold combine_task. rewrite Hf. simpl.
  apply in_or_app. right. now left.
Qed.

Lemma is_prefix_app (x r : ustring) : is_prefix x (x ++ r) = true.
Proof. induction x as [|c x IH]; simpl; [reflexivity|]. now rewrite N.eqb_refl. Qed.

Lemma contains_here (x r : ustring) : contains x (x ++ r) = true.
Proof. destruct (x ++ r) eqn:H; simpl; rewrite <- H, is_prefix_app; reflexivity. Qed.

Lemma contains_after (p x s : ustring) :
  contains x s = true -> contains x (p ++ s) = true.
Proof.
  intros H. induction p as [|c p IH]; simpl; [exact H|].
  rewrite IH. apply orb_true_r.
Qed.

Lemma contains_join (sep x : ustring) (l : list ustring) :
  In x l -> contains x (join sep l) = true.
Proof.
  induction l as [|p l IH]; intros Hin; [destruct Hin|].
  destruct Hin as [->|Hin].
  - destruct l as [|q l]; simpl.
    + pose proof (contains_here x []) as H. now rewrite app_nil_r in H.
    + apply contains_here.
  - destruct l as [|q l]; [destruct Hin|].
    change (join sep (p :: q :: l)) with (p ++ sep ++ join sep (q :: l)).
    apply contains_after, contains_after. now apply IH.
Qed.

(** X7.  No failure is dropped from the reply: for every task of the
    results that ended [failed], the reply contains the line naming the type
    of the task and its error text. *)
Theorem X7_failed_tasks_are_reported (normalize : PropertyItem -> PropertyItem)
  (tasks : list AgentTask) (t : AgentTask)
  (Hin : In t tasks) (Hfailed : status t = Failed) :
  contains (error_line t) (reply (combine_results normalize tasks)) = true.
Proof.
  assert (Hline : In (error_line t)
                     (List.filter nonempty (combined_response (combine_all tasks)))).
  { apply filter_In. split.
    - unfold combine_all. apply fold_combine_failed; [|exact Hfailed].
      now apply sort_by_In.
    - unfold error_line. destruct (u "⚠️ ") eqn:Hu; [discriminate Hu|reflexivity]. }
  unfold combine_results. simpl.
  pose proof (contains_join nl2 _ _ Hline) as Hc.
  destruct (join nl2 (List.filter nonempty (combined_response (combine_all tasks))))
    as [|c rest] eqn:Hj; [|exact Hc].
  exfalso. unfold error_line in Hc.
  destruct (u "⚠️ ") eqn:Hu; [discriminate Hu|]. simpl in Hc. discriminate.
Qed.

(** A search task on which the provider raised. *)
Definition failed_search : AgentTask :=
  execute_task (fun _ => Raises (u "store unavailable"))
    (new_task "search_001" SEARCH (u "매물 검색") [("query", DStr (u "서초구 전세"))]
              HIGH []).

Lemma X7_failed_tasks_are_reported_witness :
  error_line failed_search = u "⚠️ search 작업 중 오류가 발생했습니다: store unavailable"
  /\ contains (error_line failed_search)
              (reply (combine_results (fun it => it) [retrieval_AB; failed_search]))
     = true.
Proof.
  split; [vm_compute; reflexivity|].
  apply (X7_failed_tasks_are_reported (fun it => it) [retrieval_AB; failed_search]
           failed_search); [right; now left|reflexivity].
Defined.

(* ===================================================================== *)
(** * Reference resolution: utterances without an ordinal                *)
(* ===================================================================== *)

Lemma span_app (p : N -> bool) (s : ustring) :
  s = fst (span p s) ++ snd (span p s).
Proof.
  induction s as [|c s IH]; simpl; [reflexivity|].
  destruct (p c); [|reflexivity].
  destruct (span p s) as [a b]. simpl in *. now rewrite IH at 1.
Qed.

Lemma match_num_beon (s : ustring) (ds : ustring) :
  match_num s = Some ds -> In ch_beon s.
Proof.
  unfold match_num. pose proof (span_app is_digit s) as Hs.
  destruct (span is_digit s) as [a b]. simpl in Hs.
  destruct a as [|d a]; [discriminate|].
  destruct b as [|c b]; [discriminate|].
  destruct (N.eqb_spec c ch_beon) as [->|]; [|discriminate].
  intros _. rewrite Hs. apply in_or_app. right. now left.
Qed.

Lemma num_item_beon (s : ustring) (m : ustring * ustring) :
  num_item s = Some m -> In ch_beon s.
Proof.
  unfold num_item. pose proof (span_app is_space s) as Hs.
  destruct (span is_space s) as [ws s1]. simpl in Hs.
  pose proof (span_app is_digit s1) as Hd.
  destruct (span is_digit s1) as [ds s2]. simpl in Hd.
  destruct ds as [|d ds]; [discriminate|].
  destruct s2 as [|c s3]; [discriminate|].
  destruct (N.eqb_spec c ch_beon) as [->|]; [|discriminate].
  intros _. rewrite Hs, Hd. apply in_or_app. right.
  apply in_or_app. right. now left.
Qed.

Lemma findall_num_no_beon (lookbehind : bool) (s : ustring) :
  ~ In ch_beon s ->
  forall skip prev, findall_num_from lookbehind skip prev s = [].
Proof.
  induction s as [|c s IH]; intros Hno skip prev; simpl; [reflexivity|].
  assert (Hs : ~ In ch_beon s) by (intros H; apply Hno; now right).
  destruct skip as [|k]; [|now apply IH].
  destruct (lookbehind && prev_is_hangul prev); [now apply IH|].
  destruct (match_num (c :: s)) as [ds|] eqn:Hm; [|now apply IH].
  elim Hno. eapply match_num_beon, Hm.
Qed.

Lemma loc_splits_suffix (s : ustring) :
  forall pre m rest, In (m, rest) (loc_splits pre s) -> incl rest s.
Proof.
  induction s as [|c s IH]; intros pre m rest; simpl; [intros []|].
  destruct (is_hangul c); [|intros []].
  assert (Hlonger : In (m, rest) (loc_splits (c :: pre) s) -> incl rest (c :: s)).
  { intros H x Hx. right. exact (IH _ _ _ H x Hx). }
  destruct pre as [|p pre]; [exact Hlonger|].
  destruct (is_loc_suffix c); [|exact Hlonger].
  intros H. apply in_app_or in H. destruct H as [H|[[= _ <-]|[]]];
    [now apply Hlonger|].
  intros x Hx. now right.
Qed.

Lemma match_loc_nums_no_beon (s : ustring) :
  ~ In ch_beon s -> match_loc_nums s = None.
Proof.
  intros Hno. unfold match_loc_nums, loc_candidates.
  pose proof (loc_splits_suffix s []) as Hsuf.
  induction (loc_splits [] s) as [|[m rest] cands IH]; simpl; [reflexivity|].
  assert (Hg : num_group rest = None).
  { unfold num_group. destruct (num_item rest) as [[m' s']|] eqn:Hi; [|reflexivity].
    elim Hno. apply (Hsuf m rest (or_introl eq_refl)).
    eapply num_item_beon, Hi. }
  rewrite Hg. apply IH. intros m' rest' H. apply (Hsuf m' rest'). now right.
Qed.

Lemma findall_loc_nums_no_beon (s : ustring) :
  ~ In ch_beon s -> forall skip, findall_loc_nums_from skip s = [].
Proof.
  induction s as [|c s IH]; intros Hno skip; simpl; [reflexivity|].
  assert (Hs : ~ In ch_beon s) by (intros H; apply Hno; now right).
  destruct skip as [|k]; [|now apply IH].
  now rewrite (match_loc_nums_no_beon (c :: s) Hno), IH.
Qed.

(** X10.  An utterance in which the character 번 does not occur refers to no
    earlier listing: [resolve_references] returns [None] whatever the
    history and however many places the utterance names, so its callers
    fall back to the latest results. *)
Theorem X10_no_ordinal_no_reference (query : ustring) (history : list HistoryEntry)
  (Hno : ~ In ch_beon query) :
  resolve_references query history = Done None.
Proof.
  unfold resolve_references, findall_loc_nums, findall_num.
  rewrite (findall_loc_nums_no_beon query Hno),
          (findall_num_no_beon true query Hno).
  now destruct (findall_loc query).
Qed.

Lemma X10_no_ordinal_no_reference_witness :
  resolve_references (u "서초구 방배동 매물 비교해줘") two_locations = Done None.
Proof.
  apply X10_no_ordinal_no_reference. vm_compute. intuition discriminate.
Defined.

(* ===================================================================== *)
(** * Hybrid search: what is returned                                    *)
(* ===================================================================== *)

Lemma ustring_eqb_eq (a b : ustring) : ustring_eqb a b = true <-> a = b.
Proof.
  revert b. induction a as [|x a IH]; intros [|y b]; simpl; try easy.
  rewrite andb_true_iff, N.eqb_eq, IH. split; [intros [-> ->]|intros [= -> ->]]; auto.
Qed.

Lemma opt_ustring_eqb_eq (a b : option ustring) :
  opt_ustring_eqb a b = true <-> a = b.
Proof.
  destruct a as [a|], b as [b|]; simpl; try easy.
  rewrite ustring_eqb_eq. split; congruence.
Qed.

(** The shape of every result of [hybrid_search]. *)
Lemma hybrid_search_results (params : SearchParams)
  (embed : nat -> option (list float)) (store : Store) (top_k : nat) (r : ResultSet) :
  hybrid_search params embed store top_k = Some r ->
  r = no_match
  \/ exists docs,
       find_by_ids store (top_ids params embed store top_k) = Some docs
       /\ (forall doc, In doc docs ->
                       In (doc_id doc) (top_ids params embed store top_k))
       /\ survivors params (top_ids params embed store top_k) docs <> []
       /\ r = found (survivors params (top_ids params embed store top_k) docs).
Proof.
  rewrite hybrid_search_outcome. cbv zeta.
  set (top := top_ids params embed store top_k).
  assert (Hfind :
            match find_by_ids store top with
            | None => None
            | Some docs =>
              if asked_for top docs then
                match survivors params top docs with
                | [] => Some no_match
                | it :: rest => Some (found (it :: rest))
                end
              else None
            end = Some r ->
            r = no_match
            \/ exists docs,
                 find_by_ids store top = Some docs
                 /\ (forall doc, In doc docs -> In (doc_id doc) top)
                 /\ survivors params top docs <> []
                 /\ r = found (survivors params top docs)).
  { destruct (find_by_ids store top) as [docs|]; [|discriminate].
    destruct (asked_for top docs) eqn:Hall; [|discriminate].
    destruct (survivors params top docs) as [|it rest] eqn:Hw.
    - intros [= <-]. now left.
    - intros [= <-]. right. exists docs. split; [reflexivity|]. split.
      + intros doc Hdoc. unfold asked_for in Hall. rewrite forallb_forall in Hall.
        specialize (Hall doc Hdoc).
        destruct (index_of (doc_id doc) top) eqn:Hi; [|discriminate].
        apply index_of_nth in Hi. eapply nth_error_In, Hi.
      + rewrite Hw. split; [discriminate|reflexivity]. }
  destruct (text_results store params), (vector_results store embed params);
    [intros [= <-]; now left|exact Hfind..].
Qed.

Lemma with_rank_In (items : list PropertyItem) :
  forall i it, In it (with_rank i items) ->
    exists it0, In it0 items
                /\ item_id it = item_id it0
                /\ item_aptNm it = item_aptNm it0
                /\ item_nearest_station it = item_nearest_station it0
                /\ item_distance_to_station it = item_distance_to_station it0.
Proof.
  induction items as [|a items IH]; intros i it; simpl; [intros []|].
  intros [<-|Hin].
  - exists a. simpl. auto 6.
  - destruct (IH _ _ Hin) as (it0 & H0 & H). exists it0. auto.
Qed.

Lemma survivors_In (params : SearchParams) (ids : list string)
  (docs : list Document) (it : PropertyItem) :
  In it (survivors params ids docs) ->
  (exists doc, In doc docs /\ it = item_of_doc doc)
  /\ (p_require_subway params && truthy (p_station_name params) = true ->
      near_station params it = true).
Proof.
  unfold survivors.
  destruct (p_require_subway params && truthy (p_station_name params)).
  - intros Hin. apply filter_In in Hin. destruct Hin as [Hin Hnear].
    apply in_map_iff in Hin. destruct Hin as (doc & <- & Hdoc).
    split; [|auto]. exists doc. split; [|reflexivity].
    now apply (sort_by_In (fun doc => index_or_zero ids (doc_id doc))).
  - intros Hin. apply in_map_iff in Hin. destruct Hin as (doc & <- & Hdoc).
    split; [|discriminate]. exists doc. split; [|reflexivity].
    now apply (sort_by_In (fun doc => index_or_zero ids (doc_id doc))).
Qed.

(** X8.  When the parsed query asks for a subway station by name, every
    returned listing is at that station and has a stored distance that is
    at most the maximal distance, whatever the store answered to the
    filtered queries. *)
Theorem X8_station_filter_is_exact (params : SearchParams)
  (embed : nat -> option (list float)) (store : Store) (top_k : nat) (r : ResultSet)
  (Hsearch : hybrid_search params embed store top_k = Some r)
  (Hsubway : p_require_subway params = true)
  (Hstation : truthy (p_station_name params) = true) :
  forall it, In it (results r) ->
    item_nearest_station it = p_station_name params
    /\ exists d, item_distance_to_station it = Some d
                 /\ (d <=? float_of_Z (p_max_dist params))%float = true.
Proof.
  intros it Hin.
  destruct (hybrid_search_results _ _ _ _ _ Hsearch) as [->|(docs & _ & _ & _ & ->)];
    [destruct Hin|].
  unfold found in Hin. cbn [results] in Hin. apply with_rank_In in Hin.
  destruct Hin as (it0 & Hin0 & _ & _ & Hst & Hd).
  apply survivors_In in Hin0. destruct Hin0 as [_ Hnear].
  rewrite Hsubway, Hstation in Hnear. specialize (Hnear eq_refl).
  unfold near_station in Hnear. apply andb_true_iff in Hnear.
  destruct Hnear as [Hs Hdist]. rewrite Hst, Hd. split.
  - now apply opt_ustring_eqb_eq.
  - destruct (item_distance_to_station it0) as [d|]; [|discriminate].
    exists d. split; [reflexivity|exact Hdist].
Qed.

(** A store that ignores the station filter. *)
Definition near_gangnam : SearchParams :=
  mkParams (Some (u "강남구")) None None None None true 500 (Some (u "강남")).

Lemma X8_station_filter_is_exact_witness :
  option_map returned_ids (hybrid_search near_gangnam embedding_ok small_store 30)
  = Some ["d2"; "d1"]
  /\ forall it,
       In it (records (hybrid_search near_gangnam embedding_ok small_store 30)) ->
       item_nearest_station it = Some (u "강남").
Proof.
  split; [vm_compute; reflexivity|].
  intros it Hin.
  destruct (hybrid_search near_gangnam embedding_ok small_store 30) as [r|] eqn:Hr;
    [|destruct Hin].
  exact (proj1 (X8_station_filter_is_exact _ _ _ _ _ Hr eq_refl eq_refl it Hin)).
Defined.

(** X9.  [hybrid_search] returns listings of documents the store fetched
    for the best [top_k] ids only, and every such id was found by the
    lexical or the vector pass; when no id is returned twice there are at
    most [top_k] listings; and the message states their number. *)
Theorem X9_results_come_from_the_passes (params : SearchParams)
  (embed : nat -> option (list float)) (store : Store) (top_k : nat) (r : ResultSet)
  (Hsearch : hybrid_search params embed store top_k = Some r) :
  (forall it, In it (results r) ->
     In (item_id it) (top_ids params embed store top_k)
     /\ (In (item_id it) (List.map doc_id (text_results store params))
         \/ In (item_id it) (List.map doc_id (vector_results store embed params))))
  /\ (List.NoDup (returned_ids r) -> (length (results r) <= top_k)%nat)
  /\ (results r = [] -> r = no_match)
  /\ (results r <> [] ->
      message r = Some (u "총 " ++ decimal (length (results r))
                        ++ u "개의 매물을 찾았습니다.")).
Proof.
  assert (Htop : forall id, In id (top_ids params embed store top_k) ->
            In id (List.map doc_id (text_results store params))
            \/ In id (List.map doc_id (vector_results store embed params))).
  { intros id Hid. unfold top_ids in Hid.
    assert (Hin : In id (sort_desc
                     (score_of (ranked_results (text_results store params)
                                  (vector_results store embed params)))
                     (dict_keys (ranked_results (text_results store params)
                                   (vector_results store embed params))))).
    { rewrite <- (firstn_skipn top_k). apply in_or_app. now left. }
    apply sort_desc_In in Hin. now apply ranked_results_keys. }
  destruct (hybrid_search_results _ _ _ _ _ Hsearch)
    as [->|(docs & Hfind & Hdocs & Hne & ->)].
  { split; [intros it []|]. split; [simpl; lia|]. split; [reflexivity|].
    intros H. now elim H. }
  unfold found. cbn [results message].
  assert (Hids : forall it,
            In it (with_rank 0 (survivors params (top_ids params embed store top_k) docs)) ->
            In (item_id it) (top_ids params embed store top_k)).
  { intros it Hin. apply with_rank_In in Hin.
    destruct Hin as (it0 & Hin0 & -> & _).
    apply survivors_In in Hin0. destruct Hin0 as [(doc & Hdoc & ->) _].
    simpl. now apply Hdocs. }
  split; [intros it Hin; split; [now apply Hids|apply Htop; now apply Hids]|].
  split.
  - intros Hnd. unfold returned_ids in Hnd. cbn [results] in Hnd.
    rewrite <- (length_map item_id).
    etransitivity; [apply NoDup_incl_length; [exact Hnd|]|].
    + intros id Hid. apply in_map_iff in Hid. destruct Hid as (it & <- & Hit).
      apply Hids, Hit.
    + unfold top_ids. apply firstn_le_length.
  - split.
    + intros H. apply with_rank_nil in H. contradiction.
    + intros _. now rewrite with_rank_length.
Qed.

Lemma X9_results_come_from_the_passes_witness :
  exists r,
    hybrid_search gangnam embedding_ok small_store 2 = Some r
    /\ returned_ids r = ["d2"; "d1"]
    /\ (length (results r) <= 2)%nat.
Proof.
  destruct (hybrid_search gangnam embedding_ok small_store 2) as [r|] eqn:Hr;
    [|vm_compute in Hr; discriminate].
  exists r. split; [reflexivity|].
  assert (Hids : returned_ids r = ["d2"; "d1"]).
  { vm_compute in Hr. injection Hr as <-. reflexivity. }
  split; [exact Hids|].
  apply (X9_results_come_from_the_passes _ _ _ _ _ Hr).
  rewrite Hids. repeat constructor; simpl; intuition discriminate.
Defined.

(* ===================================================================== *)
(** * Prices in Korean units                                             *)
(* ===================================================================== *)

(** X11.  The price formatter of the search results and the one of the wish
    list print every amount but 0 alike, negative ones included; 0 is "0원"
    in the first and "0만원" in the second. *)
Theorem X11_price_formatters_agree :
  (forall amount : Z, amount <> 0%Z -> format_money amount = format_korean_price amount)
  /\ format_korean_price 0 = u "0원"
  /\ format_money 0 = u "0만원"
  /\ format_korean_price 25000 = u "2억 5,000만원"
  /\ format_korean_price 1234 = u "1,234만원"
  /\ format_korean_price 30000 = u "3억".
Proof.
  split; [|repeat split; vm_compute; reflexivity].
  intros amount Hne. unfold format_money, format_korean_price.
  destruct (Z.eqb_spec amount 0) as [|_]; [contradiction|]. cbv zeta.
  pose proof (Z.mod_pos_bound amount 10000 ltac:(lia)) as Hman.
  destruct (Z.leb_spec 10000 amount) as [Hge|Hlt].
  - assert (Heok : (0 < amount / 10000)%Z) by (apply Z.div_str_pos; lia).
    rewrite (proj2 (Z.ltb_lt _ _) Heok).
    destruct (Z.eqb_spec (amount mod 10000) 0) as [->|Hm]; [reflexivity|].
    now rewrite (proj2 (Z.ltb_lt 0 (amount mod 10000)) ltac:(lia)).
  - assert (Heok : (amount / 10000 <= 0)%Z).
    { destruct (Z.le_gt_cases 0 amount) as [Hpos|Hneg].
      - rewrite Z.div_small by lia. lia.
      - apply Z.lt_le_incl. apply Z.div_lt_upper_bound; lia. }
    now rewrite (proj2 (Z.ltb_ge _ _) Heok).
Qed.

Lemma X11_price_formatters_agree_witness :
  format_money (-15000) = format_korean_price (-15000)
  /\ format_korean_price (-15000) = u "-15,000만원".
Proof.
  split; [|vm_compute; reflexivity].
  apply X11_price_formatters_agree. discriminate.
Defined.

(* ===================================================================== *)
(** * The providers: where the records come from                         *)
(* ===================================================================== *)

Definition no_listing_to_recommend : ustring :=
  u "추천할 매물이 없습니다. 먼저 매물을 검색해주세요.".

(** What the recommendation branch answers for the records it selected. *)
Definition recommendation_text (agents : Agents) (properties : list PropertyItem)
  (query : ustring) : ustring :=
  match properties with
  | [] => no_listing_to_recommend
  | _ :: _ =>
    match recommend agents properties query with
    | inl text => text
    | inr e => u "매물 추천 중 오류가 발생했습니다: " ++ e
    end
  end.

(** The records a search hands on: those found, none when it raised. *)
Definition found_by (search : ResultSet + ustring) : list PropertyItem :=
  match search with inl rs => results rs | inr _ => [] end.

Lemma last_results_snoc (history : list HistoryEntry) (e : HistoryEntry) :
  last_results (history ++ [e]) = h_results e.
Proof. unfold last_results. now rewrite rev_app_distr. Qed.

Lemma last_results_after_search (search : ResultSet + ustring) (query : ustring)
  (file : TempFile) :
  last_results (load_search_history_from_tempfile
                  (snd (execute_search search false query file)))
  = found_by search.
Proof.
  unfold execute_search. cbn [snd]. rewrite load_after_save, last_results_snoc.
  now destruct search.
Qed.

(** X12.  A recommendation that follows a search recommends among the
    listings of that search: they reach it through the history file.  When
    the search found nothing or raised, the agent is not called and the
    fixed text is the answer.  When the history could not be written, the
    recommendation works on whatever the file held before. *)
Theorem X12_recommendation_follows_the_search (agents : Agents) (file : TempFile)
  (search : ResultSet + ustring) (query : ustring) (task : AgentTask)
  (Hsource : source_is (u "search") (u "wishlist") task = false)
  (Hnone : properties_of task = []) :
  execute_recommendation agents (snd (execute_search search false query file)) task
  = recommendation_result
      (recommendation_text agents (found_by search) (query_of task))
      (found_by search)
  /\ (found_by search = [] ->
      r_recommendation_response
        (execute_recommendation agents (snd (execute_search search false query file))
                                task)
      = Some no_listing_to_recommend)
  /\ execute_recommendation agents (snd (execute_search search true query file)) task
     = execute_recommendation agents file task.
Proof.
  assert (Hfile : snd (execute_search search true query file) = file)
    by reflexivity.
  assert (H : execute_recommendation agents
                (snd (execute_search search false query file)) task
              = recommendation_result
                  (recommendation_text agents (found_by search) (query_of task))
                  (found_by search)).
  { unfold execute_recommendation. rewrite Hsource, Hnone.
    rewrite last_results_after_search.
    unfold recommendation_text, no_listing_to_recommend.
    destruct (source_is (u "search") (u "existing") task);
      destruct (found_by search); reflexivity. }
  split; [exact H|]. split; [|now rewrite Hfile].
  intros Hempty. rewrite H, Hempty. reflexivity.
Qed.

(** A recommendation task of the complex path, after a search that found the
    records A and B. *)
Definition recommend_after_search : AgentTask :=
  new_task "llm_complex_002" RECOMMENDATION (u "매물 추천")
    [("query", DStr (u "서초구 전세 찾아서 추천해줘")); ("source", DStr (u "existing"))]
    MEDIUM ["llm_complex_001"].

Definition echo_agents : Agents :=
  mkAgents (fun l _ => inl (u "추천: " ++ join (u ", ") (List.map item_aptNm l)))
           (fun l _ => inl (u "비교: " ++ join (u ", ") (List.map item_aptNm l)))
           (fun l _ => inl (u "분석: " ++ join (u ", ") (List.map item_aptNm l)))
           (fun q _ => u "안녕하세요")
           None
           (fun _ => inr (u "db down"))
           (u "Exceeds the limit (4300 digits) for integer string conversion").

Lemma X12_recommendation_follows_the_search_witness :
  r_recommendation_data
    (execute_recommendation echo_agents
       (snd (execute_search (inl (mkResultSet [record_A; record_B] None None false))
                            false (u "서초구 전세") None))
       recommend_after_search)
  = Some (data_dict [record_A; record_B]).
Proof.
  assert (Hsource : source_is (u "search") (u "wishlist") recommend_after_search
                    = false) by (vm_compute; reflexivity).
  assert (Hnone : properties_of recommend_after_search = []) by reflexivity.
  destruct (X12_recommendation_follows_the_search echo_agents None
              (inl (mkResultSet [record_A; record_B] None None false))
              (u "서초구 전세") recommend_after_search Hsource Hnone) as [-> _].
  reflexivity.
Defined.
